(** * Amass: the event bus and the name service, embedded in Rocq

    The development follows the Go sources of the repository:

    - [core]   : the request model and the [EventBus] (package core);
    - [utils]  : the string filter, queue and semaphore the two packages
                 use (their sources are not part of the tree, they are
                 modelled from the specification);
    - [amass]  : the [NameService] (package amass);
    - [sources]: the web archive connectors (package sources).

    Go values are represented as the code has them: strings are byte
    strings, [int] is a 64-bit two's complement integer carried in [Z],
    maps are [gmap]s, pointers are locations into typed heaps, a panic is
    the [Panic] outcome of the [result] type. *)

From Stdlib Require Import ZArith Ascii String.
From stdpp Require Import gmap strings list.

Local Open Scope string_scope.
Local Open Scope nat_scope.
Local Open Scope list_scope.

(** ** Outcomes of Go code that may panic *)

Inductive result (A : Type) : Type :=
| Ok (a : A)
| Panic (msg : string).
Arguments Ok {A} a.
Arguments Panic {A} msg.

#[global] Instance result_ret : MRet result := fun A a => Ok a.

#[global] Instance result_bind : MBind result := fun A B f m =>
  match m with
  | Ok a => f a
  | Panic msg => Panic msg
  end.

Definition nil_deref : string :=
  "invalid memory address or nil pointer dereference".

(** Go's [int] on the 64-bit targets: arithmetic wraps around. *)
Definition int_min : Z := (- 2 ^ 63)%Z.
Definition int_max : Z := (2 ^ 63 - 1)%Z.
Definition wrap_int (z : Z) : Z := ((z + 2 ^ 63) mod 2 ^ 64 - 2 ^ 63)%Z.

(** ** Package strings of the Go library *)

Module gostrings.

(** [split_go sep skip cur s] scans [s] from the left; [cur] is the piece
    read so far and [skip] the number of bytes of a separator occurrence
    still to pass over. Occurrences are taken leftmost first and do not
    overlap, as [strings.genSplit] does with [strings.Index]. *)
Fixpoint split_go (sep : string) (skip : nat) (cur s : string) : list string :=
  match s with
  | EmptyString => [cur]
  | String c s' =>
      match skip with
      | S k => split_go sep k cur s'
      | O =>
          if String.prefix sep s
          then cur :: split_go sep (String.length sep - 1) EmptyString s'
          else split_go sep 0 (cur +:+ String c EmptyString) s'
      end
  end.

Fixpoint explode (s : string) : list string :=
  match s with
  | EmptyString => []
  | String c s' => String c EmptyString :: explode s'
  end.

(** [strings.Split(s, sep)]. With an empty separator Go cuts [s] after
    each UTF-8 sequence; [explode] cuts after each byte, which is the
    same on ASCII text. The name service only splits on ["."]. *)
Definition Split (s sep : string) : list string :=
  match sep with
  | EmptyString => explode s
  | _ => split_go sep 0 EmptyString s
  end.

(** [strings.Join(elems, sep)]. *)
Fixpoint Join (elems : list string) (sep : string) : string :=
  match elems with
  | [] => EmptyString
  | [x] => x
  | x :: rest => x +:+ sep +:+ Join rest sep
  end.

(** The ASCII part of [strings.ToLower]: the letters 'A'..'Z' are mapped
    to 'a'..'z', every other byte is kept. *)
Definition lower_byte (c : ascii) : ascii :=
  let n := nat_of_ascii c in
  if (Nat.leb 65 n && Nat.leb n 90)%bool then ascii_of_nat (n + 32) else c.

Fixpoint ToLowerASCII (s : string) : string :=
  match s with
  | EmptyString => EmptyString
  | String c s' => String (lower_byte c) (ToLowerASCII s')
  end.

Arguments Split : simpl never.
Arguments Join : simpl never.

End gostrings.

(** ** Package utils (not in the tree) *)

Module utils.

(** Modelled from the spec: the source of [utils.StringFilter] is missing.
    The specification describes it as a deduplication set over strings
    that only grows, with a test-and-insert operation [Duplicate]. *)
Definition StringFilter := gset string.

Definition NewStringFilter : StringFilter := ∅.

(** [Duplicate s] reports whether [s] was seen before and records it. *)
Definition Duplicate (f : StringFilter) (s : string) : bool * StringFilter :=
  (bool_decide (s ∈ f), {[ s ]} ∪ f).

(** Modelled from the spec: the source of [utils.Queue] is missing. The
    specification has the queues popped in FIFO order. *)
Definition Queue (A : Type) := list A.

Definition NewQueue {A} : Queue A := [].

Definition Append {A} (q : Queue A) (x : A) : Queue A := q ++ [x].

Definition Next {A} (q : Queue A) : option (A * Queue A) :=
  match q with
  | [] => None
  | x :: q' => Some (x, q')
  end.

(** Modelled from the spec: the source of [utils.Semaphore] is missing.
    The specification has a counting semaphore; [sem_free] is the number
    of slots left. [Acquire] answers [None] where the Go call blocks. *)
Record Semaphore := mkSemaphore { sem_free : N }.

Definition NewSimpleSemaphore (n : N) : Semaphore := mkSemaphore n.

Definition Acquire (s : Semaphore) (n : N) : option Semaphore :=
  if (n <=? sem_free s)%N then Some (mkSemaphore (sem_free s - n)%N) else None.

Definition Release (s : Semaphore) (n : N) : Semaphore :=
  mkSemaphore (sem_free s + n)%N.

End utils.

(** ** Package core: the request model and the event bus *)

Module core.
Import utils.

(** Request tag types. *)
Definition ALT : string := "alt".
Definition ARCHIVE : string := "archive".
Definition API : string := "api".
Definition AXFR : string := "axfr".
Definition BRUTE : string := "brute".
Definition CERT : string := "cert".
Definition DNS : string := "dns".
Definition EXTERNAL : string := "ext".
Definition SCRAPE : string := "scrape".

(** Request Pub/Sub topics used across Amass. *)
Definition NewNameTopic : string := "amass:newname".
Definition NewAddrTopic : string := "amass:newaddr".
Definition NewSubdomainTopic : string := "amass:newsub".
Definition ResolveNameTopic : string := "amass:resolve".
Definition NameResolvedTopic : string := "amass:resolved".
Definition ReverseSweepTopic : string := "amass:sweep".
Definition ActiveCertTopic : string := "amass:activecert".
Definition OutputTopic : string := "amass:output".
Definition IPToASNTopic : string := "amass:iptoasn".
Definition NewASNTopic : string := "amass:asn".
Definition WhoisRequestTopic : string := "amass:whoisreq".
Definition NewWhoisTopic : string := "amass:whoisinfo".

(** [time.Time]: the wall and monotonic words and the location pointer.
    The zero value of the type has every field zero. *)
Record Time := mkTime { wall : Z; ext : Z; tloc : option nat }.

Definition zeroTime : Time := mkTime 0 0 None.

Module DNSAnswer.
Record t := mk { Name : string; Type_ : Z; TTL : Z; Data : string }.
End DNSAnswer.

Module DNSRequest.
Record t := mk {
  Name : string;
  Domain : string;
  Records : list DNSAnswer.t;
  Tag : string;
  Source : string
}.
End DNSRequest.

Module AddressInfo.
Record t := mk {
  Address : list Z;                       (* net.IP, a byte slice *)
  Netblock : option (list Z * list Z);    (* *net.IPNet: IP and mask *)
  CIDRStr : string;
  ASN : Z;
  Description : string
}.
End AddressInfo.

Module Output.
Record t := mk {
  Timestamp : Time;
  Name : string;
  Domain : string;
  Addresses : list AddressInfo.t;
  Tag : string;
  Source : string
}.
End Output.

(** Heap locations of the objects that travel by pointer. *)
Abbreviation loc := nat (only parsing).

(** An [interface{}] value, as [Subscribe] and [Publish] receive it, and
    the [reflect.Value] made from it: the nil interface, a function
    (closures are told apart by an identifier), a pointer to a request or
    to an output record ([None] is the typed nil pointer), an [int], a
    [string]. *)
Inductive any : Type :=
| Nil
| Func (f : nat)
| PtrDNSRequest (p : option loc)
| PtrOutput (p : option loc)
| Int (n : Z)
| Str (s : string).

#[global] Instance any_eq_dec : EqDecision any.
Proof. solve_decision. Defined.

Inductive Kind : Type := KInvalid | KInt | KFunc | KPtr | KString.

#[global] Instance Kind_eq_dec : EqDecision Kind.
Proof. solve_decision. Defined.

(** [reflect.TypeOf(x).Kind()]: [reflect.TypeOf] of the nil interface is
    the nil [reflect.Type], and calling [Kind] on it dereferences nil. *)
Definition TypeOf_Kind (x : any) : result Kind :=
  match x with
  | Nil => Panic nil_deref
  | Func _ => Ok KFunc
  | PtrDNSRequest _ | PtrOutput _ => Ok KPtr
  | Int _ => Ok KInt
  | Str _ => Ok KString
  end.

(** [reflect.ValueOf]: values are represented by the interface value they
    were made from (the nil interface gives the zero [reflect.Value]). *)
Definition ValueOf (x : any) : any := x.

Record pubReq := mkPubReq { Topic : string; Args : list any }.

(** A [chan struct{}] on which nothing is ever sent: its capacity, the
    number of buffered elements and whether it has been closed. *)
Record chan := mkChan { ch_cap : nat; ch_len : nat; ch_closed : bool }.

Definition make_chan (n : nat) : chan := mkChan n 0 false.

(** A receive can proceed when an element is buffered or the channel is
    closed. *)
Definition recv_ready (c : chan) : bool := (0 <? ch_len c) || ch_closed c.

(** [close(c)]: closing a closed channel panics. *)
Definition close (c : chan) : result chan :=
  if ch_closed c then Panic "close of closed channel"
  else Ok (mkChan (ch_cap c) (ch_len c) true).

(** EventBus handles sending and receiving events across Amass. The mutex
    only delimits the critical sections, which are atomic steps here. *)
Record EventBus := mkEventBus {
  topics : gmap string (list any);
  max : Semaphore;
  queue : Queue pubReq;
  done : chan
}.

Definition set_topics (t : gmap string (list any)) (eb : EventBus) : EventBus :=
  mkEventBus t (max eb) (queue eb) (done eb).
Definition set_max (m : Semaphore) (eb : EventBus) : EventBus :=
  mkEventBus (topics eb) m (queue eb) (done eb).
Definition set_queue (q : Queue pubReq) (eb : EventBus) : EventBus :=
  mkEventBus (topics eb) (max eb) q (done eb).
Definition set_done (d : chan) (eb : EventBus) : EventBus :=
  mkEventBus (topics eb) (max eb) (queue eb) d.

(** NewEventBus initializes and returns an EventBus object. The dispatch
    goroutine it starts is part of the system state, see [NewSys]. *)
Definition NewEventBus : EventBus :=
  {| topics := ∅;
     max := NewSimpleSemaphore 1000000;
     queue := NewQueue;
     done := make_chan 2 |}.

(** [eb.topics[topic]]: a missing key reads as the nil slice. *)
Definition subscribers (eb : EventBus) (topic : string) : list any :=
  default [] (topics eb !! topic).

(** Subscribe registers callback to be executed for all requests on the
    channel. The guard is evaluated left to right: [reflect.TypeOf] is not
    reached for the empty topic. *)
Definition Subscribe (topic : string) (fn : any) (eb : EventBus) : result EventBus :=
  if bool_decide (topic = "") then Ok eb
  else
    k ← TypeOf_Kind fn;
    if bool_decide (k ≠ KFunc) then Ok eb
    else
      let callback := ValueOf fn in
      Ok (set_topics (<[topic := subscribers eb topic ++ [callback]]> (topics eb)) eb).

(** Unsubscribe deregisters the callback from the channel. *)
Definition Unsubscribe (topic : string) (fn : any) (eb : EventBus) : result EventBus :=
  if bool_decide (topic = "") then Ok eb
  else
    k ← TypeOf_Kind fn;
    if bool_decide (k ≠ KFunc) then Ok eb
    else
      let callback := ValueOf fn in
      let channels := filter (fun c => c ≠ callback) (subscribers eb topic) in
      Ok (set_topics (<[topic := channels]> (topics eb)) eb).

(** Publish sends req on the channel labeled with name. *)
Definition Publish (topic : string) (args : list any) (eb : EventBus) : EventBus :=
  if bool_decide (topic = "") then eb
  else
    let passedArgs := map ValueOf args in
    set_queue (Append (queue eb) {| Topic := topic; Args := passedArgs |}) eb.

(** Stop prevents any additional requests from being sent. *)
Definition Stop (eb : EventBus) : result EventBus :=
  d ← close (done eb);
  Ok (set_done d eb).

(** *** The dispatch loop *)

Definition maxIdx : nat := 7.
Definition delays : list nat := [10; 25; 50; 75; 100; 150; 250; 500].

(** What one turn of the [for] loop of [processRequests] does, up to the
    point where it would acquire the semaphore. *)
Inductive turn : Type :=
| TReturn                                        (* <-eb.done *)
| TSleep (curIdx : nat) (ms : nat)               (* empty queue *)
| TSkip (eb : EventBus)                          (* no entry for the topic *)
| TDispatch (eb : EventBus) (callbacks args : list any).

Definition processRequests_turn (curIdx : nat) (eb : EventBus) : turn :=
  if recv_ready (done eb) then TReturn
  else
    match Next (queue eb) with
    | None =>
        let curIdx := if curIdx <? maxIdx then S curIdx else curIdx in
        TSleep curIdx (nth curIdx delays 0)
    | Some (p, q) =>
        let eb := set_queue q eb in
        match topics eb !! Topic p with
        | Some callbacks => TDispatch eb callbacks (Args p)
        | None => TSkip eb
        end
    end.

(** [executeCallbacks]: the calls [cb.Call(args)] of the loop, in order. *)
Definition executeCallbacks (callbacks args : list any) : list (any * list any) :=
  map (fun cb => (cb, args)) callbacks.

(** *** The bus and its goroutines

    [NewEventBus] starts the dispatch goroutine, and every dispatch starts
    one goroutine running [executeCallbacks]. The goroutines and the
    callers of the bus interleave; a schedule is a list of actions, each
    an atomic step of one of them. *)

Inductive loopState : Type :=
| Running (curIdx : nat)                   (* at the head of the for loop *)
| Acquiring (callbacks args : list any)    (* blocked in eb.max.Acquire(1) *)
| Returned.

(** A goroutine running [executeCallbacks]: the callbacks it has still to
    call, the arguments, and whether the deferred [Release] has run. *)
Record goroutine := mkGoroutine {
  g_callbacks : list any;
  g_args : list any;
  g_released : bool
}.

(** [calls] is the trace of the calls [cb.Call(args)] made so far, each
    with the index of the goroutine that made it. *)
Record Sys := mkSys {
  bus : EventBus;
  loop : loopState;
  routines : list goroutine;
  calls : list (nat * any * list any)
}.

Definition set_bus (eb : EventBus) (s : Sys) : Sys :=
  mkSys eb (loop s) (routines s) (calls s).
Definition set_loop (l : loopState) (s : Sys) : Sys :=
  mkSys (bus s) l (routines s) (calls s).

Definition NewSys : Sys :=
  {| bus := NewEventBus; loop := Running 0; routines := []; calls := [] |}.

(** [eb.max.Acquire(1)] followed by [go eb.executeCallbacks(callbacks, args)]. *)
Definition spawn (callbacks args : list any) (s : Sys) : Sys :=
  match Acquire (max (bus s)) 1 with
  | Some m =>
      mkSys (set_max m (bus s)) (Running 0)
            (routines s ++ [mkGoroutine callbacks args false]) (calls s)
  | None => set_loop (Acquiring callbacks args) s
  end.

(** One step of the dispatch goroutine. *)
Definition loop_step (s : Sys) : Sys :=
  match loop s with
  | Returned => s
  | Acquiring callbacks args => spawn callbacks args s
  | Running curIdx =>
      match processRequests_turn curIdx (bus s) with
      | TReturn => set_loop Returned s
      | TSleep curIdx _ => set_loop (Running curIdx) s
      | TSkip eb => set_loop (Running 0) (set_bus eb s)
      | TDispatch eb callbacks args => spawn callbacks args (set_bus eb s)
      end
  end.

(** One step of the goroutine [g] running [executeCallbacks]: the next
    call of its loop, or the deferred release once the loop is over. *)
Definition call_step (g : nat) (s : Sys) : Sys :=
  match routines s !! g with
  | None => s
  | Some r =>
      match g_callbacks r with
      | cb :: rest =>
          mkSys (bus s) (loop s)
                (<[g := mkGoroutine rest (g_args r) (g_released r)]> (routines s))
                (calls s ++ [(g, cb, g_args r)])
      | [] =>
          if g_released r then s
          else
            mkSys (set_max (Release (max (bus s)) 1) (bus s)) (loop s)
                  (<[g := mkGoroutine [] (g_args r) true]> (routines s))
                  (calls s)
      end
  end.

Inductive action : Type :=
| ASubscribe (topic : string) (fn : any)
| AUnsubscribe (topic : string) (fn : any)
| APublish (topic : string) (args : list any)
| AStop
| ALoop
| ACall (g : nat).

Definition step (a : action) (s : Sys) : result Sys :=
  match a with
  | ASubscribe topic fn => eb ← Subscribe topic fn (bus s); Ok (set_bus eb s)
  | AUnsubscribe topic fn => eb ← Unsubscribe topic fn (bus s); Ok (set_bus eb s)
  | APublish topic args => Ok (set_bus (Publish topic args (bus s)) s)
  | AStop => eb ← Stop (bus s); Ok (set_bus eb s)
  | ALoop => Ok (loop_step s)
  | ACall g => Ok (call_step g s)
  end.

Fixpoint run (sched : list action) (s : Sys) : result Sys :=
  match sched with
  | [] => Ok s
  | a :: rest => s' ← step a s; run rest s'
  end.

(** The calls made by goroutine [g], and the calls it has still to make
    (the goroutine of a dispatch blocked on the semaphore is the next one
    to be started). *)
Definition calls_of (g : nat) (s : Sys) : list (nat * any * list any) :=
  filter (fun c => c.1.1 = g) (calls s).

Definition tag_calls (g : nat) (callbacks args : list any) : list (nat * any * list any) :=
  map (fun c => (g, c.1, c.2)) (executeCallbacks callbacks args).

Definition pending (g : nat) (s : Sys) : list (nat * any * list any) :=
  match routines s !! g with
  | Some r => tag_calls g (g_callbacks r) (g_args r)
  | None =>
      match loop s with
      | Acquiring callbacks args =>
          if bool_decide (g = length (routines s)) then tag_calls g callbacks args else []
      | _ => []
      end
  end.

(** A goroutine index is in use when the goroutine has been started, or
    when it is the one the blocked dispatch loop is about to start. *)
Definition allocated (g : nat) (s : Sys) : Prop :=
  g < length (routines s) \/
  (g = length (routines s) /\ exists callbacks args, loop s = Acquiring callbacks args).

(** Every call in the trace was made by a goroutine that has been started. *)
Definition calls_bounded (s : Sys) : Prop :=
  Forall (fun c => c.1.1 < length (routines s)) (calls s).

(** *** A run of the bus, used to exercise the properties below *)

Definition demo_before : list action :=
  [ASubscribe NewNameTopic (Func 0);
   ASubscribe NewNameTopic (Func 0);
   APublish NewNameTopic [PtrDNSRequest (Some 0)]].

Definition demo_after : list action :=
  [ASubscribe NewNameTopic (Func 1); ACall 0; ACall 0; ACall 0].

Definition state_after (sched : list action) (s : Sys) : Sys :=
  match run sched s with
  | Ok s' => s'
  | Panic _ => s
  end.

Definition demo_dispatching : Sys := state_after demo_before NewSys.

Definition demo_dispatched : Sys := state_after (ALoop :: demo_after) demo_dispatching.

(** The dispatch of [demo_dispatching] has started its goroutine and a
    late subscriber has come; the goroutine has made no call yet. *)
Definition demo_started : Sys :=
  state_after [ALoop; ASubscribe NewNameTopic (Func 1)] demo_dispatching.

(** *** Measures of a state of the bus, used by the properties below *)

(** The goroutines of [executeCallbacks] whose deferred release has not
    run: each of them holds one slot of the semaphore. *)
Definition holding (rs : list goroutine) : nat :=
  length (List.filter (fun r => negb (g_released r)) rs).

(** The goroutine a dispatch of [p] starts on the bus [eb], if the topic of
    [p] has an entry. *)
Definition started (eb : EventBus) (p : pubReq) : option goroutine :=
  (fun callbacks => mkGoroutine callbacks (Args p) false) <$> topics eb !! Topic p.

Definition publish_all (ps : list pubReq) : list action :=
  map (fun p => APublish (Topic p) (Args p)) ps.

(** The index of the backoff table after [k] more polls of an empty queue. *)
Definition backoff (limit i k : nat) : nat := Nat.min (i + k) limit.

(** A second run: the function 0 subscribes, is unsubscribed, and then a
    request is published and dispatched while the function 1 is subscribed. *)
Definition demo_unsubscribed : list action :=
  [ASubscribe NewNameTopic (Func 0);
   ASubscribe NewNameTopic (Func 1);
   ASubscribe NewNameTopic (Func 0)].

Definition demo_republished : list action :=
  [ASubscribe NameResolvedTopic (Func 0);
   APublish NewNameTopic [PtrDNSRequest (Some 0)]].

Definition demo_subscribed : Sys := state_after demo_unsubscribed NewSys.

Definition demo_off : Sys :=
  state_after [AUnsubscribe NewNameTopic (Func 0)] demo_subscribed.

Definition demo_off_published : Sys := state_after demo_republished demo_off.

Definition demo_off_dispatched : Sys :=
  state_after [ALoop; ACall 0; ACall 0] demo_off_published.

(** Three publishes, the second on a topic without an entry. *)
Definition demo_three_publishes : list pubReq :=
  [mkPubReq NewNameTopic [PtrDNSRequest (Some 0)];
   mkPubReq OutputTopic [PtrOutput (Some 0)];
   mkPubReq NewNameTopic [PtrDNSRequest (Some 1)]].

(** *** The dispatch loop, statement by statement

    [loop_step] takes a turn of [processRequests], from the [select] to the
    semaphore, as one step. The other goroutines can run between any two
    statements of a turn. Where that matters, as it does for [Stop], the
    turn is cut at every access to the state the goroutines share: the
    [select] on [eb.done], [eb.queue.Next()], the read of [eb.topics] under
    the lock, and [eb.max.Acquire(1)]. *)
Inductive loopPoint : Type :=
| AtSelect (curIdx : nat)                  (* about to run the select *)
| AtNext (curIdx : nat)                    (* default taken, before eb.queue.Next() *)
| AtTopics (p : pubReq)                    (* request taken, before eb.topics[p.Topic] *)
| AtAcquire (callbacks args : list any)    (* before, or blocked in, eb.max.Acquire(1) *)
| AtReturn.                                (* returned *)

Record FineSys := mkFineSys {
  fbus : EventBus;
  fpoint : loopPoint;
  froutines : list goroutine;
  fcalls : list (nat * any * list any)
}.

Definition set_fbus (eb : EventBus) (s : FineSys) : FineSys :=
  mkFineSys eb (fpoint s) (froutines s) (fcalls s).
Definition set_fpoint (l : loopPoint) (s : FineSys) : FineSys :=
  mkFineSys (fbus s) l (froutines s) (fcalls s).

Definition NewFineSys : FineSys :=
  {| fbus := NewEventBus; fpoint := AtSelect 0; froutines := []; fcalls := [] |}.

(** One statement of the dispatch goroutine. An empty queue sends it to
    sleep and back to the [select]; the sleep touches nothing shared. *)
Definition fine_loop_step (s : FineSys) : FineSys :=
  match fpoint s with
  | AtReturn => s
  | AtSelect curIdx =>
      if recv_ready (done (fbus s)) then set_fpoint AtReturn s
      else set_fpoint (AtNext curIdx) s
  | AtNext curIdx =>
      match Next (queue (fbus s)) with
      | None =>
          let curIdx := if curIdx <? maxIdx then S curIdx else curIdx in
          set_fpoint (AtSelect curIdx) s
      | Some (p, q) => set_fpoint (AtTopics p) (set_fbus (set_queue q (fbus s)) s)
      end
  | AtTopics p =>
      match topics (fbus s) !! Topic p with
      | Some callbacks => set_fpoint (AtAcquire callbacks (Args p)) s
      | None => set_fpoint (AtSelect 0) s
      end
  | AtAcquire callbacks args =>
      match Acquire (max (fbus s)) 1 with
      | Some m =>
          mkFineSys (set_max m (fbus s)) (AtSelect 0)
                    (froutines s ++ [mkGoroutine callbacks args false]) (fcalls s)
      | None => s
      end
  end.

(** The state with the turns of the loop taken whole: [AtSelect] is the
    head of the loop. *)
Definition coarse (s : FineSys) : Sys :=
  mkSys (fbus s)
        (match fpoint s with
         | AtSelect curIdx | AtNext curIdx => Running curIdx
         | AtTopics _ => Running 0
         | AtAcquire callbacks args => Acquiring callbacks args
         | AtReturn => Returned
         end)
        (froutines s) (fcalls s).

(** A step of a goroutine of [executeCallbacks] is the one of [call_step]:
    it does not read the state of the loop. *)
Definition fine_call_step (g : nat) (s : FineSys) : FineSys :=
  let c := call_step g (coarse s) in
  mkFineSys (bus c) (fpoint s) (routines c) (calls c).

Definition fine_step (a : action) (s : FineSys) : result FineSys :=
  match a with
  | ASubscribe topic fn => eb ← Subscribe topic fn (fbus s); Ok (set_fbus eb s)
  | AUnsubscribe topic fn => eb ← Unsubscribe topic fn (fbus s); Ok (set_fbus eb s)
  | APublish topic args => Ok (set_fbus (Publish topic args (fbus s)) s)
  | AStop => eb ← Stop (fbus s); Ok (set_fbus eb s)
  | ALoop => Ok (fine_loop_step s)
  | ACall g => Ok (fine_call_step g s)
  end.

Fixpoint fine_run (sched : list action) (s : FineSys) : result FineSys :=
  match sched with
  | [] => Ok s
  | a :: rest => s' ← fine_step a s; fine_run rest s'
  end.

(** The statements of one turn, run without another goroutine in between:
    from the head of the loop to the next head, to the return, or to the
    semaphore when no slot is free. *)
Definition fine_turn (s : FineSys) : FineSys :=
  match fpoint s with
  | AtSelect _ =>
      let s1 := fine_loop_step s in
      match fpoint s1 with
      | AtNext _ =>
          let s2 := fine_loop_step s1 in
          match fpoint s2 with
          | AtTopics _ =>
              let s3 := fine_loop_step s2 in
              match fpoint s3 with
              | AtAcquire _ _ => fine_loop_step s3
              | _ => s3
              end
          | _ => s2
          end
      | _ => s1
      end
  | AtAcquire _ _ => fine_loop_step s
  | _ => s
  end.

(** How many requests the loop can still take from the queue, and how many
    goroutines it can still start, before it is at its [select] again. *)
Definition takes_left (l : loopPoint) : nat :=
  match l with
  | AtNext _ => 1
  | _ => 0
  end.

Definition dispatches_left (l : loopPoint) : nat :=
  match l with
  | AtNext _ | AtTopics _ | AtAcquire _ _ => 1
  | _ => 0
  end.

(** The statements the loop has still to run, at most, before it returns,
    once the done channel is closed. *)
Definition statements_left (l : loopPoint) : nat :=
  match l with
  | AtReturn => 0
  | AtSelect _ => 1
  | AtAcquire _ _ => 2
  | AtTopics _ => 3
  | AtNext _ => 4
  end.

Definition fine_state_after (sched : list action) (s : FineSys) : FineSys :=
  match fine_run sched s with
  | Ok s' => s'
  | Panic _ => s
  end.

(** A function is subscribed, a request is published, and the loop has
    passed its [select]: it is about to call [eb.queue.Next()]. *)
Definition demo_past_select : FineSys :=
  fine_state_after [ASubscribe NewNameTopic (Func 0);
                    APublish NewNameTopic [PtrDNSRequest (Some 0)];
                    ALoop] NewFineSys.

(** After a stop: the loop runs on, a request is published, the loop runs
    on to its end and the goroutine it started makes its call. *)
Definition demo_after_stop : list action :=
  [ALoop; APublish NewNameTopic [PtrDNSRequest (Some 1)]; ALoop; ALoop; ALoop; ALoop; ACall 0].

End core.

(** ** Package handlers (not in the tree) *)

Module handlers.

(** The fields of [handlers.DataOptsParams] that the name service sets. *)
Record DataOptsParams := mkParams {
  UUID : string;
  Name : string;
  Domain : string
}.

(** The method of the [DataHandler] interface that the name service
    calls; the specification has it as a synchronous query answering a
    boolean. *)
Record DataHandler := mkHandler {
  IsCNAMENode : DataOptsParams -> bool
}.

End handlers.

(** ** Functions used by the name service whose sources are not in the tree *)

(** [strings.ToLower] of the Go library (Unicode aware),
    [utils.RemoveAsteriskLabel] and [amass.TrustedTag]. The theorems on the
    name service hold for every choice of the three. *)
Class Helpers := {
  ToLower : string -> string;
  RemoveAsteriskLabel : string -> string;
  TrustedTag : string -> bool
}.

(** Modelled from the spec: [utils.RemoveAsteriskLabel] is missing. The
    specification says that the new-name handler strips a leading wildcard
    label. *)
Definition spec_RemoveAsteriskLabel (s : string) : string :=
  match s with
  | String "*" (String "." rest) => rest
  | _ => s
  end.

(** Modelled from the spec: [TrustedTag] is missing. The specification names
    certificate extraction and zone transfer as trusted provenance tags and
    uses "scrape" as an example of the other class. *)
Definition spec_TrustedTag (tag : string) : bool :=
  bool_decide (tag = core.CERT) || bool_decide (tag = core.AXFR).

(** The instance used to run the code on concrete requests. *)
Definition spec_helpers : Helpers :=
  {| ToLower := gostrings.ToLowerASCII;
     RemoveAsteriskLabel := spec_RemoveAsteriskLabel;
     TrustedTag := spec_TrustedTag |}.

(** ** Package amass: the name service *)

Module amass.
Import utils core.

Record timesRequest := mkTimesRequest {
  Subdomain : string;
  Times : nat                    (* the reply channel, by identity *)
}.

(** The fields of [core.Config] that the name service reads. *)
Record Config := mkConfig {
  Passive : bool;
  UUID : string;
  IsDomainInScope : string -> bool
}.

(** NameService is the Service that handles all newly discovered names
    within the architecture. The first three fields stand for the embedded
    [core.BaseService]: the configuration, the time stamp written by
    [SetActive] and the inbox behind [SendDNSRequest] and
    [DNSRequestChan]. The bus, which the service holds by pointer, is a
    field of the [World]. *)
Record NameService := mkNameService {
  config : Config;
  active : Time;
  dnsRequests : Queue (option loc);
  filter : StringFilter;
  times : Queue timesRequest;
  sanityRE : string -> bool;
  trustedNameFilter : StringFilter;
  otherNameFilter : StringFilter;
  graph : option handlers.DataHandler
}.

Definition set_active (t : Time) (n : NameService) : NameService :=
  mkNameService (config n) t (dnsRequests n) (filter n) (times n) (sanityRE n)
                (trustedNameFilter n) (otherNameFilter n) (graph n).
Definition set_dnsRequests (q : Queue (option loc)) (n : NameService) : NameService :=
  mkNameService (config n) (active n) q (filter n) (times n) (sanityRE n)
                (trustedNameFilter n) (otherNameFilter n) (graph n).
Definition set_filter (f : StringFilter) (n : NameService) : NameService :=
  mkNameService (config n) (active n) (dnsRequests n) f (times n) (sanityRE n)
                (trustedNameFilter n) (otherNameFilter n) (graph n).
Definition set_times (q : Queue timesRequest) (n : NameService) : NameService :=
  mkNameService (config n) (active n) (dnsRequests n) (filter n) q (sanityRE n)
                (trustedNameFilter n) (otherNameFilter n) (graph n).
Definition set_trustedNameFilter (f : StringFilter) (n : NameService) : NameService :=
  mkNameService (config n) (active n) (dnsRequests n) (filter n) (times n) (sanityRE n)
                f (otherNameFilter n) (graph n).
Definition set_otherNameFilter (f : StringFilter) (n : NameService) : NameService :=
  mkNameService (config n) (active n) (dnsRequests n) (filter n) (times n) (sanityRE n)
                (trustedNameFilter n) f (graph n).
Definition set_graph (g : option handlers.DataHandler) (n : NameService) : NameService :=
  mkNameService (config n) (active n) (dnsRequests n) (filter n) (times n) (sanityRE n)
                (trustedNameFilter n) (otherNameFilter n) g.

(** NewNameService requires the enumeration configuration as parameter.
    The regular expression of [utils.AnySubdomainRegex] is not in the
    tree: the matcher is a parameter. *)
Definition NewNameService (cfg : Config) (re : string -> bool) : NameService :=
  {| config := cfg;
     active := zeroTime;
     dnsRequests := NewQueue;
     filter := NewStringFilter;
     times := NewQueue;
     sanityRE := re;
     trustedNameFilter := NewStringFilter;
     otherNameFilter := NewStringFilter;
     graph := None |}.

(** RegisterGraph makes the Graph available to the NameService. *)
Definition RegisterGraph (g : option handlers.DataHandler) (n : NameService) : NameService :=
  set_graph g n.

(** The goroutine of [processTimesRequests] owns two locals. *)
Record timesLoop := mkTimesLoop {
  curIdx : nat;
  subdomains : gmap string Z
}.

(** Everything the name service reads and writes: the service, the bus,
    the request and output objects it reaches by pointer, the goroutine
    that owns the counters, the number of reply channels made so far, the
    values sent on them and the queries made to the graph. *)
Record World := mkWorld {
  ns : NameService;
  ebus : EventBus;
  requests : gmap loc DNSRequest.t;
  outputs : gmap loc Output.t;
  counter : timesLoop;
  chans : nat;
  sent : list (timesRequest * Z);
  queries : list handlers.DataOptsParams
}.

Definition set_ns (n : NameService) (w : World) : World :=
  mkWorld n (ebus w) (requests w) (outputs w) (counter w) (chans w) (sent w) (queries w).
Definition set_ebus (eb : EventBus) (w : World) : World :=
  mkWorld (ns w) eb (requests w) (outputs w) (counter w) (chans w) (sent w) (queries w).
Definition set_requests (h : gmap loc DNSRequest.t) (w : World) : World :=
  mkWorld (ns w) (ebus w) h (outputs w) (counter w) (chans w) (sent w) (queries w).
Definition set_outputs (h : gmap loc Output.t) (w : World) : World :=
  mkWorld (ns w) (ebus w) (requests w) h (counter w) (chans w) (sent w) (queries w).
Definition set_queries (q : list handlers.DataOptsParams) (w : World) : World :=
  mkWorld (ns w) (ebus w) (requests w) (outputs w) (counter w) (chans w) (sent w) q.

Definition NewWorld (cfg : Config) (re : string -> bool) : World :=
  {| ns := NewNameService cfg re;
     ebus := NewEventBus;
     requests := ∅;
     outputs := ∅;
     counter := mkTimesLoop 0 ∅;
     chans := 0;
     sent := [];
     queries := [] |}.

(** Reading through a request pointer. Go has no dangling pointers: a
    location outside the heap is treated like nil. *)
Definition deref (req : option loc) (w : World) : result DNSRequest.t :=
  match req with
  | None => Panic nil_deref
  | Some l =>
      match requests w !! l with
      | Some r => Ok r
      | None => Panic nil_deref
      end
  end.

(** [&core.DNSRequest{...}] and [&core.Output{...}]. *)
Definition new_request (r : DNSRequest.t) (w : World) : loc * World :=
  let l := fresh (dom (requests w)) in
  (l, set_requests (<[l := r]> (requests w)) w).

Definition new_output (o : Output.t) (w : World) : loc * World :=
  let l := fresh (dom (outputs w)) in
  (l, set_outputs (<[l := o]> (outputs w)) w).

(** [ns.Bus().Publish(topic, args...)]. *)
Definition bus_Publish (topic : string) (args : list any) (w : World) : World :=
  set_ebus (Publish topic args (ebus w)) w.

(** Modelled from the spec: [core.BaseService] is missing. [SetActive]
    records a last-active time stamp; [now] is the instant read from the
    clock. *)
Definition SetActive (now : Time) (w : World) : World :=
  set_ns (set_active now (ns w)) w.

(** Modelled from the spec: [core.BaseService] is missing.
    [SendDNSRequest] pushes the request into the inbox of the service. *)
Definition SendDNSRequest (req : option loc) (w : World) : World :=
  set_ns (set_dnsRequests (Append (dnsRequests (ns w)) req) (ns w)) w.

(** Writing through a request pointer. *)
Definition store (l : loc) (r : DNSRequest.t) (w : World) : World :=
  set_requests (<[l := r]> (requests w)) w.

Definition with_Name (name : string) (r : DNSRequest.t) : DNSRequest.t :=
  DNSRequest.mk name (DNSRequest.Domain r) (DNSRequest.Records r)
                (DNSRequest.Tag r) (DNSRequest.Source r).
Definition with_Domain (domain : string) (r : DNSRequest.t) : DNSRequest.t :=
  DNSRequest.mk (DNSRequest.Name r) domain (DNSRequest.Records r)
                (DNSRequest.Tag r) (DNSRequest.Source r).

(** [ns.otherNameFilter.Duplicate], [ns.trustedNameFilter.Duplicate] and
    [ns.filter.Duplicate] on the filters of the service. *)
Definition other_Duplicate (name : string) (w : World) : bool * World :=
  let '(dup, f) := Duplicate (otherNameFilter (ns w)) name in
  (dup, set_ns (set_otherNameFilter f (ns w)) w).
Definition trusted_Duplicate (name : string) (w : World) : bool * World :=
  let '(dup, f) := Duplicate (trustedNameFilter (ns w)) name in
  (dup, set_ns (set_trustedNameFilter f (ns w)) w).
Definition filter_Duplicate (name : string) (w : World) : bool * World :=
  let '(dup, f) := Duplicate (filter (ns w)) name in
  (dup, set_ns (set_filter f (ns w)) w).

(** *** The observation counters *)

Definition maxIdx : nat := 9.
Definition delays : list nat := [10; 25; 50; 75; 100; 150; 250; 500; 750; 1000].

(** One turn of the [for] loop of [processTimesRequests]; [quit] tells
    whether the quit channel of the service is ready. *)
Inductive timesTurn : Type :=
| CReturn
| CSleep (st : timesLoop) (ms : nat)
| CSend (st : timesLoop) (q : Queue timesRequest) (req : timesRequest) (n : Z).

Definition processTimesRequests_turn (quit : bool) (st : timesLoop)
    (q : Queue timesRequest) : timesTurn :=
  if quit then CReturn
  else
    match Next q with
    | None =>
        let curIdx := if curIdx st <? maxIdx then S (curIdx st) else curIdx st in
        CSleep (mkTimesLoop curIdx (subdomains st)) (nth curIdx delays 0)
    | Some (req, q) =>
        let times :=
          match subdomains st !! Subdomain req with
          | Some times => wrap_int (times + 1)
          | None => 1%Z
          end in
        CSend (mkTimesLoop 0 (<[Subdomain req := times]> (subdomains st))) q req times
    end.

(** [fuel] turns of the loop while the service is running (the quit
    channel is not ready): the state of the goroutine, what is left of the
    queue and the values sent on the reply channels, in order. *)
Fixpoint processTimesRequests (fuel : nat) (st : timesLoop) (q : Queue timesRequest)
    : timesLoop * Queue timesRequest * list (timesRequest * Z) :=
  match fuel with
  | O => (st, q, [])
  | S fuel =>
      match processTimesRequests_turn false st q with
      | CReturn => (st, q, [])
      | CSleep st _ => processTimesRequests fuel st q
      | CSend st q req n =>
          let '(st', q', out) := processTimesRequests fuel st q in
          (st', q', (req, n) :: out)
      end
  end.

(** [timesForSubdomain]: the request goes to the end of the queue, the
    goroutine of [processTimesRequests] serves the queue in order, and the
    value received on the new channel is the one sent for the request,
    which is the last one sent. The service is taken as started and not
    stopped: without that goroutine the receive would block. *)
Definition timesForSubdomain (sub : string) (w : World) : Z * World :=
  let times := chans w in
  let q := Append (amass.times (ns w)) (mkTimesRequest sub times) in
  let '(st, q, out) := processTimesRequests (length q) (counter w) q in
  (List.last (map snd out) 0%Z,
   mkWorld (set_times q (ns w)) (ebus w) (requests w) (outputs w) st
           (S times) (sent w ++ out) (queries w)).

Section service.
Context `{Helpers}.

Definition newNameEvent (req : option loc) (w : World) : result World :=
  match req with
  | None => Ok w
  | Some l =>
      r ← deref req w;
      if bool_decide (DNSRequest.Name r = "") || bool_decide (DNSRequest.Domain r = "")
      then Ok w
      else
        let r := with_Name (ToLower (RemoveAsteriskLabel (DNSRequest.Name r))) r in
        let r := with_Domain (ToLower (DNSRequest.Domain r)) r in
        let w := store l r w in
        let tt := TrustedTag (DNSRequest.Tag r) in
        let '(dup, w) :=
          if negb tt then other_Duplicate (DNSRequest.Name r) w else (false, w) in
        if dup then Ok w
        else
          let '(dup, w) :=
            if tt then trusted_Duplicate (DNSRequest.Name r) w else (false, w) in
          if dup then Ok w
          else Ok (SendDNSRequest req w)
  end.

(** What the service may be given to handle: a call of one of its two
    callbacks, or a turn of its request loop. *)
Inductive handled : Type :=
| HNewName (req : option loc)
| HResolved (now : Time) (req : option loc)
| HRequest (now : Time).

(** The name under which [newNameEvent] looks a request up in a filter. *)
Definition normal_name (r : DNSRequest.t) : string :=
  ToLower (RemoveAsteriskLabel (DNSRequest.Name r)).

Definition performRequest (now : Time) (req : option loc) (w : World) : result World :=
  let w := SetActive now w in
  if Passive (config (ns w)) then
    r ← deref req w;
    let '(dup, w) := filter_Duplicate (DNSRequest.Name r) w in
    if negb dup && sanityRE (ns w) (DNSRequest.Name r) then
      let '(o, w) :=
        new_output {| Output.Timestamp := zeroTime;
                      Output.Name := DNSRequest.Name r;
                      Output.Domain := DNSRequest.Domain r;
                      Output.Addresses := [];
                      Output.Tag := DNSRequest.Tag r;
                      Output.Source := DNSRequest.Source r |} w in
      Ok (bus_Publish OutputTopic [PtrOutput (Some o)] w)
    else Ok w
  else Ok (bus_Publish ResolveNameTopic [PtrDNSRequest req] w).

(** One turn of [processRequests] that takes a request from the inbox
    (the other cases of the select leave the state as it is). *)
Definition processRequests_turn (now : Time) (w : World) : result World :=
  match Next (dnsRequests (ns w)) with
  | None => Ok w
  | Some (req, q) => performRequest now req (set_ns (set_dnsRequests q (ns w)) w)
  end.

Definition checkSubdomain (req : option loc) (w : World) : result World :=
  r ← deref req w;
  let labels := gostrings.Split (DNSRequest.Name r) "." in
  let num := length labels in
  if num <? 2 then Ok w
  else if num - 1 <? length (gostrings.Split (DNSRequest.Domain r) ".") then Ok w
  else
    let l1 := nth 1 labels "" in
    if bool_decide (l1 = "_tcp") || bool_decide (l1 = "_udp") || bool_decide (l1 = "_tls")
    then Ok w
    else
      let sub := gostrings.Join (drop 1 labels) "." in
      let '(cname, w) :=
        match graph (ns w) with
        | Some g =>
            let p := handlers.mkParams (UUID (config (ns w))) sub (DNSRequest.Domain r) in
            (handlers.IsCNAMENode g p, set_queries (queries w ++ [p]) w)
        | None => (false, w)
        end in
      if cname then Ok w
      else
        let '(p, w) :=
          new_request {| DNSRequest.Name := sub;
                         DNSRequest.Domain := DNSRequest.Domain r;
                         DNSRequest.Records := [];
                         DNSRequest.Tag := DNSRequest.Tag r;
                         DNSRequest.Source := DNSRequest.Source r |} w in
        let '(n, w) := timesForSubdomain sub w in
        Ok (bus_Publish NewSubdomainTopic [PtrDNSRequest (Some p); Int n] w).

(** Resolved is called when a name has been resolved by the DNS Service. *)
Definition Resolved (now : Time) (req : option loc) (w : World) : result World :=
  let w := SetActive now w in
  r ← deref req w;
  if IsDomainInScope (config (ns w)) (DNSRequest.Name r) then checkSubdomain req w
  else Ok w.

Definition handle (e : handled) (w : World) : result World :=
  match e with
  | HNewName req => newNameEvent req w
  | HResolved now req => Resolved now req w
  | HRequest now => processRequests_turn now w
  end.

Fixpoint handle_all (es : list handled) (w : World) : result World :=
  match es with
  | [] => Ok w
  | e :: rest => w' ← handle e w; handle_all rest w'
  end.

(** The method values [ns.newNameEvent] and [ns.Resolved], as the bus
    holds them. *)
Definition fn_newNameEvent : nat := 0.
Definition fn_Resolved : nat := 1.

(** OnStart implements the Service interface. The two goroutines it starts
    are [processTimesRequests] and [processRequests] above. *)
Definition OnStart (w : World) : result World :=
  eb ← Subscribe NewNameTopic (Func fn_newNameEvent) (ebus w);
  eb ← Subscribe NameResolvedTopic (Func fn_Resolved) eb;
  Ok (set_ebus eb w).

(** [cb.Call(args)] for the two callbacks of the service; [reflect] panics
    on any other argument list. *)
Definition Call (now : Time) (cb : any) (args : list any) (w : World) : result World :=
  match cb, args with
  | Func 0, [PtrDNSRequest req] => newNameEvent req w
  | Func 1, [PtrDNSRequest req] => Resolved now req w
  | _, _ => Panic "reflect: Call with mismatched arguments"
  end.

(** The calls of [executeCallbacks], made on the service. *)
Fixpoint Calls (now : Time) (calls : list (any * list any)) (w : World) : result World :=
  match calls with
  | [] => Ok w
  | (cb, args) :: rest => w' ← Call now cb args w; Calls now rest w'
  end.

(** The dispatch loop takes one publish from the queue of the bus and the
    callbacks of the service are run on it. *)
Definition deliver (now : Time) (w : World) : result World :=
  match core.processRequests_turn 0 (ebus w) with
  | TDispatch eb callbacks args =>
      Calls now (executeCallbacks callbacks args) (set_ebus eb w)
  | TSkip eb => Ok (set_ebus eb w)
  | _ => Ok w
  end.

End service.

(** *** The two name filters *)

(** The filter of a trust class: [true] is the class of the trusted tags. *)
Definition class_filter (tt : bool) (n : NameService) : StringFilter :=
  if tt then trustedNameFilter n else otherNameFilter n.

(** *** Reading the replies of the counter goroutine *)

(** The counts sent in reply to the requests for [s], in the order sent, and
    the number of requests for [s] in a queue. *)
Definition counts_for (s : string) (out : list (timesRequest * Z)) : list Z :=
  map snd (List.filter (fun x => bool_decide (Subdomain x.1 = s)) out).

Definition times_requested (s : string) (q : Queue timesRequest) : nat :=
  length (List.filter (fun r => bool_decide (Subdomain r = s)) q).

(** The entry of the counter map for a subdomain seen [k] times. *)
Definition entry (k : nat) : option Z :=
  match k with
  | O => None
  | S _ => Some (Z.of_nat k)
  end.

(** Three promotions of one subdomain with another one in between. *)
Definition demo_times : Queue timesRequest :=
  [mkTimesRequest "foo.example.com" 0;
   mkTimesRequest "bar.example.com" 1;
   mkTimesRequest "foo.example.com" 2;
   mkTimesRequest "foo.example.com" 3].

(** *** The checks of [checkSubdomain], as predicates *)

(** The candidate subdomain: the name without its first label. *)
Definition candidate (r : DNSRequest.t) : string :=
  gostrings.Join (drop 1 (gostrings.Split (DNSRequest.Name r) ".")) ".".

(** The label-count checks and the check of the second label. *)
Definition passes_checks (r : DNSRequest.t) : Prop :=
  let labels := gostrings.Split (DNSRequest.Name r) "." in
  2 <= length labels /\
  length (gostrings.Split (DNSRequest.Domain r) ".") <= length labels - 1 /\
  nth 1 labels "" ≠ "_tcp" /\ nth 1 labels "" ≠ "_udp" /\ nth 1 labels "" ≠ "_tls".

(** No graph is registered, or the graph does not have the name as a CNAME
    node. *)
Definition alias_free (w : World) (sub domain : string) : Prop :=
  match graph (ns w) with
  | None => True
  | Some g =>
      handlers.IsCNAMENode g (handlers.mkParams (UUID (config (ns w))) sub domain) = false
  end.

(** *** What a step of the service published *)

(** The publish requests that [w'] has at the end of the queue of the bus
    beyond those of [w]. *)
Definition published (w w' : World) : list pubReq :=
  drop (length (queue (ebus w))) (queue (ebus w')).

(** [checkSubdomain] promoted the candidate [sub]: it published, on the
    new-subdomain topic, a new request for [sub] that carries the domain,
    tag and source of [r], together with a count. *)
Definition promoted (r : DNSRequest.t) (sub : string) (w w' : World) : Prop :=
  exists p n,
    published w w' = [mkPubReq NewSubdomainTopic [PtrDNSRequest (Some p); Int n]] /\
    requests w' !! p =
      Some {| DNSRequest.Name := sub;
              DNSRequest.Domain := DNSRequest.Domain r;
              DNSRequest.Records := [];
              DNSRequest.Tag := DNSRequest.Tag r;
              DNSRequest.Source := DNSRequest.Source r |}.

(** *** Worlds used to exercise the properties below *)

Definition demo_config (passive : bool) : Config :=
  mkConfig passive "6ba7b810-9dad-11d1-80b4-00c04fd430c8" (fun _ => true).

Definition demo_request (name domain tag : string) : DNSRequest.t :=
  DNSRequest.mk name domain [] tag "Demo".

(** A fresh service (every name passes the sanity expression) and one
    request object. *)
Definition demo_world (passive : bool) (name domain tag : string) : loc * World :=
  new_request (demo_request name domain tag)
              (NewWorld (demo_config passive) (fun _ => true)).

Definition world_after (r : result World) (w : World) : World :=
  match r with
  | Ok w' => w'
  | Panic _ => w
  end.

(** A fresh service in active mode, with no graph registered, and a resolved
    name under "example.com"; the request is at location 0. *)
Definition demo_resolved (name : string) : World :=
  (demo_world false name "example.com" "dns").2.

(** Two certificate names that differ by case only, each in a request of
    its own (locations 0 and 1). *)
Definition demo_case_variants : World :=
  (new_request (demo_request "a.example.com" "example.com" "cert")
               (demo_world false "A.EXAMPLE.COM" "example.com" "cert").2).2.

(** The example of the specification: "a.example.com" found in a
    certificate (location 0), scraped (1) and found in a certificate again
    (2). *)
Definition demo_spec_example : World :=
  (new_request (demo_request "a.example.com" "example.com" "cert")
     (new_request (demo_request "a.example.com" "example.com" "scrape")
        (demo_world false "a.example.com" "example.com" "cert").2).2).2.

(** A request that is not in normal form yet, as a certificate may carry
    it; it is at location 0. *)
Definition demo_wildcard : World :=
  (demo_world false "*.WWW.Example.COM" "Example.COM" "cert").2.

(** The service is started and the request is published on the new-name
    topic. *)
Definition demo_published : World :=
  bus_Publish NewNameTopic [PtrDNSRequest (Some 0)]
              (world_after (OnStart demo_wildcard) demo_wildcard).

(** Three resolved names under one subdomain, at locations 0, 1 and 2. *)
Definition demo_three_names : World :=
  (new_request (demo_request "ftp.foo.example.com" "example.com" "dns")
     (new_request (demo_request "mail.foo.example.com" "example.com" "dns")
        (demo_resolved "www.foo.example.com")).2).2.

Fixpoint Resolved_all (now : Time) (reqs : list (option loc)) (w : World) : result World :=
  match reqs with
  | [] => Ok w
  | req :: rest => w' ← Resolved now req w; Resolved_all now rest w'
  end.

(** *** Further readings of the state, used by the properties below *)

(** The query [checkSubdomain] makes to the graph for the request [r]. *)
Definition alias_query (w : World) (r : DNSRequest.t) : handlers.DataOptsParams :=
  handlers.mkParams (UUID (config (ns w))) (candidate r) (DNSRequest.Domain r).

(** The count the counter goroutine answers for [sub] when its map is [m]. *)
Definition next_count (m : gmap string Z) (sub : string) : Z :=
  match m !! sub with
  | Some n => wrap_int (n + 1)
  | None => 1%Z
  end.

(** Every pointer in the inbox of the service points to a request. *)
Definition inbox_valid (w : World) : Prop :=
  Forall (fun req => exists l, req = Some l /\ is_Some (requests w !! l))
         (dnsRequests (ns w)).

(** The pointer an event carries points to a request; [newNameEvent] also
    takes the nil pointer. *)
Definition event_valid (w : World) (e : handled) : Prop :=
  match e with
  | HNewName None => True
  | HNewName (Some l) => is_Some (requests w !! l)
  | HResolved _ (Some l) => is_Some (requests w !! l)
  | HResolved _ None => False
  | HRequest _ => True
  end.

(** A graph that has "foo.example.com" as a CNAME node, registered with the
    service of [demo_resolved]. *)
Definition demo_graph : handlers.DataHandler :=
  handlers.mkHandler (fun p => bool_decide (handlers.Name p = "foo.example.com")).

Definition demo_with_graph (name : string) : World :=
  set_ns (RegisterGraph (Some demo_graph) (ns (demo_resolved name))) (demo_resolved name).

(** A passive service and two requests for one name, scraped (location 0)
    and found in a certificate (location 1). *)
Definition demo_passive_pair : World :=
  (new_request (demo_request "x.example.com" "example.com" "cert")
     (demo_world true "x.example.com" "example.com" "scrape").2).2.

End amass.

(** ** Package sources: the web archive connectors *)

(** Functions of the package whose sources are not in the tree. [crawl]
    follows the links of an archive over the network: what it answers to the
    n-th call made is left open ([inl] for the names found, [inr] for an
    error). [cleanName] tidies a name found in a page. The theorems on the
    connectors hold for every choice of the two. *)
Class Crawler := {
  crawl : nat -> string -> string -> string -> string -> list string + string;
  cleanName : string -> string
}.

Module sources.
Import utils core.

(** The three archive connectors of the tree. *)
Inductive archive : Type := ArchiveIt | Arquivo | LoCArchive.

(** [ArchiveIt], [Arquivo] and [LoCArchive] are three struct types with the
    same fields. The first three fields stand for the embedded
    [core.BaseService]: the name [String] answers, the configuration and the
    inbox behind [SendDNSRequest] and [DNSRequestChan]. [kind] tells which of
    the three types the value has. *)
Record Archive := mkArchive {
  kind : archive;
  name : string;
  config : amass.Config;
  dnsRequests : Queue (option loc);
  domain : string;
  baseURL : string;
  SourceType : string;
  filter : StringFilter
}.

Definition set_dnsRequests (q : Queue (option loc)) (a : Archive) : Archive :=
  mkArchive (kind a) (name a) (config a) q (domain a) (baseURL a) (SourceType a) (filter a).
Definition set_filter (f : StringFilter) (a : Archive) : Archive :=
  mkArchive (kind a) (name a) (config a) (dnsRequests a) (domain a) (baseURL a)
            (SourceType a) f.

(** NewArchiveIt, NewArquivo and NewLoCArchive return the object
    initialized, but not yet started. *)
Definition NewArchiveIt (cfg : amass.Config) : Archive :=
  {| kind := ArchiveIt;
     name := "ArchiveIt";
     config := cfg;
     dnsRequests := NewQueue;
     domain := "wayback.archive-it.org";
     baseURL := "https://wayback.archive-it.org/all";
     SourceType := ARCHIVE;
     filter := NewStringFilter |}.

Definition NewArquivo (cfg : amass.Config) : Archive :=
  {| kind := Arquivo;
     name := "Arquivo";
     config := cfg;
     dnsRequests := NewQueue;
     domain := "arquivo.pt";
     baseURL := "http://arquivo.pt/wayback";
     SourceType := ARCHIVE;
     filter := NewStringFilter |}.

Definition NewLoCArchive (cfg : amass.Config) : Archive :=
  {| kind := LoCArchive;
     name := "LoCArchive";
     config := cfg;
     dnsRequests := NewQueue;
     domain := "webarchive.loc.gov";
     baseURL := "http://webarchive.loc.gov/all";
     SourceType := ARCHIVE;
     filter := NewStringFilter |}.

(** Everything a connector reads and writes: the connector, the bus, the
    request objects it reaches by pointer, the calls of [crawl] made so far
    (the name and the domain asked for) and the lines written to the log. *)
Record State := mkState {
  svc : Archive;
  ebus : EventBus;
  requests : gmap loc DNSRequest.t;
  crawled : list (string * string);
  logged : list string
}.

Definition set_svc (a : Archive) (st : State) : State :=
  mkState a (ebus st) (requests st) (crawled st) (logged st).

Definition NewState (a : Archive) : State :=
  {| svc := a; ebus := NewEventBus; requests := ∅; crawled := []; logged := [] |}.

Definition deref (req : option loc) (st : State) : result DNSRequest.t :=
  match req with
  | None => Panic nil_deref
  | Some l =>
      match requests st !! l with
      | Some r => Ok r
      | None => Panic nil_deref
      end
  end.

(** Modelled from the spec: [core.BaseService] is missing.
    [SendDNSRequest] pushes the request into the inbox of the service. *)
Definition SendDNSRequest (req : option loc) (st : State) : State :=
  set_svc (set_dnsRequests (Append (dnsRequests (svc st)) req) (svc st)) st.

Section connectors.
Context `{Crawler}.

(** The body of the [for] loop over the names: a new request object is
    published on the new-name topic. *)
Definition publish_name (domain : string) (st : State) (n : string) : State :=
  let l := fresh (dom (requests st)) in
  let r := {| DNSRequest.Name := cleanName n;
              DNSRequest.Domain := domain;
              DNSRequest.Records := [];
              DNSRequest.Tag := SourceType (svc st);
              DNSRequest.Source := name (svc st) |} in
  mkState (svc st)
          (Publish NewNameTopic [PtrDNSRequest (Some l)] (ebus st))
          (<[l := r]> (requests st))
          (crawled st) (logged st).

(** What follows the guard, in the three connectors alike: the crawl, and
    the log line or the publishes. *)
Definition crawl_and_publish (sn domain : string) (st : State) : State :=
  let a := svc st in
  let answer := crawl (length (crawled st)) (baseURL a) (sources.domain a) sn domain in
  let st := mkState (svc st) (ebus st) (requests st) (crawled st ++ [(sn, domain)])
                    (logged st) in
  match answer with
  | inr err =>
      mkState (svc st) (ebus st) (requests st) (crawled st)
              (logged st ++ [name a +:+ ": " +:+ err])
  | inl names => fold_left (publish_name domain) names st
  end.

(** [executeQuery] of [ArchiveIt] and of [Arquivo]: one condition, whose
    operands are evaluated from the left, so that the filter is not reached
    when the name or the domain is empty. *)
Definition ArchiveIt_executeQuery (sn domain : string) (st : State) : State :=
  if bool_decide (sn = "") then st
  else if bool_decide (domain = "") then st
  else
    let '(dup, f) := Duplicate (filter (svc st)) sn in
    let st := set_svc (set_filter f (svc st)) st in
    if dup then st else crawl_and_publish sn domain st.

(** [executeQuery] of [LoCArchive]: two conditions. *)
Definition LoCArchive_executeQuery (sn domain : string) (st : State) : State :=
  if bool_decide (sn = "") || bool_decide (domain = "") then st
  else
    let '(dup, f) := Duplicate (filter (svc st)) sn in
    let st := set_svc (set_filter f (svc st)) st in
    if dup then st else crawl_and_publish sn domain st.

(** The method [executeQuery] of the connector in [st]. *)
Definition executeQuery (sn domain : string) (st : State) : State :=
  match kind (svc st) with
  | ArchiveIt | Arquivo => ArchiveIt_executeQuery sn domain st
  | LoCArchive => LoCArchive_executeQuery sn domain st
  end.

(** One turn of [processRequests] that takes a request from the inbox (the
    other cases of the select leave the state as it is). *)
Definition processRequests_turn (st : State) : result State :=
  match Next (dnsRequests (svc st)) with
  | None => Ok st
  | Some (req, q) =>
      let st := set_svc (set_dnsRequests q (svc st)) st in
      r ← deref req st;
      if amass.IsDomainInScope (config (svc st)) (DNSRequest.Name r)
      then Ok (executeQuery (DNSRequest.Name r) (DNSRequest.Domain r) st)
      else Ok st
  end.

(** A series of queries, each a name and a domain. *)
Definition executeQueries (qs : list (string * string)) (st : State) : State :=
  fold_left (fun st q => executeQuery q.1 q.2 st) qs st.

End connectors.

(** The requests published from [st] to [st']. *)
Definition published (st st' : State) : list pubReq :=
  drop (length (queue (ebus st))) (queue (ebus st')).

(** The filter of the connector holds the names it crawled, each crawled
    once. *)
Definition crawled_once (st : State) : Prop :=
  NoDup (map fst (crawled st)) /\
  forall s, s ∈ filter (svc st) <-> s ∈ map fst (crawled st).

(** A crawler for the examples: the first call fails, every later call
    finds two names under the name asked for. *)
Definition demo_crawler : Crawler :=
  {| crawl := fun n _ _ sn _ =>
       match n with
       | O => inr "timeout"
       | S _ => inl ["www." +:+ sn; "mail." +:+ sn]
       end;
     cleanName := gostrings.ToLowerASCII |}.

Definition demo_queries : list (string * string) :=
  [("a.example.com", "example.com");
   ("b.example.com", "");
   ("a.example.com", "example.com");
   ("b.example.com", "example.com");
   ("b.example.com", "example.com")].

(** A resolved name in the inbox of a new connector; its request is at
    location 0. *)
Definition demo_inbox (k : amass.Config -> Archive) (name : string) : State :=
  SendDNSRequest (Some 0)
    (mkState (k (amass.demo_config false)) NewEventBus
             (<[0 := amass.demo_request name "example.com" "dns"]> ∅) [] []).

(** An [ArchiveIt] connector after a first query, whose crawl failed. *)
Definition demo_after_failure : State :=
  @executeQuery demo_crawler "a.example.com" "example.com"
     (NewState (NewArchiveIt (amass.demo_config false))).

End sources.

(** * Properties of the event bus *)

Module EventBusSpec.
Import utils core.

Lemma bind_Ok {A B} (m : result A) (f : A -> result B) (b : B) :
  m ≫= f = Ok b -> exists a, m = Ok a /\ f a = Ok b.
Proof. destruct m as [a|msg]; simpl; [eauto | discriminate]. Qed.

(** ** Misuse of the plumbing *)

(** The empty topic is refused before the callback is looked at. *)
Lemma Subscribe_empty_topic (fn : any) (eb : EventBus) :
  Subscribe "" fn eb = Ok eb.
Proof. reflexivity. Qed.

(** A value that has a type, and whose kind is not [Func], is refused. *)
Lemma Subscribe_not_a_function (topic : string) (fn : any) (k : Kind) (eb : EventBus) :
  TypeOf_Kind fn = Ok k -> k ≠ KFunc -> Subscribe topic fn eb = Ok eb.
Proof.
  intros Hk Hne. unfold Subscribe. case_bool_decide; [done|].
  rewrite Hk. simpl. by rewrite bool_decide_eq_true_2.
Qed.

Lemma Publish_empty_topic (args : list any) (eb : EventBus) :
  Publish "" args eb = eb.
Proof. reflexivity. Qed.

(** C7, where the code departs from it: with a topic that is not empty,
    the nil interface as callback makes [Subscribe] panic, since
    [reflect.TypeOf(nil)] is the nil type and [Kind] is called on it. The
    guard was written to refuse what is not a function and misses this
    case; the empty topic, the values of another kind and [Publish] behave
    as the claim says (the three lemmas above). *)
Theorem Subscribe_nil_callback_panics (eb : EventBus) :
  Subscribe NewNameTopic Nil eb = Panic nil_deref.
Proof. reflexivity. Qed.

(** ** Stop *)

Lemma step_closed (a : action) (s s' : Sys) :
  step a s = Ok s' -> ch_closed (done (bus s)) = true ->
  ch_closed (done (bus s')) = true.
Proof.
  intros Hstep Hc. destruct a as [t fn|t fn|t args| | |g]; simpl in Hstep.
  - apply bind_Ok in Hstep as (eb & Hs & [= <-]). unfold Subscribe in Hs.
    case_bool_decide; [by inversion Hs; subst|].
    apply bind_Ok in Hs as (k & _ & Hs). case_bool_decide; by inversion Hs; subst.
  - apply bind_Ok in Hstep as (eb & Hs & [= <-]). unfold Unsubscribe in Hs.
    case_bool_decide; [by inversion Hs; subst|].
    apply bind_Ok in Hs as (k & _ & Hs). case_bool_decide; by inversion Hs; subst.
  - inversion Hstep; subst. simpl. unfold Publish. by case_bool_decide.
  - apply bind_Ok in Hstep as (eb & Hs & _). unfold Stop, close in Hs.
    by rewrite Hc in Hs.
  - inversion Hstep; subst. unfold loop_step, spawn.
    destruct (loop s) as [i|cbs args|]; [|by destruct (Acquire _ _)|done].
    unfold processRequests_turn. unfold recv_ready. rewrite Hc, orb_true_r. done.
  - inversion Hstep; subst. unfold call_step.
    destruct (routines s !! g) as [r|]; [|done].
    destruct (g_callbacks r); [|done]. by destruct (g_released r).
Qed.

Lemma run_closed (sched : list action) (s s' : Sys) :
  run sched s = Ok s' -> ch_closed (done (bus s)) = true ->
  ch_closed (done (bus s')) = true.
Proof.
  revert s. induction sched as [|a sched IH]; intros s Hrun Hc; simpl in Hrun.
  - by inversion Hrun; subst.
  - apply bind_Ok in Hrun as (s1 & Hstep & Hrun). eauto using step_closed.
Qed.

(** C10. On a bus whose done channel is open, [Stop] returns and leaves
    the channel closed; from then on, whatever the callers and goroutines
    do, a turn of the dispatch loop returns from [processRequests], and a
    further [Stop] panics on the closed channel. *)
Theorem Stop_not_idempotent (s : Sys) :
  ch_closed (done (bus s)) = false ->
  exists s1,
    step AStop s = Ok s1 /\
    ch_closed (done (bus s1)) = true /\
    forall sched s2, run sched s1 = Ok s2 ->
      (forall curIdx, processRequests_turn curIdx (bus s2) = TReturn) /\
      (forall curIdx, loop s2 = Running curIdx -> loop (loop_step s2) = Returned) /\
      step AStop s2 = Panic "close of closed channel".
Proof.
  intros Hopen. eexists. split; [|split].
  - simpl. unfold Stop, close. rewrite Hopen. reflexivity.
  - reflexivity.
  - intros sched s2 Hrun. apply run_closed in Hrun; [|reflexivity].
    assert (Hturn : forall i, processRequests_turn i (bus s2) = TReturn).
    { intros i. unfold processRequests_turn, recv_ready.
      by rewrite Hrun, orb_true_r. }
    split; [exact Hturn|]. split.
    + intros i Hl. unfold loop_step. by rewrite Hl, Hturn.
    + simpl. unfold Stop, close. by rewrite Hrun.
Qed.

(** The bus made by [NewEventBus], stopped twice. *)
Lemma Stop_not_idempotent_witness :
  exists s1,
    step AStop NewSys = Ok s1 /\
    ch_closed (done (bus s1)) = true /\
    forall sched s2, run sched s1 = Ok s2 ->
      (forall curIdx, processRequests_turn curIdx (bus s2) = TReturn) /\
      (forall curIdx, loop s2 = Running curIdx -> loop (loop_step s2) = Returned) /\
      step AStop s2 = Panic "close of closed channel".
Proof. apply (Stop_not_idempotent NewSys). reflexivity. Defined.

(** ** Dispatch *)

(** A step of a caller of the bus changes the bus only. *)
Lemma step_cases (a : action) (s s' : Sys) :
  step a s = Ok s' ->
  (exists eb, s' = set_bus eb s) \/ s' = loop_step s \/ exists g, s' = call_step g s.
Proof.
  destruct a as [t fn|t fn|t args| | |g]; simpl; intros Hstep.
  - apply bind_Ok in Hstep as (eb & _ & [= <-]). eauto.
  - apply bind_Ok in Hstep as (eb & _ & [= <-]). eauto.
  - inversion Hstep. eauto.
  - apply bind_Ok in Hstep as (eb & _ & [= <-]). eauto.
  - inversion Hstep. eauto.
  - inversion Hstep. eauto.
Qed.

Lemma pending_started (g : nat) (s : Sys) (r : goroutine) :
  routines s !! g = Some r -> pending g s = tag_calls g (g_callbacks r) (g_args r).
Proof. intros Hr. unfold pending. by rewrite Hr. Qed.

Lemma spawn_keeps (g : nat) (callbacks args : list any) (s : Sys) (full : list (nat * any * list any)) :
  (g < length (routines s) /\ calls_of g s ++ pending g s = full) \/
  (g = length (routines s) /\ calls_of g s ++ tag_calls g callbacks args = full) ->
  allocated g (spawn callbacks args s) /\
  calls_of g (spawn callbacks args s) ++ pending g (spawn callbacks args s) = full.
Proof.
  intros Hg. unfold spawn. destruct (Acquire (max (bus s)) 1) as [m|].
  - destruct Hg as [[Hlt HJ]|[-> HJ]].
    + split; [left; simpl; rewrite length_app; lia|].
      destruct (lookup_lt_is_Some_2 _ _ Hlt) as [r Hr].
      rewrite <- HJ. unfold calls_of, pending. simpl.
      by rewrite (lookup_app_l_Some _ _ _ _ Hr), Hr.
    + split; [left; simpl; rewrite length_app; simpl; lia|].
      rewrite <- HJ. unfold calls_of, pending. simpl.
      by rewrite list_lookup_middle.
  - destruct Hg as [[Hlt HJ]|[-> HJ]].
    + split; [by left|].
      destruct (lookup_lt_is_Some_2 _ _ Hlt) as [r Hr].
      rewrite <- HJ. unfold calls_of, pending. simpl. by rewrite Hr.
    + split; [right; simpl; eauto|].
      rewrite <- HJ. unfold calls_of, pending. simpl.
      rewrite lookup_ge_None_2 by lia. by rewrite bool_decide_eq_true_2.
Qed.

Lemma loop_step_keeps (g : nat) (s : Sys) (full : list (nat * any * list any)) :
  allocated g s ->
  calls_of g s ++ pending g s = full ->
  allocated g (loop_step s) /\ calls_of g (loop_step s) ++ pending g (loop_step s) = full.
Proof.
  intros Hg HJ. unfold loop_step.
  destruct (loop s) as [i|cbs args|] eqn:Hl; [| |done].
  - destruct Hg as [Hlt|[_ (cbs & args & Hacq)]]; [|congruence].
    destruct (lookup_lt_is_Some_2 _ _ Hlt) as [r Hr].
    assert (Hframe : forall eb l,
               calls_of g (set_loop l (set_bus eb s)) ++ pending g (set_loop l (set_bus eb s))
               = full).
    { intros eb l. rewrite <- HJ. unfold calls_of, pending. simpl. by rewrite Hr. }
    destruct (processRequests_turn i (bus s)) as [|j ms|eb|eb cbs args].
    + split; [by left|]. apply (Hframe (bus s)).
    + split; [by left|]. apply (Hframe (bus s)).
    + split; [by left|]. apply Hframe.
    + apply spawn_keeps. left. split; [done|].
      rewrite <- HJ. unfold calls_of, pending. simpl. by rewrite Hr.
  - apply spawn_keeps.
    destruct Hg as [Hlt|[-> _]]; [by left|right]. split; [done|].
    rewrite <- HJ. unfold pending. rewrite lookup_ge_None_2 by lia.
    by rewrite Hl, bool_decide_eq_true_2.
Qed.

Lemma call_step_keeps (g g' : nat) (s : Sys) (full : list (nat * any * list any)) :
  allocated g s ->
  calls_of g s ++ pending g s = full ->
  allocated g (call_step g' s) /\
  calls_of g (call_step g' s) ++ pending g (call_step g' s) = full.
Proof.
  intros Hg HJ. unfold call_step.
  destruct (routines s !! g') as [r'|] eqn:Hr'; [|done].
  assert (Halloc : forall eb r1 c,
             allocated g (mkSys eb (loop s) (<[g' := r1]> (routines s)) c)).
  { intros eb r1 c. unfold allocated. simpl. by rewrite length_insert. }
  destruct (g_callbacks r') as [|cb rest] eqn:Hcbs.
  - destruct (g_released r'); [done|]. split; [apply Halloc|].
    rewrite <- HJ. unfold calls_of, pending. simpl. rewrite length_insert.
    destruct (decide (g = g')) as [->|Hne].
    + rewrite list_lookup_insert_eq by eauto using lookup_lt_Some.
      by rewrite Hr', Hcbs.
    + by rewrite list_lookup_insert_ne.
  - split; [apply Halloc|].
    rewrite <- HJ. unfold calls_of, pending. simpl. rewrite length_insert.
    rewrite filter_app.
    destruct (decide (g = g')) as [->|Hne].
    + rewrite list_lookup_insert_eq by eauto using lookup_lt_Some.
      rewrite Hr', Hcbs. rewrite filter_cons_True by done.
      rewrite filter_nil. simpl. by rewrite <- app_assoc.
    + rewrite list_lookup_insert_ne by done.
      rewrite filter_cons_False by (simpl; congruence).
      by rewrite filter_nil, app_nil_r.
Qed.

Lemma step_keeps (g : nat) (a : action) (s s' : Sys) (full : list (nat * any * list any)) :
  step a s = Ok s' ->
  allocated g s ->
  calls_of g s ++ pending g s = full ->
  allocated g s' /\ calls_of g s' ++ pending g s' = full.
Proof.
  intros Hstep Hg HJ.
  destruct (step_cases _ _ _ Hstep) as [[eb ->]|[->|[g' ->]]].
  - done.
  - by apply loop_step_keeps.
  - by apply call_step_keeps.
Qed.

Lemma run_keeps (g : nat) (sched : list action) (s s' : Sys) (full : list (nat * any * list any)) :
  run sched s = Ok s' ->
  allocated g s ->
  calls_of g s ++ pending g s = full ->
  calls_of g s' ++ pending g s' = full.
Proof.
  revert s. induction sched as [|a sched IH]; intros s Hrun Hg HJ; simpl in Hrun.
  - by inversion Hrun; subst.
  - apply bind_Ok in Hrun as (s1 & Hstep & Hrun).
    destruct (step_keeps _ _ _ _ _ Hstep Hg HJ) as [Hg1 HJ1]. eauto.
Qed.

(** Every call in the trace was made by a goroutine that was started. *)
Lemma step_calls_bounded (a : action) (s s' : Sys) :
  step a s = Ok s' -> calls_bounded s -> calls_bounded s'.
Proof.
  intros Hstep Hb. destruct (step_cases _ _ _ Hstep) as [[eb ->]|[->|[g ->]]].
  - done.
  - unfold loop_step, spawn, calls_bounded in *.
    assert (Hgrow : forall r, Forall (fun c => c.1.1 < length (routines s ++ [r])) (calls s)).
    { intros r. eapply Forall_impl; [exact Hb|]. intros c Hc. rewrite length_app. simpl in *. lia. }
    destruct (loop s) as [i|cbs args|]; [| |done].
    + destruct (processRequests_turn i (bus s)) as [|j ms|eb|eb cbs args]; try done.
      simpl. destruct (Acquire _ _); simpl; [apply Hgrow|done].
    + destruct (Acquire _ _); simpl; [apply Hgrow|done].
  - unfold call_step, calls_bounded in *.
    destruct (routines s !! g) as [r|] eqn:Hr; [|done].
    destruct (g_callbacks r) as [|cb rest].
    + destruct (g_released r); [done|]. simpl. by rewrite length_insert.
    + simpl. rewrite length_insert. apply Forall_app. split; [done|].
      apply Forall_singleton. simpl. eauto using lookup_lt_Some.
Qed.

Lemma run_calls_bounded (sched : list action) (s s' : Sys) :
  run sched s = Ok s' -> calls_bounded s -> calls_bounded s'.
Proof.
  revert s. induction sched as [|a sched IH]; intros s Hrun Hb; simpl in Hrun.
  - by inversion Hrun; subst.
  - apply bind_Ok in Hrun as (s1 & Hstep & Hrun). eauto using step_calls_bounded.
Qed.

Lemma calls_of_next (s : Sys) :
  calls_bounded s -> calls_of (length (routines s)) s = [].
Proof.
  unfold calls_bounded, calls_of. induction (calls s) as [|c l IH]; [done|].
  intros [Hc Hl]%Forall_cons. rewrite filter_cons_False by lia. auto.
Qed.

(** A further [Subscribe] of the same function adds a registration. *)
Lemma Subscribe_registers (topic : string) (f : nat) (eb : EventBus) :
  topic ≠ "" ->
  exists eb', Subscribe topic (Func f) eb = Ok eb' /\
    subscribers eb' topic = subscribers eb topic ++ [Func f].
Proof.
  intros Ht. unfold Subscribe. rewrite bool_decide_eq_false_2 by done. simpl.
  eexists. split; [reflexivity|]. unfold subscribers at 1. simpl.
  by rewrite lookup_insert_eq.
Qed.

Lemma tag_calls_callbacks (g : nat) (callbacks args : list any) :
  map (fun c => c.1.2) (tag_calls g callbacks args) = callbacks.
Proof.
  unfold tag_calls, executeCallbacks. rewrite !map_map. simpl. apply map_id.
Qed.

Lemma tag_calls_elem (g : nat) (callbacks args : list any) (c : nat * any * list any) :
  c ∈ tag_calls g callbacks args -> c.1.2 ∈ callbacks /\ c.2 = args.
Proof.
  unfold tag_calls, executeCallbacks. rewrite map_map. simpl.
  intros (cb & -> & Hcb)%list_elem_of_fmap. done.
Qed.

(** The goroutine of a dispatch, left to run, makes all its calls. *)
Lemma executeCallbacks_completes (g : nat) (callbacks : list any) :
  forall (s : Sys) (r : goroutine),
    routines s !! g = Some r -> g_callbacks r = callbacks ->
    exists s', run (replicate (length callbacks) (ACall g)) s = Ok s' /\ pending g s' = [].
Proof.
  induction callbacks as [|cb rest IH]; intros s r Hr Hcbs; simpl.
  - exists s. split; [done|]. by rewrite (pending_started _ _ _ Hr), Hcbs.
  - unfold call_step. rewrite Hr, Hcbs.
    eapply IH; [simpl; apply list_lookup_insert_eq; eauto using lookup_lt_Some|].
    reflexivity.
Qed.

(** With a free slot in the semaphore, the dispatch starts its goroutine at
    once, and the goroutine, left to run, calls every callback of the
    snapshot. *)
Lemma dispatch_runs_to_completion
    (s : Sys) (curIdx : nat) (p : pubReq) (q : Queue pubReq) (snapshot : list any) :
  loop s = Running curIdx ->
  recv_ready (done (bus s)) = false ->
  queue (bus s) = p :: q ->
  topics (bus s) !! Topic p = Some snapshot ->
  (0 < sem_free (max (bus s)))%N ->
  exists s',
    run (ALoop :: replicate (length snapshot) (ACall (length (routines s)))) s = Ok s' /\
    pending (length (routines s)) s' = [].
Proof.
  intros Hl Hready Hq Hsnap Hfree. simpl.
  unfold loop_step, processRequests_turn. rewrite Hl, Hready, Hq. simpl.
  rewrite Hsnap. unfold spawn, Acquire. simpl.
  destruct (1 <=? sem_free (max (bus s)))%N eqn:Hle; [|apply N.leb_gt in Hle; lia].
  eapply executeCallbacks_completes; [simpl; apply list_lookup_middle; reflexivity|].
  reflexivity.
Qed.

(** A goroutine that was started stays in the list of goroutines. *)
Lemma step_started (g : nat) (a : action) (s s' : Sys) :
  step a s = Ok s' -> g < length (routines s) -> g < length (routines s').
Proof.
  intros Hstep Hg. destruct (step_cases _ _ _ Hstep) as [[eb ->]|[->|[g' ->]]].
  - done.
  - unfold loop_step, spawn. destruct (loop s) as [i|cbs args|]; [| |done].
    + destruct (processRequests_turn i (bus s)) as [|i' ms|eb|eb cbs args]; simpl;
        [done|done|done|].
      destruct (Acquire _ _); simpl; [rewrite length_app; lia|done].
    + destruct (Acquire _ _); simpl; [rewrite length_app; lia|done].
  - unfold call_step. destruct (routines s !! g') as [r|]; [|done].
    destruct (g_callbacks r); simpl; [|by rewrite length_insert].
    destruct (g_released r); simpl; [done|by rewrite length_insert].
Qed.

Lemma run_started (g : nat) (sched : list action) (s s' : Sys) :
  run sched s = Ok s' -> g < length (routines s) -> g < length (routines s').
Proof.
  revert s. induction sched as [|a sched IH]; intros s Hrun Hg; simpl in Hrun.
  - by inversion Hrun; subst.
  - apply bind_Ok in Hrun as (s1 & Hstep & Hrun). eauto using step_started.
Qed.

(** C2. Take a state [s] the bus can reach, in which the dispatch loop is
    about to take the publish [p] from the queue and the topic of [p] has
    the subscriber list [snapshot]. Let [g] be the goroutine the dispatch
    starts. Whatever the callers and the goroutines do afterwards
    ([sched]): the calls made by [g] followed by those it has still to make
    are one call per registration of [snapshot], in order, each with the
    arguments of [p]; once [g] has made all its calls, the callbacks it
    called are exactly [snapshot], so a callback registered twice was called
    twice; and a callback that is not in [snapshot], for one subscribed
    after the dispatch began, is not called by [g]. Subscribing the same
    function twice registers it twice. And the calls are made: when the
    semaphore has a free slot at the dispatch, [g] is started, and from
    whatever state has been reached, [g] left to run for as many steps as it
    has calls to make makes them all, so that every registration of
    [snapshot] has then been called once, with the arguments of [p]. *)
Theorem dispatch_calls_each_registration_once
    (sched0 sched : list action) (s s' : Sys) (curIdx : nat)
    (p : pubReq) (q : Queue pubReq) (snapshot : list any) :
  run sched0 NewSys = Ok s ->
  loop s = Running curIdx ->
  recv_ready (done (bus s)) = false ->
  queue (bus s) = p :: q ->
  topics (bus s) !! Topic p = Some snapshot ->
  run (ALoop :: sched) s = Ok s' ->
  calls_of (length (routines s)) s' ++ pending (length (routines s)) s'
    = tag_calls (length (routines s)) snapshot (Args p) /\
  (pending (length (routines s)) s' = [] ->
     map (fun c => c.1.2) (calls_of (length (routines s)) s') = snapshot /\
     Forall (fun c => c.2 = Args p) (calls_of (length (routines s)) s')) /\
  (forall cb, cb ∉ snapshot ->
     Forall (fun c => c.1.2 ≠ cb) (calls_of (length (routines s)) s')) /\
  (forall topic f eb, topic ≠ "" ->
     exists eb1 eb2,
       Subscribe topic (Func f) eb = Ok eb1 /\
       Subscribe topic (Func f) eb1 = Ok eb2 /\
       subscribers eb2 topic = subscribers eb topic ++ [Func f; Func f]) /\
  ((0 < sem_free (max (bus s)))%N ->
     exists s'',
       run (replicate (length (pending (length (routines s)) s'))
                      (ACall (length (routines s)))) s' = Ok s'' /\
       pending (length (routines s)) s'' = [] /\
       calls_of (length (routines s)) s''
         = tag_calls (length (routines s)) snapshot (Args p) /\
       map (fun c => c.1.2) (calls_of (length (routines s)) s'') = snapshot /\
       Forall (fun c => c.2 = Args p) (calls_of (length (routines s)) s'')).
Proof.
  intros Hreach Hl Hready Hq Hsnap Hrun.
  set (g := length (routines s)).
  assert (Hstep : loop_step s = spawn snapshot (Args p) (set_bus (set_queue q (bus s)) s)).
  { unfold loop_step, processRequests_turn. rewrite Hl, Hready, Hq. simpl.
    by rewrite Hsnap. }
  simpl in Hrun. rewrite Hstep in Hrun.
  destruct (spawn_keeps g snapshot (Args p) (set_bus (set_queue q (bus s)) s)
              (tag_calls g snapshot (Args p))) as [Hg HJ1].
  { right. split; [done|].
    change (calls_of g (set_bus (set_queue q (bus s)) s)) with (calls_of g s).
    unfold g. rewrite calls_of_next; [done|].
    eapply run_calls_bounded; [exact Hreach|]. apply Forall_nil_2. }
  assert (HJ : calls_of g s' ++ pending g s' = tag_calls g snapshot (Args p)).
  { eapply run_keeps; eauto. }
  split; [exact HJ|]. split; [|split; [|split]].
  - intros Hp. rewrite Hp, app_nil_r in HJ. rewrite HJ. split.
    + apply tag_calls_callbacks.
    + apply Forall_forall. intros c Hc. by apply tag_calls_elem in Hc as [_ ?].
  - intros cb Hcb. apply Forall_forall. intros c Hc Heq.
    assert (Hin : c ∈ tag_calls g snapshot (Args p)).
    { rewrite <- HJ. apply elem_of_app. by left. }
    apply tag_calls_elem in Hin as [Hin _]. by subst.
  - intros topic f eb Ht.
    destruct (Subscribe_registers topic f eb Ht) as (eb1 & H1 & E1).
    destruct (Subscribe_registers topic f eb1 Ht) as (eb2 & H2 & E2).
    exists eb1, eb2. split; [done|]. split; [done|].
    by rewrite E2, E1, <- app_assoc.
  - intros Hfree.
    assert (Hstarted : g < length (routines s')).
    { apply (run_started g sched _ s' Hrun). unfold spawn, Acquire. simpl.
      destruct (1 <=? sem_free (max (bus s)))%N eqn:Hle; [|apply N.leb_gt in Hle; lia].
      simpl. rewrite length_app. simpl. unfold g. lia. }
    destruct (lookup_lt_is_Some_2 _ _ Hstarted) as [r Hr].
    rewrite (pending_started g s' r Hr). unfold tag_calls at 1, executeCallbacks at 1.
    rewrite !length_map.
    destruct (executeCallbacks_completes g (g_callbacks r) s' r Hr eq_refl)
      as (s'' & Hmore & Hdone).
    exists s''. split; [exact Hmore|]. split; [exact Hdone|].
    assert (HJ2 : calls_of g s'' ++ pending g s'' = tag_calls g snapshot (Args p)).
    { eapply run_keeps; [exact Hmore|by left|exact HJ]. }
    rewrite Hdone, app_nil_r in HJ2. rewrite HJ2. split; [done|]. split.
    + apply tag_calls_callbacks.
    + apply Forall_forall. intros c Hc. by apply tag_calls_elem in Hc as [_ ?].
Qed.

Lemma dispatch_calls_each_registration_once_witness :
  calls_of (length (routines demo_dispatching)) demo_dispatched
    ++ pending (length (routines demo_dispatching)) demo_dispatched
    = tag_calls (length (routines demo_dispatching)) [Func 0; Func 0] [PtrDNSRequest (Some 0)] /\
  (pending (length (routines demo_dispatching)) demo_dispatched = [] ->
     map (fun c => c.1.2) (calls_of (length (routines demo_dispatching)) demo_dispatched)
       = [Func 0; Func 0] /\
     Forall (fun c => c.2 = [PtrDNSRequest (Some 0)])
       (calls_of (length (routines demo_dispatching)) demo_dispatched)) /\
  (forall cb, cb ∉ [Func 0; Func 0] ->
     Forall (fun c => c.1.2 ≠ cb) (calls_of (length (routines demo_dispatching)) demo_dispatched)) /\
  (forall topic f eb, topic ≠ "" ->
     exists eb1 eb2,
       Subscribe topic (Func f) eb = Ok eb1 /\
       Subscribe topic (Func f) eb1 = Ok eb2 /\
       subscribers eb2 topic = subscribers eb topic ++ [Func f; Func f]) /\
  (exists s'',
     run (replicate (length (pending (length (routines demo_dispatching)) demo_started))
                    (ACall (length (routines demo_dispatching)))) demo_started = Ok s'' /\
     pending (length (routines demo_dispatching)) s'' = [] /\
     map (fun c => c.1.2) (calls_of (length (routines demo_dispatching)) s'')
       = [Func 0; Func 0]).
Proof.
  destruct (dispatch_calls_each_registration_once demo_before demo_after
              demo_dispatching demo_dispatched 0
              (mkPubReq NewNameTopic [PtrDNSRequest (Some 0)]) [] [Func 0; Func 0])
    as (H1 & H2 & H3 & H4 & _);
    [vm_compute; reflexivity|vm_compute; reflexivity|vm_compute; reflexivity
    |vm_compute; reflexivity|vm_compute; reflexivity|vm_compute; reflexivity|].
  split; [exact H1|]. split; [exact H2|]. split; [exact H3|]. split; [exact H4|].
  destruct (dispatch_calls_each_registration_once demo_before
              [ASubscribe NewNameTopic (Func 1)]
              demo_dispatching demo_started 0
              (mkPubReq NewNameTopic [PtrDNSRequest (Some 0)]) [] [Func 0; Func 0])
    as (_ & _ & _ & _ & H5);
    [vm_compute; reflexivity|vm_compute; reflexivity|vm_compute; reflexivity
    |vm_compute; reflexivity|vm_compute; reflexivity|vm_compute; reflexivity|].
  destruct H5 as (s'' & Hrun & Hdone & _ & Hcalls & _); [reflexivity|].
  exists s''. done.
Defined.

(** In that run the late subscriber is registered, and was not called. *)
Example demo_dispatched_calls :
  calls demo_dispatched
    = [(0, Func 0, [PtrDNSRequest (Some 0)]); (0, Func 0, [PtrDNSRequest (Some 0)])] /\
  pending 0 demo_dispatched = [] /\
  subscribers (bus demo_dispatched) NewNameTopic = [Func 0; Func 0; Func 1].
Proof. vm_compute. done. Qed.

End EventBusSpec.

(** * Properties of the name service *)

Module NameServiceSpec.
Import utils core amass.
Import EventBusSpec.

(** ** Publishing *)

Lemma published_bus_Publish (topic : string) (args : list any) (w w1 : World) :
  ebus w1 = ebus w -> topic ≠ "" ->
  published w (bus_Publish topic args w1) = [mkPubReq topic args] /\
  queue (ebus (bus_Publish topic args w1)) = queue (ebus w) ++ [mkPubReq topic args].
Proof.
  intros Hb Ht. unfold published, bus_Publish, Publish. simpl.
  rewrite bool_decide_eq_false_2 by done. simpl. rewrite Hb.
  unfold Append, ValueOf. rewrite map_id. split; [|done].
  by rewrite drop_app_length.
Qed.

Lemma published_same (w w1 : World) :
  ebus w1 = ebus w -> published w w1 = [].
Proof. intros Hb. unfold published. rewrite Hb. apply drop_all. Qed.

(** ** performRequest *)

(** What [performRequest] does in passive mode, in one equation. *)
Lemma performRequest_passive (now : Time) (l : loc) (r : DNSRequest.t) (w : World) :
  Passive (config (ns w)) = true ->
  requests w !! l = Some r ->
  performRequest now (Some l) w =
    let w1 := (filter_Duplicate (DNSRequest.Name r) (SetActive now w)).2 in
    if negb (bool_decide (DNSRequest.Name r ∈ filter (ns w)))
       && sanityRE (ns w) (DNSRequest.Name r)
    then
      let o := new_output {| Output.Timestamp := zeroTime;
                             Output.Name := DNSRequest.Name r;
                             Output.Domain := DNSRequest.Domain r;
                             Output.Addresses := [];
                             Output.Tag := DNSRequest.Tag r;
                             Output.Source := DNSRequest.Source r |} w1 in
      Ok (bus_Publish OutputTopic [PtrOutput (Some o.1)] o.2)
    else Ok w1.
Proof.
  intros Hp Hr. unfold performRequest. simpl. rewrite Hp. simpl. rewrite Hr. simpl.
  reflexivity.
Qed.

Lemma new_output_lookup (o : Output.t) (w : World) :
  outputs (new_output o w).2 !! (new_output o w).1 = Some o /\
  ebus (new_output o w).2 = ebus w.
Proof. unfold new_output. simpl. split; [apply lookup_insert_eq|done]. Qed.

(** C5. [performRequest] on a request the service accepted. In passive
    mode it publishes nothing on the resolve topic, and when the name
    matches the sanity expression and is new to the output filter it
    publishes exactly one request, on the output topic, carrying one Output
    record. In the other mode it publishes the request itself on the resolve
    topic and nothing else, and the service differs from what it was only by
    the time stamp of [SetActive]. *)
Theorem performRequest_by_mode (now : Time) (l : loc) (r : DNSRequest.t) (w : World) :
  requests w !! l = Some r ->
  (Passive (config (ns w)) = true ->
     exists w', performRequest now (Some l) w = Ok w' /\
       queue (ebus w') = queue (ebus w) ++ published w w' /\
       Forall (fun p => Topic p ≠ ResolveNameTopic) (published w w') /\
       (sanityRE (ns w) (DNSRequest.Name r) = true ->
        DNSRequest.Name r ∉ filter (ns w) ->
        exists o o_rec,
          published w w' = [mkPubReq OutputTopic [PtrOutput (Some o)]] /\
          outputs w' !! o = Some o_rec /\
          Output.Name o_rec = DNSRequest.Name r)) /\
  (Passive (config (ns w)) = false ->
     exists w', performRequest now (Some l) w = Ok w' /\
       published w w' = [mkPubReq ResolveNameTopic [PtrDNSRequest (Some l)]] /\
       queue (ebus w') = queue (ebus w) ++ published w w' /\
       Forall (fun p => Topic p ≠ OutputTopic) (published w w') /\
       ns w' = set_active now (ns w) /\
       requests w' = requests w /\ outputs w' = outputs w /\
       counter w' = counter w /\ sent w' = sent w /\ queries w' = queries w).
Proof.
  intros Hr. split; intros Hp.
  - rewrite (performRequest_passive now l r w Hp Hr). cbv zeta.
    destruct (bool_decide (DNSRequest.Name r ∈ filter (ns w))) eqn:Hdup; simpl.
    + eexists. split; [reflexivity|]. rewrite published_same by done.
      split; [by rewrite app_nil_r|]. split; [done|].
      intros _ Hnew. by apply bool_decide_eq_true_1 in Hdup.
    + destruct (sanityRE (ns w) (DNSRequest.Name r)) eqn:Hre.
      * eexists. split; [reflexivity|].
        edestruct (published_bus_Publish OutputTopic) as [Hpub Hq];
          [| |rewrite Hpub, Hq]; [reflexivity|done|].
        split; [done|]. split; [by apply Forall_singleton|].
        intros _ _. eexists _, _. split; [reflexivity|].
        split; [apply lookup_insert_eq|reflexivity].
      * eexists. split; [reflexivity|]. rewrite published_same by done.
        split; [by rewrite app_nil_r|]. split; [done|]. done.
  - unfold performRequest. simpl. rewrite Hp. eexists. split; [reflexivity|].
    edestruct (published_bus_Publish ResolveNameTopic) as [Hpub Hq];
      [| |rewrite Hpub, Hq]; [reflexivity|done|].
    split; [done|]. split; [done|]. split; [by apply Forall_singleton|]. done.
Qed.

(** C9. Whatever [performRequest] publishes on the output topic is one
    pointer to an Output record whose Name, Domain, Tag and Source are those
    of the request, whose Timestamp is the zero time and whose Addresses are
    empty. *)
Theorem Output_carries_request_fields
    (now : Time) (req : option loc) (w w' : World) (p : pubReq) :
  performRequest now req w = Ok w' ->
  p ∈ published w w' ->
  Topic p = OutputTopic ->
  exists o r,
    deref req w = Ok r /\
    Args p = [PtrOutput (Some o)] /\
    outputs w' !! o =
      Some {| Output.Timestamp := zeroTime;
              Output.Name := DNSRequest.Name r;
              Output.Domain := DNSRequest.Domain r;
              Output.Addresses := [];
              Output.Tag := DNSRequest.Tag r;
              Output.Source := DNSRequest.Source r |}.
Proof.
  intros Hrun Hin Htopic.
  destruct (Passive (config (ns w))) eqn:Hp.
  - destruct req as [l|]; [|unfold performRequest in Hrun; simpl in Hrun;
                             by rewrite Hp in Hrun].
    destruct (requests w !! l) as [r|] eqn:Hr;
      [|unfold performRequest, deref in Hrun; simpl in Hrun;
        by rewrite Hp, Hr in Hrun].
    rewrite (performRequest_passive now l r w Hp Hr) in Hrun. cbv zeta in Hrun.
    destruct (negb _ && _) eqn:Hc; inversion Hrun; subst; clear Hrun.
    + edestruct (published_bus_Publish OutputTopic) as [Hpub _];
        [| |rewrite Hpub in Hin]; [reflexivity|done|].
      apply list_elem_of_singleton in Hin as ->.
      eexists _, r. split; [unfold deref; by rewrite Hr|]. split; [reflexivity|].
      apply lookup_insert_eq.
    + rewrite published_same in Hin by done. by apply elem_of_nil in Hin.
  - unfold performRequest in Hrun. simpl in Hrun. rewrite Hp in Hrun.
    inversion Hrun; subst; clear Hrun.
    edestruct (published_bus_Publish ResolveNameTopic) as [Hpub _];
      [| |rewrite Hpub in Hin]; [reflexivity|done|].
    apply list_elem_of_singleton in Hin as ->. discriminate.
Qed.

(** A scraped name handled by a fresh service, in passive mode and in the
    other mode. *)
Lemma performRequest_by_mode_witness :
  (exists w' o o_rec,
     performRequest zeroTime (Some (demo_world true "x.example.com" "example.com" "scrape").1)
                    (demo_world true "x.example.com" "example.com" "scrape").2 = Ok w' /\
     published (demo_world true "x.example.com" "example.com" "scrape").2 w'
       = [mkPubReq OutputTopic [PtrOutput (Some o)]] /\
     outputs w' !! o = Some o_rec /\
     Output.Name o_rec = "x.example.com") /\
  (exists w',
     performRequest zeroTime (Some (demo_world false "x.example.com" "example.com" "scrape").1)
                    (demo_world false "x.example.com" "example.com" "scrape").2 = Ok w' /\
     published (demo_world false "x.example.com" "example.com" "scrape").2 w'
       = [mkPubReq ResolveNameTopic [PtrDNSRequest (Some 0)]]).
Proof.
  split.
  - destruct (performRequest_by_mode zeroTime
                (demo_world true "x.example.com" "example.com" "scrape").1
                (demo_request "x.example.com" "example.com" "scrape")
                (demo_world true "x.example.com" "example.com" "scrape").2)
      as [Hpassive _]; [vm_compute; reflexivity|].
    destruct Hpassive as (w' & Hrun & _ & _ & Hout); [reflexivity|].
    destruct Hout as (o & o_rec & Hpub & Ho & Hname);
      [reflexivity|apply not_elem_of_empty|].
    exists w', o, o_rec. done.
  - destruct (performRequest_by_mode zeroTime
                (demo_world false "x.example.com" "example.com" "scrape").1
                (demo_request "x.example.com" "example.com" "scrape")
                (demo_world false "x.example.com" "example.com" "scrape").2)
      as [_ Hactive]; [vm_compute; reflexivity|].
    destruct Hactive as (w' & Hrun & Hpub & _); [reflexivity|].
    exists w'. done.
Defined.

Lemma Output_carries_request_fields_witness :
  exists o r,
    deref (Some 0) (demo_world true "x.example.com" "example.com" "scrape").2 = Ok r /\
    Args (mkPubReq OutputTopic [PtrOutput (Some 0)]) = [PtrOutput (Some o)] /\
    outputs (world_after
               (performRequest zeroTime (Some 0)
                  (demo_world true "x.example.com" "example.com" "scrape").2)
               (demo_world true "x.example.com" "example.com" "scrape").2) !! o =
      Some {| Output.Timestamp := zeroTime;
              Output.Name := DNSRequest.Name r;
              Output.Domain := DNSRequest.Domain r;
              Output.Addresses := [];
              Output.Tag := DNSRequest.Tag r;
              Output.Source := DNSRequest.Source r |}.
Proof.
  apply (Output_carries_request_fields zeroTime (Some 0)
           (demo_world true "x.example.com" "example.com" "scrape").2
           (world_after
              (performRequest zeroTime (Some 0)
                 (demo_world true "x.example.com" "example.com" "scrape").2)
              (demo_world true "x.example.com" "example.com" "scrape").2)
           (mkPubReq OutputTopic [PtrOutput (Some 0)])).
  - vm_compute. reflexivity.
  - vm_compute. left.
  - reflexivity.
Defined.

(** ** checkSubdomain *)

Lemma timesForSubdomain_frame (sub : string) (w : World) :
  ebus (timesForSubdomain sub w).2 = ebus w /\
  requests (timesForSubdomain sub w).2 = requests w /\
  outputs (timesForSubdomain sub w).2 = outputs w /\
  queries (timesForSubdomain sub w).2 = queries w.
Proof.
  unfold timesForSubdomain.
  destruct (processTimesRequests _ _ _) as [[st q] out]. done.
Qed.

(** A request that passes the checks, with a candidate that is not an
    alias, is promoted: one publish on the new-subdomain topic, carrying a
    new request for the candidate and a count. The graph is queried only
    when one is registered. *)
Lemma checkSubdomain_promotes (l : loc) (r : DNSRequest.t) (w : World) :
  requests w !! l = Some r ->
  passes_checks r ->
  alias_free w (candidate r) (DNSRequest.Domain r) ->
  exists w' p n,
    checkSubdomain (Some l) w = Ok w' /\
    published w w' = [mkPubReq NewSubdomainTopic [PtrDNSRequest (Some p); Int n]] /\
    requests w' !! p =
      Some {| DNSRequest.Name := candidate r;
              DNSRequest.Domain := DNSRequest.Domain r;
              DNSRequest.Records := [];
              DNSRequest.Tag := DNSRequest.Tag r;
              DNSRequest.Source := DNSRequest.Source r |} /\
    (graph (ns w) = None -> queries w' = queries w).
Proof.
  intros Hr (Hnum & Hdom & Htcp & Hudp & Htls) Halias.
  unfold checkSubdomain. simpl. rewrite Hr. simpl.
  rewrite (proj2 (Nat.ltb_ge _ _) Hnum), (proj2 (Nat.ltb_ge _ _) Hdom).
  rewrite !bool_decide_eq_false_2 by done. simpl.
  fold (candidate r). unfold alias_free in Halias.
  set (fresh_req := {| DNSRequest.Name := candidate r;
                       DNSRequest.Domain := DNSRequest.Domain r;
                       DNSRequest.Records := [];
                       DNSRequest.Tag := DNSRequest.Tag r;
                       DNSRequest.Source := DNSRequest.Source r |}).
  assert (Hgen : forall w1, ebus w1 = ebus w -> requests w1 = requests w ->
            (graph (ns w) = None -> queries w1 = queries w) ->
            exists w' p n,
              (let '(p, w2) := new_request fresh_req w1 in
               let '(n, w3) := timesForSubdomain (candidate r) w2 in
               Ok (bus_Publish NewSubdomainTopic [PtrDNSRequest (Some p); Int n] w3))
                = Ok w' /\
              published w w' = [mkPubReq NewSubdomainTopic [PtrDNSRequest (Some p); Int n]] /\
              requests w' !! p = Some fresh_req /\
              (graph (ns w) = None -> queries w' = queries w)).
  { intros w1 Hb Hreq Hqs. unfold new_request.
    set (w2 := set_requests _ w1).
    destruct (timesForSubdomain_frame (candidate r) w2) as (Fb & Fr & _ & Fq).
    destruct (timesForSubdomain (candidate r) w2) as [n w3]. simpl in *.
    eexists _, _, n. split; [reflexivity|].
    edestruct (published_bus_Publish NewSubdomainTopic) as [Hpub _];
      [| |rewrite Hpub]; [by rewrite Fb|done|].
    split; [done|]. split.
    - simpl. rewrite Fr. apply lookup_insert_eq.
    - intros Hg. simpl. rewrite Fq. auto. }
  destruct (graph (ns w)) as [g|].
  - rewrite Halias. apply Hgen; [done|done|discriminate].
  - apply Hgen; done.
Qed.

(** A request that fails one of the checks is left alone. *)
Lemma checkSubdomain_rejects (l : loc) (r : DNSRequest.t) (w : World) :
  requests w !! l = Some r ->
  ~ passes_checks r ->
  checkSubdomain (Some l) w = Ok w.
Proof.
  intros Hr Hno. unfold checkSubdomain. simpl. rewrite Hr. simpl.
  destruct (_ <? 2) eqn:H1; [done|].
  destruct (_ - 1 <? _) eqn:H2; [done|].
  destruct (bool_decide _ || bool_decide _ || bool_decide _) eqn:H3; [done|].
  exfalso. apply Hno. apply Nat.ltb_ge in H1, H2.
  apply orb_false_elim in H3 as [H3 Htls]. apply orb_false_elim in H3 as [Htcp Hudp].
  apply bool_decide_eq_false_1 in Htcp, Hudp, Htls. done.
Qed.

Lemma checkSubdomain_promoted (l : loc) (r : DNSRequest.t) (w : World) (sub : string) :
  requests w !! l = Some r ->
  passes_checks r ->
  candidate r = sub ->
  alias_free w sub (DNSRequest.Domain r) ->
  exists w', checkSubdomain (Some l) w = Ok w' /\ promoted r sub w w' /\
    (graph (ns w) = None -> queries w' = queries w).
Proof.
  intros Hr Hc <- Ha.
  destruct (checkSubdomain_promotes l r w Hr Hc Ha) as (w' & p & n & Hrun & Hpub & Hp & Hq).
  exists w'. split; [done|]. split; [|done]. by exists p, n.
Qed.

(** C1, as the code has it. The candidate of a resolved name is promoted
    when the name passes the label checks and the graph does not have the
    candidate as a CNAME node. With root domain "example.com": the resolved
    name "www.foo.example.com" has the candidate "foo.example.com", which is
    promoted in this way; the second label of "_tcp.example.com" is
    "example", so its candidate "example.com" is promoted in the same way;
    "_sip._tcp.example.com" is not promoted; and with the name "a.b" nothing
    is promoted. Whatever the domain: a name whose second label is "_tcp",
    "_udp" or "_tls" is not promoted, and neither is a name with fewer than
    two labels, or with fewer labels after the first than the domain has:
    [checkSubdomain] then leaves everything as it is. *)
Theorem checkSubdomain_examples (l : loc) (r : DNSRequest.t) (w : World) :
  requests w !! l = Some r ->
  (DNSRequest.Domain r = "example.com" ->
   (DNSRequest.Name r = "www.foo.example.com" ->
    alias_free w "foo.example.com" "example.com" ->
    exists w', checkSubdomain (Some l) w = Ok w' /\ promoted r "foo.example.com" w w') /\
   (DNSRequest.Name r = "_tcp.example.com" ->
    alias_free w "example.com" "example.com" ->
    exists w', checkSubdomain (Some l) w = Ok w' /\ promoted r "example.com" w w') /\
   (DNSRequest.Name r = "_sip._tcp.example.com" -> checkSubdomain (Some l) w = Ok w) /\
   (DNSRequest.Name r = "a.b" -> checkSubdomain (Some l) w = Ok w)) /\
  (nth 1 (gostrings.Split (DNSRequest.Name r) ".") "" ∈ ["_tcp"; "_udp"; "_tls"] ->
   checkSubdomain (Some l) w = Ok w) /\
  (length (gostrings.Split (DNSRequest.Name r) ".") < 2 \/
   length (gostrings.Split (DNSRequest.Name r) ".") - 1
     < length (gostrings.Split (DNSRequest.Domain r) ".") ->
   checkSubdomain (Some l) w = Ok w) /\
  (passes_checks r ->
   alias_free w (candidate r) (DNSRequest.Domain r) ->
   exists w', checkSubdomain (Some l) w = Ok w' /\ promoted r (candidate r) w w').
Proof.
  intros Hr. split; [|split; [|split]].
  - intros Hd. repeat split.
    + intros Hn Ha.
      destruct (checkSubdomain_promoted l r w "foo.example.com" Hr) as (w' & ? & ? & _);
        [| |by rewrite Hd|by eauto].
      * unfold passes_checks. rewrite Hn, Hd. vm_compute.
        repeat split; (lia || discriminate).
      * unfold candidate. by rewrite Hn.
    + intros Hn Ha.
      destruct (checkSubdomain_promoted l r w "example.com" Hr) as (w' & ? & ? & _);
        [| |by rewrite Hd|by eauto].
      * unfold passes_checks. rewrite Hn, Hd. vm_compute.
        repeat split; (lia || discriminate).
      * unfold candidate. by rewrite Hn.
    + intros Hn. apply (checkSubdomain_rejects l r w Hr).
      unfold passes_checks. rewrite Hn, Hd. vm_compute. intros (_ & _ & Htcp & _). done.
    + intros Hn. apply (checkSubdomain_rejects l r w Hr).
      unfold passes_checks. rewrite Hn, Hd. vm_compute. intros (_ & Hlen & _). lia.
  - intros Hsvc. apply (checkSubdomain_rejects l r w Hr).
    intros (_ & _ & Htcp & Hudp & Htls).
    apply elem_of_cons in Hsvc as [Hsvc|Hsvc]; [done|].
    apply elem_of_cons in Hsvc as [Hsvc|Hsvc]; [done|].
    apply elem_of_cons in Hsvc as [Hsvc|Hsvc]; [done|].
    by apply elem_of_nil in Hsvc.
  - intros Hshort. apply (checkSubdomain_rejects l r w Hr).
    intros (Hnum & Hdom & _). lia.
  - intros Hc Ha.
    destruct (checkSubdomain_promoted l r w (candidate r) Hr Hc eq_refl Ha)
      as (w' & Hrun & Hp & _).
    eauto.
Qed.

Lemma checkSubdomain_examples_witness :
  (exists w', checkSubdomain (Some 0) (demo_resolved "www.foo.example.com") = Ok w' /\
     promoted (demo_request "www.foo.example.com" "example.com" "dns") "foo.example.com"
              (demo_resolved "www.foo.example.com") w') /\
  (exists w', checkSubdomain (Some 0) (demo_resolved "_tcp.example.com") = Ok w' /\
     promoted (demo_request "_tcp.example.com" "example.com" "dns") "example.com"
              (demo_resolved "_tcp.example.com") w') /\
  checkSubdomain (Some 0) (demo_resolved "_sip._tcp.example.com")
    = Ok (demo_resolved "_sip._tcp.example.com") /\
  checkSubdomain (Some 0) (demo_resolved "a.b") = Ok (demo_resolved "a.b") /\
  checkSubdomain (Some 0) (demo_resolved "_sip._udp.example.com")
    = Ok (demo_resolved "_sip._udp.example.com") /\
  checkSubdomain (Some 0) (demo_resolved "_dane._tls.example.com")
    = Ok (demo_resolved "_dane._tls.example.com") /\
  checkSubdomain (Some 0) (demo_resolved "example.com") = Ok (demo_resolved "example.com").
Proof.
  split; [|split; [|split; [|split; [|split; [|split]]]]].
  - destruct (checkSubdomain_examples 0
                (demo_request "www.foo.example.com" "example.com" "dns")
                (demo_resolved "www.foo.example.com")) as (Hex & _);
      [vm_compute; reflexivity|].
    destruct Hex as (H1 & _); [reflexivity|].
    apply H1; [reflexivity|exact I].
  - destruct (checkSubdomain_examples 0
                (demo_request "_tcp.example.com" "example.com" "dns")
                (demo_resolved "_tcp.example.com")) as (Hex & _);
      [vm_compute; reflexivity|].
    destruct Hex as (_ & H2 & _); [reflexivity|].
    apply H2; [reflexivity|exact I].
  - destruct (checkSubdomain_examples 0
                (demo_request "_sip._tcp.example.com" "example.com" "dns")
                (demo_resolved "_sip._tcp.example.com")) as (Hex & _);
      [vm_compute; reflexivity|].
    destruct Hex as (_ & _ & H3 & _); [reflexivity|].
    apply H3. reflexivity.
  - destruct (checkSubdomain_examples 0
                (demo_request "a.b" "example.com" "dns")
                (demo_resolved "a.b")) as (Hex & _);
      [vm_compute; reflexivity|].
    destruct Hex as (_ & _ & _ & H4); [reflexivity|].
    apply H4. reflexivity.
  - destruct (checkSubdomain_examples 0
                (demo_request "_sip._udp.example.com" "example.com" "dns")
                (demo_resolved "_sip._udp.example.com")) as (_ & Hsvc & _);
      [vm_compute; reflexivity|].
    apply Hsvc. vm_compute. apply list_elem_of_further, list_elem_of_here.
  - destruct (checkSubdomain_examples 0
                (demo_request "_dane._tls.example.com" "example.com" "dns")
                (demo_resolved "_dane._tls.example.com")) as (_ & Hsvc & _);
      [vm_compute; reflexivity|].
    apply Hsvc. vm_compute.
    apply list_elem_of_further, list_elem_of_further, list_elem_of_here.
  - destruct (checkSubdomain_examples 0
                (demo_request "example.com" "example.com" "dns")
                (demo_resolved "example.com")) as (_ & _ & Hshort & _);
      [vm_compute; reflexivity|].
    apply Hshort. right. vm_compute. lia.
Defined.

(** Against C1 as stated: for the name "_tcp.example.com" with root domain
    "example.com" the service does promote a subdomain, "example.com". *)
Lemma checkSubdomain_tcp_name_is_promoted :
  exists w',
    checkSubdomain (Some 0) (demo_resolved "_tcp.example.com") = Ok w' /\
    published (demo_resolved "_tcp.example.com") w'
      = [mkPubReq NewSubdomainTopic [PtrDNSRequest (Some 1); Int 1]] /\
    DNSRequest.Name <$> requests w' !! 1 = Some "example.com" /\
    published (demo_resolved "_tcp.example.com") w' ≠ [].
Proof.
  exists (world_after (checkSubdomain (Some 0) (demo_resolved "_tcp.example.com"))
                      (demo_resolved "_tcp.example.com")).
  vm_compute. repeat split; discriminate.
Qed.

(** C8. With no graph registered, a request that passes the label-count
    checks and the check of the second label is promoted, by
    [checkSubdomain] and so by [Resolved] for a name in scope, and no query
    is made to a graph. *)
Theorem no_graph_promotes_without_query
    (now : Time) (l : loc) (r : DNSRequest.t) (w : World) :
  graph (ns w) = None ->
  requests w !! l = Some r ->
  passes_checks r ->
  (exists w', checkSubdomain (Some l) w = Ok w' /\
     promoted r (candidate r) w w' /\ queries w' = queries w) /\
  (IsDomainInScope (config (ns w)) (DNSRequest.Name r) = true ->
   exists w', Resolved now (Some l) w = Ok w' /\
     promoted r (candidate r) w w' /\ queries w' = queries w).
Proof.
  intros Hg Hr Hc. split.
  - destruct (checkSubdomain_promoted l r w (candidate r) Hr Hc eq_refl)
      as (w' & Hrun & Hp & Hq).
    { unfold alias_free. by rewrite Hg. }
    exists w'. auto.
  - intros Hscope. unfold Resolved. simpl. rewrite Hr. simpl. rewrite Hscope.
    destruct (checkSubdomain_promoted l r (SetActive now w) (candidate r) Hr Hc eq_refl)
      as (w' & Hrun & Hp & Hq).
    { unfold alias_free. simpl. by rewrite Hg. }
    exists w'. split; [done|]. split; [exact Hp|]. by apply Hq.
Qed.

Lemma no_graph_promotes_without_query_witness :
  (exists w', checkSubdomain (Some 0) (demo_resolved "www.foo.example.com") = Ok w' /\
     promoted (demo_request "www.foo.example.com" "example.com" "dns")
              (candidate (demo_request "www.foo.example.com" "example.com" "dns"))
              (demo_resolved "www.foo.example.com") w' /\
     queries w' = queries (demo_resolved "www.foo.example.com")) /\
  (exists w', Resolved zeroTime (Some 0) (demo_resolved "www.foo.example.com") = Ok w' /\
     promoted (demo_request "www.foo.example.com" "example.com" "dns")
              (candidate (demo_request "www.foo.example.com" "example.com" "dns"))
              (demo_resolved "www.foo.example.com") w' /\
     queries w' = queries (demo_resolved "www.foo.example.com")).
Proof.
  destruct (no_graph_promotes_without_query zeroTime 0
              (demo_request "www.foo.example.com" "example.com" "dns")
              (demo_resolved "www.foo.example.com")) as [Hcheck Hresolved].
  - reflexivity.
  - vm_compute. reflexivity.
  - vm_compute. repeat split; (lia || discriminate).
  - split; [exact Hcheck|]. apply Hresolved. reflexivity.
Defined.

(** ** The observation counters *)

Lemma wrap_int_small (z : Z) :
  (int_min <= z <= int_max)%Z -> wrap_int z = z.
Proof.
  unfold wrap_int, int_min, int_max. intros Hz.
  rewrite Z.mod_small; lia.
Qed.

Lemma processTimesRequests_empty (fuel : nat) (st : timesLoop) :
  (processTimesRequests fuel st []).2 = [].
Proof.
  revert st. induction fuel as [|fuel IH]; intros st; [done|]. simpl. apply IH.
Qed.

Lemma processTimesRequests_cons (fuel : nat) (st : timesLoop)
    (req : timesRequest) (q : Queue timesRequest) :
  (processTimesRequests (S fuel) st (req :: q)).2 =
    let n := match subdomains st !! Subdomain req with
             | Some n => wrap_int (n + 1)
             | None => 1%Z
             end in
    (req, n) ::
      (processTimesRequests fuel (mkTimesLoop 0 (<[Subdomain req := n]> (subdomains st))) q).2.
Proof.
  simpl. by destruct (processTimesRequests fuel _ q) as [[st' q'] out].
Qed.

(** The counts for [s] continue from the entry of [s] in the map. *)
Lemma counts_continue (s : string) (reqs : Queue timesRequest) :
  forall (fuel : nat) (st : timesLoop) (k : nat),
    length reqs <= fuel ->
    subdomains st !! s = entry k ->
    (Z.of_nat (k + times_requested s reqs) <= int_max)%Z ->
    counts_for s (processTimesRequests fuel st reqs).2
      = map Z.of_nat (seq (S k) (times_requested s reqs)).
Proof.
  induction reqs as [|req q IH]; intros fuel st k Hfuel Hk Hmax.
  - by rewrite processTimesRequests_empty.
  - destruct fuel as [|fuel]; [simpl in Hfuel; lia|].
    rewrite processTimesRequests_cons. cbv zeta.
    unfold counts_for, times_requested in *. simpl in *.
    destruct (decide (Subdomain req = s)) as [Heq|Hne].
    + rewrite bool_decide_eq_true_2 in * by done. simpl in *.
      rewrite Heq, Hk.
      assert (Hn : match entry k with
                   | Some n => wrap_int (n + 1)
                   | None => 1%Z
                   end = Z.of_nat (S k)).
      { destruct k as [|k]; [done|]. simpl entry. cbv iota.
        rewrite wrap_int_small; unfold int_min, int_max in *; lia. }
      rewrite Hn. f_equal.
      apply (IH fuel _ (S k)); [lia|simpl; apply lookup_insert_eq|].
      unfold int_max in *. lia.
    + rewrite bool_decide_eq_false_2 in * by done. simpl in *.
      apply (IH fuel _ k); [lia| |done].
      simpl. by rewrite lookup_insert_ne.
Qed.

(** With no other promotion in flight, [timesForSubdomain] answers the next
    count of the subdomain and leaves the queue empty. *)
Lemma timesForSubdomain_idle (sub : string) (w : World) :
  times (ns w) = [] ->
  (timesForSubdomain sub w).1 =
    match subdomains (counter w) !! sub with
    | Some n => wrap_int (n + 1)
    | None => 1%Z
    end /\
  times (ns (timesForSubdomain sub w).2) = [] /\
  subdomains (counter (timesForSubdomain sub w).2)
    = <[sub := (timesForSubdomain sub w).1]> (subdomains (counter w)).
Proof.
  intros Hq. unfold timesForSubdomain. rewrite Hq. simpl.
  by destruct (subdomains (counter w) !! sub).
Qed.

(** C4. The goroutine of [processTimesRequests] starts with an empty map.
    Given turns enough to serve the queue, the counts it sends in reply to
    the requests for a subdomain [s] are 1, 2, ..., N in this order, N being
    the number of requests for [s], whatever requests for other subdomains
    are in the queue. Go's [int] has 64 bits: N is taken within its range. *)
Theorem counter_counts_in_order
    (s : string) (reqs : Queue timesRequest) (fuel curIdx : nat) :
  length reqs <= fuel ->
  (Z.of_nat (times_requested s reqs) <= int_max)%Z ->
  counts_for s (processTimesRequests fuel (mkTimesLoop curIdx ∅) reqs).2
    = map Z.of_nat (seq 1 (times_requested s reqs)).
Proof.
  intros Hfuel Hmax. by apply (counts_continue s reqs fuel _ 0).
Qed.

Lemma counter_counts_in_order_witness :
  counts_for "foo.example.com"
    (processTimesRequests 4 (mkTimesLoop 0 ∅) demo_times).2
    = map Z.of_nat (seq 1 (times_requested "foo.example.com" demo_times)).
Proof.
  apply (counter_counts_in_order "foo.example.com" demo_times 4 0).
  - simpl. lia.
  - vm_compute. discriminate.
Defined.

(** The same run, computed: the counts 1, 2, 3 for one subdomain and 1 for
    the other. *)
Example demo_times_counts :
  map snd (processTimesRequests 4 (mkTimesLoop 0 ∅) demo_times).2 = [1; 1; 2; 3]%Z /\
  counts_for "foo.example.com" (processTimesRequests 4 (mkTimesLoop 0 ∅) demo_times).2
    = [1; 2; 3]%Z.
Proof. vm_compute. done. Qed.

(** ** What the handlers leave as it is *)

Lemma new_request_keeps (r0 r : DNSRequest.t) (l : loc) (w : World) :
  requests w !! l = Some r -> requests (new_request r0 w).2 !! l = Some r.
Proof.
  intros Hr. unfold new_request. simpl. rewrite lookup_insert_ne; [done|].
  intros <-. apply (is_fresh (dom (requests w))). apply elem_of_dom. eauto.
Qed.

Lemma timesForSubdomain_filters (sub : string) (w : World) (tt : bool) :
  class_filter tt (ns (timesForSubdomain sub w).2) = class_filter tt (ns w).
Proof.
  unfold timesForSubdomain.
  destruct (processTimesRequests _ _ _) as [[st q] out]. by destruct tt.
Qed.

Lemma checkSubdomain_frame (req : option loc) (w w' : World) :
  checkSubdomain req w = Ok w' ->
  (forall tt, class_filter tt (ns w') = class_filter tt (ns w)) /\
  (forall l r, requests w !! l = Some r -> requests w' !! l = Some r).
Proof.
  intros Hrun. unfold checkSubdomain in Hrun.
  destruct (deref req w) as [r0|]; simpl in Hrun; [|discriminate].
  destruct (_ <? 2); [by inversion Hrun; subst|].
  destruct (_ - 1 <? _); [by inversion Hrun; subst|].
  destruct (bool_decide _ || bool_decide _ || bool_decide _); [by inversion Hrun; subst|].
  assert (Hgen : forall w1 r1, requests w1 = requests w -> ns w1 = ns w ->
            (let '(p, w2) := new_request r1 w1 in
             let '(n, w3) := timesForSubdomain (candidate r0) w2 in
             Ok (bus_Publish NewSubdomainTopic [PtrDNSRequest (Some p); Int n] w3))
              = Ok w' ->
            (forall tt, class_filter tt (ns w') = class_filter tt (ns w)) /\
            (forall l r, requests w !! l = Some r -> requests w' !! l = Some r)).
  { intros w1 r1 Hsame Hns Hpub.
    pose proof (new_request_keeps r1) as Hkeep.
    assert (Hns2 : ns (new_request r1 w1).2 = ns w) by done.
    specialize (Hkeep) with (w := w1). rewrite Hsame in Hkeep.
    destruct (new_request r1 w1) as [p w2]. simpl in Hkeep, Hns2.
    destruct (timesForSubdomain_frame (candidate r0) w2) as (_ & Fr & _).
    pose proof (timesForSubdomain_filters (candidate r0) w2) as Ff.
    destruct (timesForSubdomain (candidate r0) w2) as [n w3]. simpl in Fr, Ff.
    inversion Hpub; subst. simpl. split.
    - intros tt. by rewrite Ff, Hns2.
    - intros l r Hr. rewrite Fr. by apply Hkeep. }
  fold (candidate r0) in Hrun.
  destruct (graph (ns w)) as [g|].
  - destruct (handlers.IsCNAMENode g _); [by inversion Hrun; subst|].
    eapply Hgen; [| |exact Hrun]; done.
  - eapply Hgen; [| |exact Hrun]; done.
Qed.

Lemma Resolved_frame (now : Time) (req : option loc) (w w' : World) :
  Resolved now req w = Ok w' ->
  (forall tt, class_filter tt (ns w') = class_filter tt (ns w)) /\
  (forall l r, requests w !! l = Some r -> requests w' !! l = Some r).
Proof.
  intros Hrun. unfold Resolved in Hrun.
  destruct (deref req (SetActive now w)) as [r0|]; simpl in Hrun; [|discriminate].
  destruct (IsDomainInScope _ _).
  - destruct (checkSubdomain_frame req (SetActive now w) w' Hrun) as [Hf Hr].
    split; [|exact Hr]. intros tt. rewrite Hf. by destruct tt.
  - inversion Hrun; subst. split; [by intros []|done].
Qed.

Lemma performRequest_frame (now : Time) (req : option loc) (w w' : World) :
  performRequest now req w = Ok w' ->
  (forall tt, class_filter tt (ns w') = class_filter tt (ns w)) /\
  requests w' = requests w.
Proof.
  intros Hrun. unfold performRequest in Hrun.
  destruct (Passive _).
  - destruct (deref req (SetActive now w)) as [r0|]; simpl in Hrun; [|discriminate].
    destruct (negb _ && _); inversion Hrun; subst; (split; [by intros []|done]).
  - inversion Hrun; subst. split; [by intros []|done].
Qed.

(** The graph handle is written by [RegisterGraph] only. *)
Lemma timesForSubdomain_graph (sub : string) (w : World) :
  graph (ns (timesForSubdomain sub w).2) = graph (ns w).
Proof.
  unfold timesForSubdomain.
  by destruct (processTimesRequests _ _ _) as [[st q] out].
Qed.

Lemma Resolved_keeps_graph (now : Time) (req : option loc) (w w' : World) :
  Resolved now req w = Ok w' -> graph (ns w') = graph (ns w).
Proof.
  intros Hrun. unfold Resolved in Hrun.
  destruct (deref req (SetActive now w)) as [r0|]; simpl in Hrun; [|discriminate].
  destruct (IsDomainInScope _ _); [|by inversion Hrun; subst].
  unfold checkSubdomain in Hrun.
  destruct (deref req (SetActive now w)) as [r1|]; simpl in Hrun; [|discriminate].
  destruct (_ <? 2); [by inversion Hrun; subst|].
  destruct (_ - 1 <? _); [by inversion Hrun; subst|].
  destruct (bool_decide _ || bool_decide _ || bool_decide _); [by inversion Hrun; subst|].
  assert (Hgen : forall w1 r2 sub, graph (ns w1) = graph (ns w) ->
            (let '(p, w2) := new_request r2 w1 in
             let '(n, w3) := timesForSubdomain sub w2 in
             Ok (bus_Publish NewSubdomainTopic [PtrDNSRequest (Some p); Int n] w3))
              = Ok w' ->
            graph (ns w') = graph (ns w)).
  { intros w1 r2 sub Hns Hpub. unfold new_request in Hpub.
    pose proof (timesForSubdomain_graph sub
                  (set_requests (<[fresh (dom (requests w1)) := r2]> (requests w1)) w1)) as Hg.
    destruct (timesForSubdomain sub _) as [n w3]. simpl in Hg.
    inversion Hpub; subst. simpl. by rewrite Hg, Hns. }
  change (graph (ns (SetActive now w))) with (graph (ns w)) in Hrun.
  destruct (graph (ns w)) as [g|] eqn:Hgraph.
  - destruct (handlers.IsCNAMENode g _); [inversion Hrun; subst; by simpl|].
    eapply Hgen; [|exact Hrun]. done.
  - eapply Hgen; [|exact Hrun]. done.
Qed.

(** ** newNameEvent *)

Section new_names.
Context `{Helpers}.

Lemma newNameEvent_nil (w : World) : newNameEvent None w = Ok w.
Proof. reflexivity. Qed.

(** A request with an empty name or an empty domain is left alone. *)
Lemma newNameEvent_empty (l : loc) (r : DNSRequest.t) (w : World) :
  requests w !! l = Some r ->
  DNSRequest.Name r = "" \/ DNSRequest.Domain r = "" ->
  newNameEvent (Some l) w = Ok w.
Proof.
  intros Hr He. unfold newNameEvent. simpl. rewrite Hr. simpl.
  destruct He as [-> | ->]; [done|]. by rewrite orb_true_r.
Qed.

(** What [newNameEvent] does with any other request, in one equation. *)
Lemma newNameEvent_accepts (l : loc) (r : DNSRequest.t) (w : World) :
  requests w !! l = Some r ->
  DNSRequest.Name r ≠ "" ->
  DNSRequest.Domain r ≠ "" ->
  newNameEvent (Some l) w =
    let name := normal_name r in
    let w1 := store l (with_Domain (ToLower (DNSRequest.Domain r)) (with_Name name r)) w in
    if TrustedTag (DNSRequest.Tag r) then
      if bool_decide (name ∈ trustedNameFilter (ns w))
      then Ok (trusted_Duplicate name w1).2
      else Ok (SendDNSRequest (Some l) (trusted_Duplicate name w1).2)
    else
      if bool_decide (name ∈ otherNameFilter (ns w))
      then Ok (other_Duplicate name w1).2
      else Ok (SendDNSRequest (Some l) (other_Duplicate name w1).2).
Proof.
  intros Hr Hn Hd. unfold newNameEvent. simpl. rewrite Hr. simpl.
  rewrite !bool_decide_eq_false_2 by done. simpl.
  destruct (TrustedTag (DNSRequest.Tag r)); simpl;
    unfold normal_name; by destruct (bool_decide _).
Qed.

(** The filters only grow. *)
Lemma newNameEvent_filters_grow (req : option loc) (w w' : World) (tt : bool) :
  newNameEvent req w = Ok w' ->
  class_filter tt (ns w) ⊆ class_filter tt (ns w').
Proof.
  intros Hrun. destruct req as [l|]; [|by inversion Hrun].
  destruct (requests w !! l) as [r|] eqn:Hr;
    [|unfold newNameEvent, deref in Hrun; simpl in Hrun; by rewrite Hr in Hrun].
  destruct (decide (DNSRequest.Name r = "")) as [Hn|Hn];
    [rewrite (newNameEvent_empty l r w) in Hrun by auto; by inversion Hrun|].
  destruct (decide (DNSRequest.Domain r = "")) as [Hd|Hd];
    [rewrite (newNameEvent_empty l r w) in Hrun by auto; by inversion Hrun|].
  rewrite (newNameEvent_accepts l r w Hr Hn Hd) in Hrun. cbv zeta in Hrun.
  destruct (TrustedTag _), (bool_decide _); inversion Hrun; subst; clear Hrun;
    destruct tt; simpl; set_solver.
Qed.

Lemma handle_filters_grow (e : handled) (w w' : World) (tt : bool) :
  handle e w = Ok w' ->
  class_filter tt (ns w) ⊆ class_filter tt (ns w').
Proof.
  destruct e as [req|now req|now]; simpl; intros Hrun.
  - by apply (newNameEvent_filters_grow req).
  - destruct (Resolved_frame now req w w' Hrun) as [Hf _]. by rewrite Hf.
  - unfold processRequests_turn in Hrun.
    destruct (Next (dnsRequests (ns w))) as [[req q]|]; [|by inversion Hrun].
    destruct (performRequest_frame now req _ w' Hrun) as [Hf _]. rewrite Hf.
    by destruct tt.
Qed.

Lemma handle_all_filters_grow (es : list handled) (w w' : World) (tt : bool) :
  handle_all es w = Ok w' ->
  class_filter tt (ns w) ⊆ class_filter tt (ns w').
Proof.
  revert w. induction es as [|e rest IH]; intros w Hrun; simpl in Hrun.
  - by inversion Hrun.
  - apply bind_Ok in Hrun as (w1 & Hone & Hrest).
    etrans; [eapply handle_filters_grow|]; eauto.
Qed.

(** C3, as the code has it. A request with an empty name or an empty
    domain is dropped: it is not forwarded and no filter records it, the
    service is left as it was. Take a request with a name and a domain that
    are not empty; its key is the name with the wildcard label removed and
    in lower case, its class is the trust class of its tag. The request is
    forwarded to the inbox exactly when its key is new to the filter of its
    class; the key is then recorded in that filter and the filter of the
    other class is left as it is; and whatever the service handles in
    between (new names, resolved names, turns of its request loop), a later
    request with the same key and class is not forwarded. *)
Theorem duplicate_suppression_per_class (l : loc) (r : DNSRequest.t) (w : World) :
  requests w !! l = Some r ->
  (DNSRequest.Name r = "" \/ DNSRequest.Domain r = "" ->
   newNameEvent (Some l) w = Ok w) /\
  (DNSRequest.Name r ≠ "" ->
   DNSRequest.Domain r ≠ "" ->
   exists w1,
     newNameEvent (Some l) w = Ok w1 /\
     (normal_name r ∉ class_filter (TrustedTag (DNSRequest.Tag r)) (ns w) ->
      dnsRequests (ns w1) = dnsRequests (ns w) ++ [Some l]) /\
     (normal_name r ∈ class_filter (TrustedTag (DNSRequest.Tag r)) (ns w) ->
      dnsRequests (ns w1) = dnsRequests (ns w)) /\
     class_filter (TrustedTag (DNSRequest.Tag r)) (ns w1)
       = {[ normal_name r ]} ∪ class_filter (TrustedTag (DNSRequest.Tag r)) (ns w) /\
     class_filter (negb (TrustedTag (DNSRequest.Tag r))) (ns w1)
       = class_filter (negb (TrustedTag (DNSRequest.Tag r))) (ns w) /\
     forall mid w2 l2 r2,
       handle_all mid w1 = Ok w2 ->
       requests w2 !! l2 = Some r2 ->
       DNSRequest.Name r2 ≠ "" ->
       DNSRequest.Domain r2 ≠ "" ->
       normal_name r2 = normal_name r ->
       TrustedTag (DNSRequest.Tag r2) = TrustedTag (DNSRequest.Tag r) ->
       exists w3, newNameEvent (Some l2) w2 = Ok w3 /\
                  dnsRequests (ns w3) = dnsRequests (ns w2)).
Proof.
  intros Hr. split; [by apply newNameEvent_empty|]. intros Hn Hd.
  assert (Hfirst : exists w1,
    newNameEvent (Some l) w = Ok w1 /\
    (normal_name r ∉ class_filter (TrustedTag (DNSRequest.Tag r)) (ns w) ->
     dnsRequests (ns w1) = dnsRequests (ns w) ++ [Some l]) /\
    (normal_name r ∈ class_filter (TrustedTag (DNSRequest.Tag r)) (ns w) ->
     dnsRequests (ns w1) = dnsRequests (ns w)) /\
    class_filter (TrustedTag (DNSRequest.Tag r)) (ns w1)
      = {[ normal_name r ]} ∪ class_filter (TrustedTag (DNSRequest.Tag r)) (ns w) /\
    class_filter (negb (TrustedTag (DNSRequest.Tag r))) (ns w1)
      = class_filter (negb (TrustedTag (DNSRequest.Tag r))) (ns w)).
  { rewrite (newNameEvent_accepts l r w Hr Hn Hd). cbv zeta.
    destruct (TrustedTag (DNSRequest.Tag r)); simpl;
      case_bool_decide; eexists; (split; [reflexivity|]); simpl; done. }
  destruct Hfirst as (w1 & Hrun & Hnew & Hold & Hown & Hother).
  exists w1. repeat (split; [done|]).
  intros mid w2 l2 r2 Hmid Hr2 Hn2 Hd2 Hkey Hclass.
  assert (Hseen : normal_name r2 ∈ class_filter (TrustedTag (DNSRequest.Tag r2)) (ns w2)).
  { rewrite Hkey, Hclass.
    apply (handle_all_filters_grow mid w1 w2 _ Hmid). rewrite Hown.
    apply elem_of_union. left. by apply elem_of_singleton. }
  rewrite (newNameEvent_accepts l2 r2 w2 Hr2 Hn2 Hd2). cbv zeta.
  destruct (TrustedTag (DNSRequest.Tag r2)); simpl in *;
    rewrite bool_decide_eq_true_2 by done; eexists; (split; [reflexivity|]); done.
Qed.

End new_names.

(** The example of the specification, with the helpers modelled from it:
    the certificate name is forwarded, and after the scraped one has been
    handled the second certificate request is dropped. A certificate name
    that comes with an empty domain leaves the service as it was. *)
Lemma duplicate_suppression_per_class_witness :
  (exists w1 w2 w3,
     @newNameEvent spec_helpers (Some 0) demo_spec_example = Ok w1 /\
     dnsRequests (ns w1) = [Some 0] /\
     @handle_all spec_helpers [HNewName (Some 1)] w1 = Ok w2 /\
     @newNameEvent spec_helpers (Some 2) w2 = Ok w3 /\
     dnsRequests (ns w3) = dnsRequests (ns w2)) /\
  @newNameEvent spec_helpers (Some 0) (demo_world false "a.example.com" "" "cert").2
    = Ok (demo_world false "a.example.com" "" "cert").2.
Proof.
  split.
  - destruct (@duplicate_suppression_per_class spec_helpers 0
                (demo_request "a.example.com" "example.com" "cert") demo_spec_example)
      as (_ & Hmain); [vm_compute; reflexivity|].
    destruct Hmain as (w1 & Hrun & Hnew & _ & _ & _ & Hlater); [discriminate|discriminate|].
    assert (E : world_after (@newNameEvent spec_helpers (Some 0) demo_spec_example)
                            demo_spec_example = w1) by (by rewrite Hrun).
    destruct E.
    destruct (Hlater [HNewName (Some 1)]
                (world_after (@handle_all spec_helpers [HNewName (Some 1)]
                   (world_after (@newNameEvent spec_helpers (Some 0) demo_spec_example)
                                demo_spec_example))
                   demo_spec_example)
                2 (demo_request "a.example.com" "example.com" "cert"))
      as (w3 & Hthird & Hdropped);
      [vm_compute; reflexivity|vm_compute; reflexivity|discriminate|discriminate
      |reflexivity|reflexivity|].
    eexists _, _, w3. split; [exact Hrun|]. split; [apply Hnew, not_elem_of_empty|].
    split; [vm_compute; reflexivity|]. split; [exact Hthird|exact Hdropped].
  - destruct (@duplicate_suppression_per_class spec_helpers 0
                (demo_request "a.example.com" "" "cert")
                (demo_world false "a.example.com" "" "cert").2)
      as (Hempty & _); [vm_compute; reflexivity|].
    apply Hempty. by right.
Defined.

(** In that run both classes forward the name once. *)
Example demo_spec_example_inbox :
  dnsRequests (ns (world_after
                     (@handle_all spec_helpers
                        [HNewName (Some 0); HNewName (Some 1); HNewName (Some 2)]
                        demo_spec_example) demo_spec_example))
    = [Some 0; Some 1].
Proof. vm_compute. reflexivity. Qed.

(** Against C3 as stated: the first trusted request that carries the empty
    name is not forwarded; and the first request that carries
    "a.example.com" is not forwarded when a request that carried
    "A.EXAMPLE.COM" came before it in the same class. *)
Lemma first_request_not_always_forwarded :
  (exists w',
     @newNameEvent spec_helpers (Some 0) (demo_world false "" "example.com" "cert").2 = Ok w' /\
     dnsRequests (ns w') = []) /\
  (exists w1 w2,
     @newNameEvent spec_helpers (Some 0) demo_case_variants = Ok w1 /\
     dnsRequests (ns w1) = [Some 0] /\
     DNSRequest.Name <$> requests w1 !! 1 = Some "a.example.com" /\
     @newNameEvent spec_helpers (Some 1) w1 = Ok w2 /\
     dnsRequests (ns w2) = [Some 0]).
Proof.
  split.
  - eexists. split; [vm_compute; reflexivity|]. reflexivity.
  - exists (world_after (@newNameEvent spec_helpers (Some 0) demo_case_variants)
                        demo_case_variants).
    exists (world_after
              (@handle_all spec_helpers [HNewName (Some 0); HNewName (Some 1)]
                 demo_case_variants)
              demo_case_variants).
    vm_compute. done.
Qed.

(** ** The request objects *)

Section request_objects.
Context `{Helpers}.

(** C6, as the code has it. A handler of the name service leaves every
    request object with the Records, Tag and Source it had. [Resolved] and
    [performRequest] leave it with all its fields. [newNameEvent] writes to
    the request it is called with, when its name and domain are not empty:
    the name becomes the name without the wildcard label in lower case, the
    domain becomes the domain in lower case; any other request is left as it
    is. *)
Theorem handlers_rewrite_only_Name_and_Domain
    (now : Time) (req : option loc) (w w' : World) (l : loc) (r : DNSRequest.t) :
  requests w !! l = Some r ->
  (newNameEvent req w = Ok w' ->
   exists r',
     requests w' !! l = Some r' /\
     DNSRequest.Records r' = DNSRequest.Records r /\
     DNSRequest.Tag r' = DNSRequest.Tag r /\
     DNSRequest.Source r' = DNSRequest.Source r /\
     (req = Some l -> DNSRequest.Name r ≠ "" -> DNSRequest.Domain r ≠ "" ->
      DNSRequest.Name r' = normal_name r /\
      DNSRequest.Domain r' = ToLower (DNSRequest.Domain r)) /\
     (req ≠ Some l \/ DNSRequest.Name r = "" \/ DNSRequest.Domain r = "" -> r' = r)) /\
  (Resolved now req w = Ok w' -> requests w' !! l = Some r) /\
  (performRequest now req w = Ok w' -> requests w' !! l = Some r).
Proof.
  intros Hr. split; [|split].
  - intros Hrun.
    destruct req as [l0|]; [|inversion Hrun; subst; exists r; naive_solver].
    destruct (requests w !! l0) as [r0|] eqn:Hr0;
      [|unfold newNameEvent, deref in Hrun; simpl in Hrun; by rewrite Hr0 in Hrun].
    destruct (decide (DNSRequest.Name r0 = "")) as [Hn|Hn].
    { rewrite (newNameEvent_empty l0 r0 w) in Hrun by auto. inversion Hrun; subst.
      exists r. split; [done|]. split; [done|]. split; [done|]. split; [done|].
      split; [|done].
      intros [= ->]. rewrite Hr in Hr0. by inversion Hr0; subst. }
    destruct (decide (DNSRequest.Domain r0 = "")) as [Hd|Hd].
    { rewrite (newNameEvent_empty l0 r0 w) in Hrun by auto. inversion Hrun; subst.
      exists r. split; [done|]. split; [done|]. split; [done|]. split; [done|].
      split; [|done].
      intros [= ->]. rewrite Hr in Hr0. by inversion Hr0; subst. }
    rewrite (newNameEvent_accepts l0 r0 w Hr0 Hn Hd) in Hrun. cbv zeta in Hrun.
    assert (Hreq : requests w' =
              <[l0 := with_Domain (ToLower (DNSRequest.Domain r0))
                        (with_Name (normal_name r0) r0)]> (requests w)).
    { destruct (TrustedTag _), (bool_decide _); by inversion Hrun; subst. }
    rewrite Hreq. destruct (decide (l0 = l)) as [->|Hne].
    + rewrite Hr in Hr0. inversion Hr0; subst r0. rewrite lookup_insert_eq.
      eexists. split; [reflexivity|]. simpl.
      split; [done|]. split; [done|]. split; [done|]. split; [done|].
      intros [Hl|[?|?]]; done.
    + rewrite lookup_insert_ne by done. exists r.
      split; [done|]. split; [done|]. split; [done|]. split; [done|].
      split; [|done]. intros [= ?]. done.
  - intros Hrun. by apply (Resolved_frame now req w w' Hrun).
  - intros Hrun. destruct (performRequest_frame now req w w' Hrun) as [_ Heq].
    by rewrite Heq.
Qed.

End request_objects.

Lemma handlers_rewrite_only_Name_and_Domain_witness :
  exists r',
    requests (world_after (@newNameEvent spec_helpers (Some 0) demo_wildcard) demo_wildcard)
      !! 0 = Some r' /\
    DNSRequest.Records r' = [] /\
    DNSRequest.Tag r' = "cert" /\
    DNSRequest.Source r' = "Demo" /\
    DNSRequest.Name r' = "www.example.com" /\
    DNSRequest.Domain r' = "example.com".
Proof.
  destruct (@handlers_rewrite_only_Name_and_Domain spec_helpers zeroTime (Some 0)
              demo_wildcard
              (world_after (@newNameEvent spec_helpers (Some 0) demo_wildcard) demo_wildcard)
              0 (demo_request "*.WWW.Example.COM" "Example.COM" "cert"))
    as [Hnew _]; [vm_compute; reflexivity|].
  destruct Hnew as (r' & Hl & Hrec & Htag & Hsrc & Hnorm & _); [vm_compute; reflexivity|].
  destruct Hnorm as [Hname Hdom]; [reflexivity|discriminate|discriminate|].
  exists r'. rewrite Hname, Hdom. split; [exact Hl|].
  split; [exact Hrec|]. split; [exact Htag|]. split; [exact Hsrc|].
  split; vm_compute; reflexivity.
Defined.

(** Against C6 as stated: the service subscribes [newNameEvent] to the
    new-name topic; a request published there with the name
    "*.WWW.Example.COM" and the domain "Example.COM" has the name
    "www.example.com" and the domain "example.com" once the callback has
    returned. *)
Lemma subscriber_rewrites_published_request :
  subscribers (ebus demo_published) NewNameTopic = [Func fn_newNameEvent] /\
  requests demo_published !! 0
    = Some (demo_request "*.WWW.Example.COM" "Example.COM" "cert") /\
  exists w',
    @deliver spec_helpers zeroTime demo_published = Ok w' /\
    requests w' !! 0 = Some (demo_request "www.example.com" "example.com" "cert") /\
    requests w' !! 0 ≠ requests demo_published !! 0.
Proof.
  split; [vm_compute; reflexivity|]. split; [vm_compute; reflexivity|].
  exists (world_after (@deliver spec_helpers zeroTime demo_published) demo_published).
  vm_compute. repeat split; discriminate.
Qed.

(** ** A run of the pipeline *)

(** Three names resolved under "foo.example.com": the subdomain is promoted
    three times, with the counts 1, 2 and 3. *)
Example demo_three_promotions :
  map Args (published demo_three_names
              (world_after (Resolved_all zeroTime [Some 0; Some 1; Some 2] demo_three_names)
                           demo_three_names))
    = [[PtrDNSRequest (Some 3); Int 1];
       [PtrDNSRequest (Some 4); Int 2];
       [PtrDNSRequest (Some 5); Int 3]].
Proof. vm_compute. reflexivity. Qed.

End NameServiceSpec.

(** * Further properties of the event bus *)

Module EventBusMore.
Import utils core.
Import EventBusSpec.

(** ** What the goroutines leave of the bus *)

Lemma spawn_bus (callbacks args : list any) (s : Sys) :
  topics (bus (spawn callbacks args s)) = topics (bus s) /\
  done (bus (spawn callbacks args s)) = done (bus s) /\
  queue (bus (spawn callbacks args s)) = queue (bus s).
Proof. unfold spawn. by destruct (Acquire _ _). Qed.

Lemma loop_step_bus (s : Sys) :
  topics (bus (loop_step s)) = topics (bus s) /\
  done (bus (loop_step s)) = done (bus s).
Proof.
  unfold loop_step. destruct (loop s) as [i|cbs args|]; [| |done].
  - unfold processRequests_turn.
    destruct (recv_ready _); [done|].
    destruct (Next (queue (bus s))) as [[p q]|]; [|done]. simpl.
    destruct (topics (bus s) !! Topic p); [|done].
    destruct (spawn_bus l (Args p) (set_bus (set_queue q (bus s)) s)) as (-> & -> & _).
    done.
  - destruct (spawn_bus cbs args s) as (-> & -> & _). done.
Qed.

Lemma call_step_bus (g : nat) (s : Sys) :
  topics (bus (call_step g s)) = topics (bus s) /\
  done (bus (call_step g s)) = done (bus s) /\
  queue (bus (call_step g s)) = queue (bus s) /\
  loop (call_step g s) = loop s /\
  length (routines (call_step g s)) = length (routines s).
Proof.
  unfold call_step. destruct (routines s !! g) as [r|]; [|done].
  destruct (g_callbacks r); [destruct (g_released r)|]; simpl;
    rewrite ?length_insert; done.
Qed.

(** ** The backoff of the dispatch loop *)

Lemma step_loop_index (a : action) (s s' : Sys) :
  step a s = Ok s' ->
  (forall i, loop s = Running i -> i <= maxIdx) ->
  forall i, loop s' = Running i -> i <= maxIdx.
Proof.
  intros Hstep Hb. destruct (step_cases _ _ _ Hstep) as [[eb ->]|[->|[g ->]]].
  - done.
  - unfold loop_step, spawn. destruct (loop s) as [i0|cbs args|] eqn:Hl.
    + specialize (Hb i0 eq_refl). unfold processRequests_turn.
      destruct (recv_ready _); [by simpl|].
      destruct (Next (queue (bus s))) as [[p q]|]; simpl.
      * destruct (topics (bus s) !! Topic p); simpl.
        -- destruct (Acquire _ _); simpl; intros i [= <-] || intros i [=].
           unfold maxIdx. lia.
        -- intros i [= <-]. unfold maxIdx. lia.
      * intros i [= <-]. unfold maxIdx in *.
        destruct (i0 <? 7) eqn:Hlt; [apply Nat.ltb_lt in Hlt|]; lia.
    + destruct (Acquire _ _); simpl; [|intros i; rewrite ?Hl; intros [=]].
      intros i [= <-]. unfold maxIdx. lia.
    + intros i. rewrite ?Hl. intros [=].
  - intros i. destruct (call_step_bus g s) as (_ & _ & _ & -> & _). apply Hb.
Qed.

Lemma run_loop_index (sched : list action) (s s' : Sys) :
  run sched s = Ok s' ->
  (forall i, loop s = Running i -> i <= maxIdx) ->
  forall i, loop s' = Running i -> i <= maxIdx.
Proof.
  revert s. induction sched as [|a sched IH]; intros s Hrun Hb; simpl in Hrun.
  - by inversion Hrun; subst.
  - apply bind_Ok in Hrun as (s1 & Hstep & Hrun). eauto using step_loop_index.
Qed.

Lemma idle_polls (k : nat) :
  forall (s : Sys) (i : nat),
    loop s = Running i -> i <= maxIdx ->
    recv_ready (done (bus s)) = false ->
    queue (bus s) = [] ->
    run (replicate k ALoop) s = Ok (set_loop (Running (backoff maxIdx i k)) s).
Proof.
  induction k as [|k IH]; intros s i Hl Hi Hready Hq.
  - simpl. unfold backoff. rewrite Nat.add_0_r, Nat.min_l by done.
    destruct s. simpl in *. by subst.
  - simpl. unfold loop_step, processRequests_turn. rewrite Hl, Hready, Hq. simpl.
    rewrite (IH _ (if i <? maxIdx then S i else i)); [|done| |done|done].
    + f_equal. unfold set_loop. simpl. f_equal. f_equal. unfold backoff, maxIdx in *.
      destruct (i <? 7) eqn:Hlt; [apply Nat.ltb_lt in Hlt|apply Nat.ltb_ge in Hlt]; lia.
    + unfold maxIdx in *.
      destruct (i <? 7) eqn:Hlt; [apply Nat.ltb_lt in Hlt|]; lia.
Qed.

(** X1. The dispatch loop, polling an empty queue, walks the table of delays
    and stays at its last entry: from any state the bus can reach, [k]
    polls in a row move the index from [i] to the smaller of [i + k] and 7.
    The index read is always an index of the table, and it is read after the
    increment, so the first entry is never used: a poll sleeps 25 ms at
    least and 500 ms at most. *)
Theorem idle_backoff (sched : list action) (s : Sys) (i k : nat) :
  run sched NewSys = Ok s ->
  loop s = Running i ->
  recv_ready (done (bus s)) = false ->
  queue (bus s) = [] ->
  i <= maxIdx /\
  run (replicate k ALoop) s = Ok (set_loop (Running (backoff maxIdx i k)) s) /\
  exists ms,
    processRequests_turn i (bus s) = TSleep (backoff maxIdx i 1) ms /\
    delays !! backoff maxIdx i 1 = Some ms /\
    25 <= ms <= 500.
Proof.
  intros Hreach Hl Hready Hq.
  assert (Hi : i <= maxIdx).
  { apply (run_loop_index sched NewSys s Hreach); [|done].
    intros j [= <-]. unfold maxIdx. lia. }
  split; [done|]. split; [by apply idle_polls|].
  unfold processRequests_turn. rewrite Hready, Hq. simpl.
  unfold maxIdx in Hi.
  do 8 (destruct i as [|i];
        [eexists; split; [reflexivity|]; split; [reflexivity|vm_compute; lia]|]).
  lia.
Qed.

Lemma idle_backoff_witness :
  0 <= maxIdx /\
  run (replicate 9 ALoop) NewSys = Ok (set_loop (Running (backoff maxIdx 0 9)) NewSys) /\
  exists ms,
    processRequests_turn 0 (bus NewSys) = TSleep (backoff maxIdx 0 1) ms /\
    delays !! backoff maxIdx 0 1 = Some ms /\
    25 <= ms <= 500.
Proof. apply (idle_backoff [] NewSys 0 9); reflexivity. Defined.

(** ** The semaphore *)

Lemma holding_app (rs : list goroutine) (r : goroutine) :
  holding (rs ++ [r]) = holding rs + (if g_released r then 0 else 1).
Proof.
  unfold holding. rewrite List.filter_app, length_app. simpl.
  by destruct (g_released r).
Qed.

Lemma holding_insert (rs : list goroutine) :
  forall (g : nat) (r r' : goroutine),
    rs !! g = Some r ->
    holding (<[g := r']> rs) + (if g_released r then 0 else 1)
      = holding rs + (if g_released r' then 0 else 1).
Proof.
  induction rs as [|r0 rs IH]; intros g r r' Hr; [done|].
  destruct g as [|g]; simpl in *.
  - inversion Hr; subst. unfold holding. simpl.
    destruct (g_released r), (g_released r'); simpl; lia.
  - specialize (IH g r r' Hr). unfold holding in *. simpl.
    destruct (g_released r0); simpl; lia.
Qed.

(** A step of a caller leaves the semaphore and the goroutines alone. *)
Lemma step_cases_max (a : action) (s s' : Sys) :
  step a s = Ok s' ->
  (max (bus s') = max (bus s) /\ routines s' = routines s /\
   loop s' = loop s /\ calls s' = calls s) \/
  s' = loop_step s \/ exists g, s' = call_step g s.
Proof.
  destruct a as [t fn|t fn|t args| | |g]; simpl; intros Hstep.
  - apply bind_Ok in Hstep as (eb & Hs & [= <-]). left. unfold Subscribe in Hs.
    case_bool_decide; [by inversion Hs; subst|].
    apply bind_Ok in Hs as (k & _ & Hs). case_bool_decide; by inversion Hs; subst.
  - apply bind_Ok in Hstep as (eb & Hs & [= <-]). left. unfold Unsubscribe in Hs.
    case_bool_decide; [by inversion Hs; subst|].
    apply bind_Ok in Hs as (k & _ & Hs). case_bool_decide; by inversion Hs; subst.
  - inversion Hstep. left. simpl. unfold Publish. by case_bool_decide.
  - apply bind_Ok in Hstep as (eb & Hs & [= <-]). left. unfold Stop in Hs.
    apply bind_Ok in Hs as (d & _ & Hs). by inversion Hs; subst.
  - inversion Hstep. eauto.
  - inversion Hstep. eauto.
Qed.

Lemma spawn_conserves (callbacks args : list any) (s : Sys) (total : N) :
  (sem_free (max (bus s)) + N.of_nat (holding (routines s)) = total)%N ->
  (sem_free (max (bus (spawn callbacks args s)))
     + N.of_nat (holding (routines (spawn callbacks args s))) = total)%N.
Proof.
  intros Hc. unfold spawn, Acquire.
  destruct (1 <=? sem_free (max (bus s)))%N eqn:Hle; [|done].
  apply N.leb_le in Hle. simpl. rewrite holding_app. simpl. lia.
Qed.

Lemma step_conserves (a : action) (s s' : Sys) (total : N) :
  step a s = Ok s' ->
  (sem_free (max (bus s)) + N.of_nat (holding (routines s)) = total)%N ->
  (sem_free (max (bus s')) + N.of_nat (holding (routines s')) = total)%N.
Proof.
  intros Hstep Hc.
  destruct (step_cases_max _ _ _ Hstep) as [(-> & -> & _)|[->|[g ->]]].
  - done.
  - unfold loop_step. destruct (loop s) as [i|cbs args|]; [| |done].
    + unfold processRequests_turn. destruct (recv_ready _); [done|].
      destruct (Next (queue (bus s))) as [[p q]|]; [|done]. simpl.
      destruct (topics (bus s) !! Topic p); [|done].
      by apply spawn_conserves.
    + by apply spawn_conserves.
  - unfold call_step. destruct (routines s !! g) as [r|] eqn:Hr; [|done].
    destruct (g_callbacks r) as [|cb rest].
    + destruct (g_released r) eqn:Hrel; [done|]. simpl.
      pose proof (holding_insert _ g r (mkGoroutine [] (g_args r) true) Hr) as Hh.
      rewrite Hrel in Hh. simpl in Hh. lia.
    + simpl.
      pose proof (holding_insert _ g r
                    (mkGoroutine rest (g_args r) (g_released r)) Hr) as Hh.
      simpl in Hh. destruct (g_released r); lia.
Qed.

(** X2. The slots of the semaphore are conserved: in every state the bus can
    reach, the free slots and the goroutines of [executeCallbacks] that have
    not released theirs add up to the 1000000 slots of [NewEventBus]. So a
    release never adds a slot that was not acquired, and no more than
    1000000 such goroutines exist at a time. *)
Theorem semaphore_conserved (sched : list action) (s : Sys) :
  run sched NewSys = Ok s ->
  (sem_free (max (bus s)) + N.of_nat (holding (routines s)) = 1000000)%N.
Proof.
  assert (Hgen : forall s0, run sched s0 = Ok s ->
            (sem_free (max (bus s0)) + N.of_nat (holding (routines s0)) = 1000000)%N ->
            (sem_free (max (bus s)) + N.of_nat (holding (routines s)) = 1000000)%N).
  { induction sched as [|a sched IH]; intros s0 Hrun Hc; simpl in Hrun.
    - by inversion Hrun; subst.
    - apply bind_Ok in Hrun as (s1 & Hstep & Hrun). eauto using step_conserves. }
  intros Hrun. by apply (Hgen NewSys).
Qed.

Lemma semaphore_conserved_witness :
  (sem_free (max (bus demo_dispatched))
     + N.of_nat (holding (routines demo_dispatched)) = 1000000)%N.
Proof.
  apply (semaphore_conserved (demo_before ++ ALoop :: demo_after)).
  vm_compute. reflexivity.
Defined.

(** ** After Stop *)

(** The model with whole turns is the statement-by-statement one when no
    other goroutine runs inside a turn. *)
Lemma fine_turn_is_loop_step (s : FineSys) :
  (forall curIdx, fpoint s ≠ AtNext curIdx) ->
  (forall p, fpoint s ≠ AtTopics p) ->
  coarse (fine_turn s) = loop_step (coarse s).
Proof.
  intros Hnext Htopics. unfold fine_turn, loop_step, coarse at 2.
  destruct s as [eb [i|i|p|cbs args|] rs cs]; simpl in *.
  - unfold fine_loop_step, processRequests_turn, spawn. simpl.
    destruct (recv_ready (done eb)); simpl; [done|].
    destruct (queue eb) as [|p q]; simpl; [done|].
    destruct (topics eb !! Topic p) as [cbs|]; simpl; [|done].
    unfold fine_loop_step. simpl. by destruct (Acquire (max eb) 1).
  - by destruct (Hnext i).
  - by destruct (Htopics p).
  - unfold fine_loop_step, spawn. simpl. by destruct (Acquire (max eb) 1).
  - done.
Qed.

Lemma fine_call_step_bus (g : nat) (s : FineSys) :
  done (fbus (fine_call_step g s)) = done (fbus s) /\
  queue (fbus (fine_call_step g s)) = queue (fbus s) /\
  fpoint (fine_call_step g s) = fpoint s /\
  length (froutines (fine_call_step g s)) = length (froutines s).
Proof.
  destruct (call_step_bus g (coarse s)) as (_ & Hd & Hq & _ & Hlen).
  unfold fine_call_step. simpl. done.
Qed.

(** Once the done channel is closed, a step takes a request from the queue
    or starts a goroutine only if the loop had passed its [select] before:
    the measures [takes_left] and [dispatches_left] pay for it. *)
Lemma fine_step_after_stop (a : action) (s s' : FineSys) :
  ch_closed (done (fbus s)) = true ->
  fine_step a s = Ok s' ->
  ch_closed (done (fbus s')) = true /\
  length (froutines s) <= length (froutines s') /\
  length (froutines s') + dispatches_left (fpoint s')
    <= length (froutines s) + dispatches_left (fpoint s) /\
  exists taken later,
    taken ++ queue (fbus s') = queue (fbus s) ++ later /\
    length taken + takes_left (fpoint s') <= takes_left (fpoint s).
Proof.
  intros Hc Hstep.
  assert (Hsame : forall eb : EventBus,
            done eb = done (fbus s) -> queue eb = queue (fbus s) ->
            ch_closed (done (fbus (set_fbus eb s))) = true /\
            length (froutines s) <= length (froutines (set_fbus eb s)) /\
            length (froutines (set_fbus eb s)) + dispatches_left (fpoint (set_fbus eb s))
              <= length (froutines s) + dispatches_left (fpoint s) /\
            exists taken later,
              taken ++ queue (fbus (set_fbus eb s)) = queue (fbus s) ++ later /\
              length taken + takes_left (fpoint (set_fbus eb s)) <= takes_left (fpoint s)).
  { intros eb Hd Hq. simpl. rewrite Hd, Hq. split; [done|]. split; [lia|].
    split; [lia|]. exists [], []. simpl. rewrite app_nil_r. split; [done|lia]. }
  destruct a as [t fn|t fn|t args| | |g]; simpl in Hstep.
  - apply bind_Ok in Hstep as (eb & Hs & [= <-]). unfold Subscribe in Hs.
    case_bool_decide; [inversion Hs; subst; by apply Hsame|].
    apply bind_Ok in Hs as (k & _ & Hs).
    case_bool_decide; inversion Hs; subst; by apply Hsame.
  - apply bind_Ok in Hstep as (eb & Hs & [= <-]). unfold Unsubscribe in Hs.
    case_bool_decide; [inversion Hs; subst; by apply Hsame|].
    apply bind_Ok in Hs as (k & _ & Hs).
    case_bool_decide; inversion Hs; subst; by apply Hsame.
  - inversion Hstep; subst; clear Hstep. unfold Publish.
    case_bool_decide; [by apply Hsame|]. simpl.
    split; [done|]. split; [lia|]. split; [lia|].
    exists [], [mkPubReq t (map ValueOf args)]. simpl. split; [done|lia].
  - apply bind_Ok in Hstep as (eb & Hs & _). unfold Stop, close in Hs.
    by rewrite Hc in Hs.
  - inversion Hstep; subst; clear Hstep. unfold fine_loop_step.
    destruct (fpoint s) as [i|i|p|cbs args|] eqn:Hp; simpl.
    + unfold recv_ready. rewrite Hc, orb_true_r. simpl.
      split; [done|]. split; [lia|]. split; [lia|].
      exists [], []. simpl. rewrite app_nil_r. split; [done|lia].
    + destruct (queue (fbus s)) as [|p q] eqn:Hq; simpl.
      * split; [done|]. split; [lia|]. split; [lia|].
        exists [], []. simpl. rewrite Hq. split; [done|lia].
      * split; [done|]. split; [lia|]. split; [lia|].
        exists [p], []. simpl. rewrite app_nil_r. split; [done|lia].
    + destruct (topics (fbus s) !! Topic p) as [cbs|]; simpl;
        (split; [done|]; split; [lia|]; split; [lia|];
         exists [], []; simpl; rewrite app_nil_r; split; [done|lia]).
    + destruct (Acquire (max (fbus s)) 1) as [m|]; simpl; rewrite ?Hp; simpl.
      * rewrite length_app. simpl.
        split; [done|]. split; [lia|]. split; [lia|].
        exists [], []. simpl. rewrite app_nil_r. split; [done|lia].
      * split; [done|]. split; [lia|]. split; [lia|].
        exists [], []. simpl. rewrite app_nil_r. split; [done|lia].
    + rewrite Hp. simpl. split; [done|]. split; [lia|]. split; [lia|].
      exists [], []. simpl. rewrite app_nil_r. split; [done|lia].
  - inversion Hstep; subst; clear Hstep.
    destruct (fine_call_step_bus g s) as (Hd & Hq & Hp & Hlen).
    rewrite Hd, Hq, Hp, Hlen. split; [done|]. split; [lia|]. split; [lia|].
    exists [], []. simpl. rewrite app_nil_r. split; [done|lia].
Qed.

Lemma fine_run_after_stop (sched : list action) :
  forall s s' : FineSys,
    ch_closed (done (fbus s)) = true ->
    fine_run sched s = Ok s' ->
    length (froutines s) <= length (froutines s') /\
    length (froutines s') + dispatches_left (fpoint s')
      <= length (froutines s) + dispatches_left (fpoint s) /\
    exists taken later,
      taken ++ queue (fbus s') = queue (fbus s) ++ later /\
      length taken + takes_left (fpoint s') <= takes_left (fpoint s).
Proof.
  induction sched as [|a sched IH]; intros s s' Hc Hrun; simpl in Hrun.
  - inversion Hrun; subst. split; [lia|]. split; [lia|].
    exists [], []. simpl. rewrite app_nil_r. split; [done|lia].
  - apply bind_Ok in Hrun as (s1 & Hstep & Hrun).
    destruct (fine_step_after_stop a s s1 Hc Hstep)
      as (Hc1 & Hge1 & Hle1 & taken1 & later1 & Hq1 & Ht1).
    destruct (IH s1 s' Hc1 Hrun) as (Hge2 & Hle2 & taken2 & later2 & Hq2 & Ht2).
    split; [lia|]. split; [lia|].
    exists (taken1 ++ taken2), (later1 ++ later2). split.
    + rewrite <- app_assoc, Hq2, !app_assoc. by rewrite Hq1.
    + rewrite length_app. lia.
Qed.

(** With the done channel closed, every statement of the loop brings it
    nearer to its return; the semaphore is needed once at most. *)
Lemma fine_loop_step_closes (s : FineSys) :
  ch_closed (done (fbus s)) = true ->
  (0 < sem_free (max (fbus s)))%N \/ statements_left (fpoint s) <= 1 ->
  ch_closed (done (fbus (fine_loop_step s))) = true /\
  ((0 < sem_free (max (fbus (fine_loop_step s))))%N \/
   statements_left (fpoint (fine_loop_step s)) <= 1) /\
  statements_left (fpoint (fine_loop_step s)) <= statements_left (fpoint s) - 1.
Proof.
  intros Hc Hfree. unfold fine_loop_step.
  destruct s as [eb [i|i|p|cbs args|] rs cs]; simpl in *.
  - unfold recv_ready. rewrite Hc, orb_true_r. simpl. split; [done|]. split; [right|]; lia.
  - destruct Hfree as [Hfree|Hno]; [|lia].
    destruct (queue eb) as [|p q]; simpl; (split; [done|]; split; [by left|lia]).
  - destruct Hfree as [Hfree|Hno]; [|lia].
    destruct (topics eb !! Topic p) as [cbs|]; simpl;
      (split; [done|]; split; [by left|lia]).
  - destruct Hfree as [Hfree|Hno]; [|lia].
    unfold Acquire. destruct (1 <=? sem_free (max eb))%N eqn:Hle;
      [|apply N.leb_gt in Hle; lia].
    simpl. split; [done|]. split; [right|]; lia.
  - split; [done|]. split; [right|]; lia.
Qed.

Lemma fine_loop_runs_out (n : nat) :
  forall s : FineSys,
    ch_closed (done (fbus s)) = true ->
    (0 < sem_free (max (fbus s)))%N \/ statements_left (fpoint s) <= 1 ->
    statements_left (fpoint s) <= n ->
    exists s3, fine_run (replicate n ALoop) s = Ok s3 /\ fpoint s3 = AtReturn.
Proof.
  induction n as [|n IH]; intros s Hc Hfree Hn; simpl.
  - exists s. split; [done|]. destruct (fpoint s); simpl in Hn; (done || lia).
  - destruct (fine_loop_step_closes s Hc Hfree) as (Hc' & Hfree' & Hless).
    apply IH; [done|done|lia].
Qed.

(** X3. [Stop] ends the dispatch loop after the turn it is in, not at once.
    The loop is followed statement by statement. When [Stop] is called
    while the loop is at its [select], nothing is dispatched afterwards:
    no goroutine of [executeCallbacks] is started and every request stays
    in the queue, those published later behind the others. When [Stop]
    lands inside a turn, that turn is finished: after the [select] and
    before [eb.queue.Next()], one more request may be taken from the queue,
    and it may be one published after the [Stop]; from there to the
    semaphore, one more goroutine may be started. In every case, whatever
    the callers and the goroutines do afterwards, at most one request is
    taken and at most one goroutine is started after the [Stop]; and with a
    free slot in the semaphore, four more statements of the loop bring it
    to its return. *)
Theorem Stop_ends_dispatch_after_the_turn (sched : list action) (s s1 s2 : FineSys) :
  fine_step AStop s = Ok s1 ->
  fine_run sched s1 = Ok s2 ->
  (length (froutines s) <= length (froutines s2) /\
   length (froutines s2) <= length (froutines s) + dispatches_left (fpoint s)) /\
  (exists taken later,
     taken ++ queue (fbus s2) = queue (fbus s) ++ later /\
     length taken <= takes_left (fpoint s)) /\
  (forall curIdx, fpoint s = AtSelect curIdx ->
     length (froutines s2) = length (froutines s) /\
     queue (fbus s) `prefix_of` queue (fbus s2)) /\
  ((0 < sem_free (max (fbus s)))%N ->
   exists s3, fine_run (replicate 4 ALoop) s1 = Ok s3 /\ fpoint s3 = AtReturn).
Proof.
  intros Hstop Hrun.
  assert (Hs1 : ch_closed (done (fbus s)) = false /\
                s1 = set_fbus (set_done (mkChan (ch_cap (done (fbus s)))
                                                (ch_len (done (fbus s))) true)
                                        (fbus s)) s).
  { simpl in Hstop. apply bind_Ok in Hstop as (eb & Hs & [= <-]).
    unfold Stop, close in Hs. destruct (ch_closed (done (fbus s))); [done|].
    simpl in Hs. by inversion Hs; subst. }
  destruct Hs1 as [Hopen Hs1].
  assert (Hc1 : ch_closed (done (fbus s1)) = true) by (by subst s1).
  destruct (fine_run_after_stop sched s1 s2 Hc1 Hrun)
    as (Hge & Hle & taken & later & Hq & Ht).
  assert (Hsame : froutines s1 = froutines s /\ fpoint s1 = fpoint s /\
                  queue (fbus s1) = queue (fbus s)) by (by subst s1).
  destruct Hsame as (Hrs & Hp & Hq1). rewrite Hrs, Hp in *. rewrite Hq1 in Hq.
  split; [split; lia|]. split; [|split].
  - exists taken, later. split; [done|lia].
  - intros i Hi. rewrite Hi in *. simpl in *. split; [lia|].
    destruct taken; [|simpl in Ht; lia]. simpl in Hq. rewrite Hq.
    by apply prefix_app_r.
  - intros Hfree. apply fine_loop_runs_out; [done|left; by subst s1|].
    destruct (fpoint s1); simpl; lia.
Qed.

Lemma Stop_ends_dispatch_after_the_turn_witness :
  (length (froutines demo_past_select)
     <= length (froutines (fine_state_after demo_after_stop
                             (fine_state_after [AStop] demo_past_select))) /\
   length (froutines (fine_state_after demo_after_stop
                        (fine_state_after [AStop] demo_past_select)))
     <= length (froutines demo_past_select) + 1) /\
  (exists taken later,
     taken ++ queue (fbus (fine_state_after demo_after_stop
                             (fine_state_after [AStop] demo_past_select)))
       = queue (fbus demo_past_select) ++ later /\
     length taken <= 1) /\
  (exists s3,
     fine_run (replicate 4 ALoop) (fine_state_after [AStop] demo_past_select) = Ok s3 /\
     fpoint s3 = AtReturn).
Proof.
  destruct (Stop_ends_dispatch_after_the_turn demo_after_stop demo_past_select
              (fine_state_after [AStop] demo_past_select)
              (fine_state_after demo_after_stop
                 (fine_state_after [AStop] demo_past_select)))
    as (Hn & Hq & _ & Hend); [vm_compute; reflexivity|vm_compute; reflexivity|].
  split; [exact Hn|]. split; [exact Hq|]. apply Hend. reflexivity.
Defined.

(** In that run the bound is reached. The request that was in the queue at
    the [Stop] is dispatched after it and its callback is called; the
    request published after the [Stop] stays in the queue; the loop has
    returned. *)
Example demo_dispatch_after_stop :
  fpoint demo_past_select = AtNext 0 /\
  froutines demo_past_select = [] /\
  length (froutines (fine_state_after demo_after_stop
                       (fine_state_after [AStop] demo_past_select))) = 1 /\
  fcalls (fine_state_after demo_after_stop (fine_state_after [AStop] demo_past_select))
    = [(0, Func 0, [PtrDNSRequest (Some 0)])] /\
  map Args (queue (fbus (fine_state_after demo_after_stop
                           (fine_state_after [AStop] demo_past_select))))
    = [[PtrDNSRequest (Some 1)]] /\
  fpoint (fine_state_after demo_after_stop (fine_state_after [AStop] demo_past_select))
    = AtReturn.
Proof. vm_compute. done. Qed.

(** A request published after the [Stop] can be the one dispatched: the
    loop had found nothing to wait for at its [select] and the queue was
    empty when [Stop] was called. *)
Example demo_publish_after_stop_dispatched :
  fcalls (fine_state_after
            [ASubscribe NewNameTopic (Func 0); ALoop; AStop;
             APublish NewNameTopic [PtrDNSRequest (Some 7)];
             ALoop; ALoop; ALoop; ALoop; ACall 0] NewFineSys)
    = [(0, Func 0, [PtrDNSRequest (Some 7)])].
Proof. vm_compute. reflexivity. Qed.

(** ** Unsubscribe *)

Lemma Unsubscribe_function (topic : string) (f : nat) (eb eb' : EventBus) :
  topic ≠ "" ->
  Unsubscribe topic (Func f) eb = Ok eb' ->
  topics eb' = <[topic := filter (fun c => c ≠ Func f) (subscribers eb topic)]> (topics eb) /\
  max eb' = max eb /\ queue eb' = queue eb /\ done eb' = done eb.
Proof.
  intros Ht Hu. unfold Unsubscribe in Hu.
  rewrite bool_decide_eq_false_2 in Hu by done. simpl in Hu.
  by inversion Hu; subst.
Qed.

(** The callback stays off the list of the topic as long as it is not
    subscribed to it again. *)
Lemma step_keeps_off (topic : string) (f : nat) (a : action) (s s' : Sys) :
  a ≠ ASubscribe topic (Func f) ->
  step a s = Ok s' ->
  (exists l, topics (bus s) !! topic = Some l /\ Func f ∉ l) ->
  exists l, topics (bus s') !! topic = Some l /\ Func f ∉ l.
Proof.
  intros Hne Hstep (l & Hl & Hf).
  destruct a as [t fn|t fn|t args| | |g]; simpl in Hstep.
  - apply bind_Ok in Hstep as (eb & Hs & [= <-]). unfold Subscribe in Hs.
    case_bool_decide; [inversion Hs; subst; eauto|].
    apply bind_Ok in Hs as (k & Hk & Hs).
    case_bool_decide; [inversion Hs; subst; eauto|].
    inversion Hs; subst; clear Hs. simpl.
    destruct (decide (t = topic)) as [->|Ht].
    + rewrite lookup_insert_eq. eexists. split; [reflexivity|].
      unfold subscribers, ValueOf. rewrite Hl. simpl.
      intros [Hin|Hin%list_elem_of_singleton]%elem_of_app; [done|].
      subst fn. done.
    + rewrite lookup_insert_ne by done. eauto.
  - apply bind_Ok in Hstep as (eb & Hs & [= <-]). unfold Unsubscribe in Hs.
    case_bool_decide; [inversion Hs; subst; eauto|].
    apply bind_Ok in Hs as (k & Hk & Hs).
    case_bool_decide; [inversion Hs; subst; eauto|].
    inversion Hs; subst; clear Hs. simpl.
    destruct (decide (t = topic)) as [->|Ht].
    + rewrite lookup_insert_eq. eexists. split; [reflexivity|].
      unfold subscribers. rewrite Hl. simpl.
      intros [_ Hin]%list_elem_of_filter. done.
    + rewrite lookup_insert_ne by done. eauto.
  - inversion Hstep; subst. simpl. unfold Publish. case_bool_decide; simpl; eauto.
  - apply bind_Ok in Hstep as (eb & Hs & [= <-]). unfold Stop in Hs.
    apply bind_Ok in Hs as (d & _ & Hs). inversion Hs; subst. simpl. eauto.
  - inversion Hstep; subst. destruct (loop_step_bus s) as [-> _]. eauto.
  - inversion Hstep; subst. destruct (call_step_bus g s) as [-> _]. eauto.
Qed.

Lemma run_keeps_off (topic : string) (f : nat) (sched : list action) (s s' : Sys) :
  Forall (fun a => a ≠ ASubscribe topic (Func f)) sched ->
  run sched s = Ok s' ->
  (exists l, topics (bus s) !! topic = Some l /\ Func f ∉ l) ->
  exists l, topics (bus s') !! topic = Some l /\ Func f ∉ l.
Proof.
  revert s. induction sched as [|a sched IH]; intros s Hall Hrun Hoff; simpl in Hrun.
  - by inversion Hrun; subst.
  - apply Forall_cons in Hall as [Ha Hall].
    apply bind_Ok in Hrun as (s1 & Hstep & Hrun).
    eauto using step_keeps_off.
Qed.

(** X4. Unsubscribing a function from a topic takes all its registrations off
    the list of the topic and keeps the others in their order. As long as
    the function is not subscribed to the topic again, a publish on the
    topic that is dispatched afterwards does not call it. *)
Theorem unsubscribed_not_called
    (topic : string) (f : nat) (sched0 sched1 sched2 : list action)
    (s s1 s2 s3 : Sys) (curIdx : nat) (p : pubReq) (q : Queue pubReq) :
  topic ≠ "" ->
  run sched0 NewSys = Ok s ->
  step (AUnsubscribe topic (Func f)) s = Ok s1 ->
  Forall (fun a => a ≠ ASubscribe topic (Func f)) sched1 ->
  run sched1 s1 = Ok s2 ->
  loop s2 = Running curIdx ->
  recv_ready (done (bus s2)) = false ->
  queue (bus s2) = p :: q ->
  Topic p = topic ->
  run (ALoop :: sched2) s2 = Ok s3 ->
  (subscribers (bus s1) topic
     = filter (fun c => c ≠ Func f) (subscribers (bus s) topic)) /\
  (Func f ∉ subscribers (bus s2) topic) /\
  Forall (fun c => c.1.2 ≠ Func f) (calls_of (length (routines s2)) s3).
Proof.
  intros Ht Hreach Hunsub Hsched Hrun1 Hl Hready Hq Hp Hrun2.
  pose proof Hunsub as Hu. simpl in Hu.
  apply bind_Ok in Hu as (eb & Hu & [= Hs1]).
  destruct (Unsubscribe_function topic f (bus s) eb Ht Hu) as (Htopics & _).
  assert (Hsubs : subscribers (bus s1) topic
                  = filter (fun c => c ≠ Func f) (subscribers (bus s) topic)).
  { subst s1. unfold subscribers at 1. simpl. by rewrite Htopics, lookup_insert_eq. }
  split; [exact Hsubs|].
  assert (Hoff1 : exists l, topics (bus s1) !! topic = Some l /\ Func f ∉ l).
  { subst s1. simpl. rewrite Htopics, lookup_insert_eq. eexists. split; [reflexivity|].
    intros [Hne _]%list_elem_of_filter. done. }
  destruct (run_keeps_off topic f sched1 s1 s2 Hsched Hrun1 Hoff1) as (l & Hl2 & Hfl).
  split; [unfold subscribers; by rewrite Hl2|].
  set (g := length (routines s2)).
  assert (HJ : calls_of g s3 ++ pending g s3 = tag_calls g l (Args p)).
  { simpl in Hrun2.
    assert (Hstep : loop_step s2 = spawn l (Args p) (set_bus (set_queue q (bus s2)) s2)).
    { unfold loop_step, processRequests_turn. rewrite Hl, Hready, Hq. simpl.
      by rewrite Hp, Hl2. }
    rewrite Hstep in Hrun2.
    destruct (spawn_keeps g l (Args p) (set_bus (set_queue q (bus s2)) s2)
                (tag_calls g l (Args p))) as [Hg HJ].
    { right. split; [done|].
      change (calls_of g (set_bus (set_queue q (bus s2)) s2)) with (calls_of g s2).
      unfold g. rewrite calls_of_next; [done|].
      eapply run_calls_bounded; [exact Hrun1|].
      eapply step_calls_bounded; [exact Hunsub|].
      eapply run_calls_bounded; [exact Hreach|]. apply Forall_nil_2. }
    eapply run_keeps; eauto. }
  apply Forall_forall. intros c Hc Heq.
  assert (Hin : c ∈ tag_calls g l (Args p)).
  { rewrite <- HJ. apply elem_of_app. by left. }
  apply tag_calls_elem in Hin as [Hin _]. by rewrite Heq in Hin.
Qed.

Lemma unsubscribed_not_called_witness :
  (subscribers (bus demo_off) NewNameTopic
     = filter (fun c => c ≠ Func 0) (subscribers (bus demo_subscribed) NewNameTopic)) /\
  (Func 0 ∉ subscribers (bus demo_off_published) NewNameTopic) /\
  Forall (fun c => c.1.2 ≠ Func 0)
         (calls_of (length (routines demo_off_published)) demo_off_dispatched).
Proof.
  apply (unsubscribed_not_called NewNameTopic 0 demo_unsubscribed demo_republished
           [ACall 0; ACall 0] demo_subscribed demo_off demo_off_published
           demo_off_dispatched 0 (mkPubReq NewNameTopic [PtrDNSRequest (Some 0)]) []).
  - discriminate.
  - vm_compute. reflexivity.
  - vm_compute. reflexivity.
  - unfold demo_republished. apply Forall_cons_2; [discriminate|].
    apply Forall_cons_2; [discriminate|]. apply Forall_nil_2.
  - vm_compute. reflexivity.
  - vm_compute. reflexivity.
  - vm_compute. reflexivity.
  - vm_compute. reflexivity.
  - reflexivity.
  - vm_compute. reflexivity.
Defined.

(** In that run the function 1 alone is left on the topic, and called. *)
Example demo_off_calls :
  subscribers (bus demo_subscribed) NewNameTopic = [Func 0; Func 1; Func 0] /\
  subscribers (bus demo_off) NewNameTopic = [Func 1] /\
  calls demo_off_dispatched = [(0, Func 1, [PtrDNSRequest (Some 0)])].
Proof. vm_compute. done. Qed.

(** ** The order of dispatch *)

Lemma run_publish_all (ps : list pubReq) (rest : list action) :
  forall s : Sys,
    Forall (fun p => Topic p ≠ "") ps ->
    run (publish_all ps ++ rest) s
      = run rest (set_bus (set_queue (queue (bus s) ++ ps) (bus s)) s).
Proof.
  induction ps as [|p ps IH]; intros s Hps; simpl.
  - rewrite app_nil_r. by destruct s as [[] ? ? ?].
  - apply Forall_cons in Hps as [Hp Hps]. rewrite IH by done.
    unfold Publish. rewrite bool_decide_eq_false_2 by done. simpl.
    unfold set_bus, set_queue, Append, ValueOf. simpl. rewrite map_id.
    destruct p. simpl. by rewrite <- app_assoc.
Qed.

Lemma run_dispatch_queue (qs : Queue pubReq) :
  forall (s : Sys) (i : nat),
    loop s = Running i ->
    recv_ready (done (bus s)) = false ->
    queue (bus s) = qs ->
    (N.of_nat (length qs) <= sem_free (max (bus s)))%N ->
    exists s',
      run (replicate (length qs) ALoop) s = Ok s' /\
      routines s' = routines s ++ omap (started (bus s)) qs /\
      queue (bus s') = [] /\
      calls s' = calls s /\
      topics (bus s') = topics (bus s).
Proof.
  induction qs as [|p qs IH]; intros s i Hl Hready Hq Hfree.
  - exists s. simpl. by rewrite app_nil_r.
  - simpl. unfold loop_step, processRequests_turn. rewrite Hl, Hready, Hq. simpl.
    unfold started at 1. simpl.
    destruct (topics (bus s) !! Topic p) as [cbs|] eqn:Hp; simpl.
    + unfold spawn, Acquire. simpl.
      destruct (1 <=? sem_free (max (bus s)))%N eqn:Hle;
        [|apply N.leb_gt in Hle; simpl in Hfree; lia].
      edestruct (IH (mkSys (set_max (mkSemaphore (sem_free (max (bus s)) - 1))
                                    (set_queue qs (bus s)))
                           (Running 0)
                           (routines s ++ [mkGoroutine cbs (Args p) false]) (calls s)) 0)
        as (s' & Hrun & Hrs & Hq' & Hcalls & Htopics);
        [done|done|done|simpl in *; lia|].
      exists s'. split; [exact Hrun|]. simpl in *. rewrite Hrs, <- app_assoc. done.
    + edestruct (IH (set_loop (Running 0) (set_bus (set_queue qs (bus s)) s)) 0)
        as (s' & Hrun & Hrs & Hq' & Hcalls & Htopics);
        [done|done|done|simpl in *; lia|].
      exists s'. split; [exact Hrun|]. done.
Qed.

(** X5. Requests are dispatched in the order in which they were published.
    With the dispatch loop idle, the queue empty and slots enough in the
    semaphore: after the publishes [ps] and as many turns of the loop, the
    goroutines started are those of the publishes whose topic has an entry,
    in the order of [ps], each with the subscriber list of its topic and
    the arguments of its publish; the publishes on a topic without an entry
    are taken from the queue and dropped. *)
Theorem publishes_dispatched_in_order (s : Sys) (curIdx : nat) (ps : list pubReq) :
  loop s = Running curIdx ->
  recv_ready (done (bus s)) = false ->
  queue (bus s) = [] ->
  Forall (fun p => Topic p ≠ "") ps ->
  (N.of_nat (length ps) <= sem_free (max (bus s)))%N ->
  exists s',
    run (publish_all ps ++ replicate (length ps) ALoop) s = Ok s' /\
    routines s' = routines s ++ omap (started (bus s)) ps /\
    queue (bus s') = [] /\
    calls s' = calls s.
Proof.
  intros Hl Hready Hq Hps Hfree. rewrite run_publish_all by done. rewrite Hq. simpl.
  destruct (run_dispatch_queue ps
              (set_bus (set_queue ps (bus s)) s) curIdx)
    as (s' & Hrun & Hrs & Hq' & Hcalls & _); [done|done|done|done|].
  exists s'. done.
Qed.

Lemma publishes_dispatched_in_order_witness :
  exists s',
    run (publish_all demo_three_publishes
           ++ replicate (length demo_three_publishes) ALoop) demo_subscribed = Ok s' /\
    routines s' = routines demo_subscribed
                    ++ omap (started (bus demo_subscribed)) demo_three_publishes /\
    queue (bus s') = [] /\
    calls s' = calls demo_subscribed.
Proof.
  apply (publishes_dispatched_in_order demo_subscribed 0 demo_three_publishes).
  - vm_compute. reflexivity.
  - vm_compute. reflexivity.
  - vm_compute. reflexivity.
  - unfold demo_three_publishes. repeat (apply Forall_cons_2; [discriminate|]).
    apply Forall_nil_2.
  - vm_compute. discriminate.
Defined.

(** In that run two goroutines are started, the one of the first publish
    before the one of the third. *)
Example demo_three_publishes_started :
  omap (started (bus demo_subscribed)) demo_three_publishes
    = [mkGoroutine [Func 0; Func 1; Func 0] [PtrDNSRequest (Some 0)] false;
       mkGoroutine [Func 0; Func 1; Func 0] [PtrDNSRequest (Some 1)] false].
Proof. vm_compute. reflexivity. Qed.

(** ** Subscribe, then Unsubscribe *)

Lemma filter_off (f : any) (l : list any) :
  f ∉ l -> filter (fun c => c ≠ f) (l ++ [f]) = l.
Proof.
  intros Hf. rewrite filter_app, filter_cons_False by (intros H; by apply H).
  rewrite filter_nil, app_nil_r.
  induction l as [|c l IH]; [done|].
  apply not_elem_of_cons in Hf as [Hc Hl].
  rewrite filter_cons_True by done. by rewrite IH.
Qed.

(** X6. Subscribing a function that is not on the list of a topic and
    unsubscribing it again gives every topic the subscriber list it had, and
    leaves the queue, the semaphore and the done channel as they were. The
    topic keeps an entry in the map all the same, with the list it had, so a
    publish on it is dispatched (to that list) and not dropped. *)
Theorem Subscribe_Unsubscribe_restores (topic : string) (f : nat) (eb : EventBus) :
  topic ≠ "" ->
  Func f ∉ subscribers eb topic ->
  exists eb1 eb2,
    Subscribe topic (Func f) eb = Ok eb1 /\
    Unsubscribe topic (Func f) eb1 = Ok eb2 /\
    (forall t, subscribers eb2 t = subscribers eb t) /\
    topics eb2 !! topic = Some (subscribers eb topic) /\
    max eb2 = max eb /\ queue eb2 = queue eb /\ done eb2 = done eb.
Proof.
  intros Ht Hf. unfold Subscribe, Unsubscribe.
  rewrite !bool_decide_eq_false_2 by done. simpl.
  eexists _, _. split; [reflexivity|]. split; [reflexivity|]. simpl.
  assert (Hsub : subscribers
                   (set_topics (<[topic := subscribers eb topic ++ [ValueOf (Func f)]]>
                                  (topics eb)) eb) topic
                 = subscribers eb topic ++ [Func f]).
  { unfold subscribers at 1. simpl. by rewrite lookup_insert_eq. }
  rewrite Hsub, filter_off by done.
  split; [|by rewrite lookup_insert_eq].
  intros t. unfold subscribers at 1. simpl.
  destruct (decide (topic = t)) as [->|Hne].
  - by rewrite lookup_insert_eq.
  - rewrite !lookup_insert_ne by done. done.
Qed.

Lemma Subscribe_Unsubscribe_restores_witness :
  exists eb1 eb2,
    Subscribe NewNameTopic (Func 0) NewEventBus = Ok eb1 /\
    Unsubscribe NewNameTopic (Func 0) eb1 = Ok eb2 /\
    (forall t, subscribers eb2 t = subscribers NewEventBus t) /\
    topics eb2 !! NewNameTopic = Some (subscribers NewEventBus NewNameTopic) /\
    max eb2 = max NewEventBus /\ queue eb2 = queue NewEventBus /\
    done eb2 = done NewEventBus.
Proof.
  apply (Subscribe_Unsubscribe_restores NewNameTopic 0 NewEventBus).
  - discriminate.
  - apply not_elem_of_nil.
Defined.

End EventBusMore.

(** * Further properties of the name service *)

Module NameServiceMore.
Import utils core amass.
Import EventBusSpec NameServiceSpec.

(** ** Resolved and checkSubdomain, case by case *)

(** The state in which [checkSubdomain] promotes the candidate of [r]. *)
Lemma checkSubdomain_promotion (l : loc) (r : DNSRequest.t) (w : World) :
  requests w !! l = Some r ->
  passes_checks r ->
  alias_free w (candidate r) (DNSRequest.Domain r) ->
  checkSubdomain (Some l) w =
    let w1 := match graph (ns w) with
              | Some _ => set_queries (queries w ++ [alias_query w r]) w
              | None => w
              end in
    let pw := new_request {| DNSRequest.Name := candidate r;
                             DNSRequest.Domain := DNSRequest.Domain r;
                             DNSRequest.Records := [];
                             DNSRequest.Tag := DNSRequest.Tag r;
                             DNSRequest.Source := DNSRequest.Source r |} w1 in
    let tw := timesForSubdomain (candidate r) pw.2 in
    Ok (bus_Publish NewSubdomainTopic [PtrDNSRequest (Some pw.1); Int tw.1] tw.2).
Proof.
  intros Hr (Hnum & Hdom & Htcp & Hudp & Htls) Halias.
  unfold checkSubdomain. simpl. rewrite Hr. simpl.
  rewrite (proj2 (Nat.ltb_ge _ _) Hnum), (proj2 (Nat.ltb_ge _ _) Hdom).
  rewrite !bool_decide_eq_false_2 by done. simpl.
  fold (candidate r). fold (alias_query w r). unfold alias_free in Halias.
  fold (alias_query w r) in Halias.
  destruct (graph (ns w)) as [g|]; [rewrite Halias|]; cbv zeta; unfold new_request;
    simpl; by destruct (timesForSubdomain _ _).
Qed.

(** The state in which [checkSubdomain] ends for an alias. *)
Lemma checkSubdomain_alias (l : loc) (r : DNSRequest.t) (w : World) (g : handlers.DataHandler) :
  requests w !! l = Some r ->
  passes_checks r ->
  graph (ns w) = Some g ->
  handlers.IsCNAMENode g (alias_query w r) = true ->
  checkSubdomain (Some l) w = Ok (set_queries (queries w ++ [alias_query w r]) w).
Proof.
  intros Hr (Hnum & Hdom & Htcp & Hudp & Htls) Hg Hc.
  unfold checkSubdomain. simpl. rewrite Hr. simpl.
  rewrite (proj2 (Nat.ltb_ge _ _) Hnum), (proj2 (Nat.ltb_ge _ _) Hdom).
  rewrite !bool_decide_eq_false_2 by done. simpl.
  fold (candidate r). fold (alias_query w r). by rewrite Hg, Hc.
Qed.

#[local] Arguments timesForSubdomain : simpl never.

#[local] Instance passes_checks_dec (r : DNSRequest.t) : Decision (passes_checks r).
Proof. unfold passes_checks. apply _. Defined.

(** The three ways in which [Resolved] ends on a request. *)
Lemma Resolved_cases (now : Time) (l : loc) (r : DNSRequest.t) (w : World) :
  requests w !! l = Some r ->
  exists w',
    Resolved now (Some l) w = Ok w' /\
    ((IsDomainInScope (config (ns w)) (DNSRequest.Name r) = true /\
      passes_checks r /\
      alias_free w (candidate r) (DNSRequest.Domain r) /\
      promoted r (candidate r) w w' /\
      queries w' = match graph (ns w) with
                   | Some _ => queries w ++ [alias_query w r]
                   | None => queries w
                   end) \/
     (IsDomainInScope (config (ns w)) (DNSRequest.Name r) = true /\
      passes_checks r /\
      ~ alias_free w (candidate r) (DNSRequest.Domain r) /\
      is_Some (graph (ns w)) /\
      w' = set_queries (queries w ++ [alias_query w r]) (SetActive now w)) \/
     ((IsDomainInScope (config (ns w)) (DNSRequest.Name r) = false \/ ~ passes_checks r) /\
      w' = SetActive now w)).
Proof.
  intros Hr. unfold Resolved. simpl. rewrite Hr. simpl.
  destruct (IsDomainInScope (config (ns w)) (DNSRequest.Name r)) eqn:Hscope;
    [|eexists; split; [reflexivity|]; right; right; auto].
  destruct (decide (passes_checks r)) as [Hc|Hc];
    [|rewrite (checkSubdomain_rejects l r (SetActive now w) Hr Hc);
      eexists; split; [reflexivity|]; right; right; auto].
  assert (Hpromote : alias_free w (candidate r) (DNSRequest.Domain r) ->
    exists w', checkSubdomain (Some l) (SetActive now w) = Ok w' /\
      promoted r (candidate r) w w' /\
      queries w' = match graph (ns w) with
                   | Some _ => queries w ++ [alias_query w r]
                   | None => queries w
                   end).
  { intros Ha. rewrite (checkSubdomain_promotion l r (SetActive now w) Hr Hc Ha).
    cbv zeta. eexists. split; [reflexivity|].
    set (w1 := match graph (ns (SetActive now w)) with
               | Some _ => _
               | None => _
               end).
    assert (Hw1 : ebus w1 = ebus w /\
                  queries w1 = match graph (ns w) with
                               | Some _ => queries w ++ [alias_query w r]
                               | None => queries w
                               end).
    { unfold w1. simpl. by destruct (graph (ns w)). }
    destruct Hw1 as [Hb Hq].
    set (pw := new_request _ w1).
    assert (Hpw : requests pw.2 !! pw.1 = Some {|
                    DNSRequest.Name := candidate r;
                    DNSRequest.Domain := DNSRequest.Domain r;
                    DNSRequest.Records := [];
                    DNSRequest.Tag := DNSRequest.Tag r;
                    DNSRequest.Source := DNSRequest.Source r |}
                  /\ ebus pw.2 = ebus w /\ queries pw.2 = queries w1).
    { unfold pw, new_request. simpl. split; [apply lookup_insert_eq|done]. }
    destruct Hpw as (Hp & Hpb & Hpq).
    destruct (timesForSubdomain_frame (candidate r) pw.2) as (Fb & Fr & _ & Fq).
    split.
    - eexists _, _.
      edestruct (published_bus_Publish NewSubdomainTopic) as [Hpub _];
        [| |rewrite Hpub]; [by rewrite Fb|done|].
      split; [reflexivity|].
      change (requests (timesForSubdomain (candidate r) pw.2).2 !! pw.1 = Some {|
                DNSRequest.Name := candidate r;
                DNSRequest.Domain := DNSRequest.Domain r;
                DNSRequest.Records := [];
                DNSRequest.Tag := DNSRequest.Tag r;
                DNSRequest.Source := DNSRequest.Source r |}).
      by rewrite Fr.
    - change (queries (timesForSubdomain (candidate r) pw.2).2 = match graph (ns w) with
                   | Some _ => queries w ++ [alias_query w r]
                   | None => queries w
                   end).
      by rewrite Fq, Hpq. }
  destruct (graph (ns w)) as [g|] eqn:Hg.
  - destruct (handlers.IsCNAMENode g (alias_query w r)) eqn:Hcname.
    + rewrite (checkSubdomain_alias l r (SetActive now w) g Hr Hc Hg Hcname).
      eexists. split; [reflexivity|]. right. left.
      split; [done|]. split; [done|]. split; [|split; [eauto|done]].
      unfold alias_free. rewrite Hg. fold (alias_query w r). by rewrite Hcname.
    + assert (Ha : alias_free w (candidate r) (DNSRequest.Domain r)).
      { unfold alias_free. by rewrite Hg. }
      destruct (Hpromote Ha) as (w' & Hrun & Hp & Hq).
      exists w'. split; [done|]. left. done.
  - assert (Ha : alias_free w (candidate r) (DNSRequest.Domain r)).
    { unfold alias_free. by rewrite Hg. }
    destruct (Hpromote Ha) as (w' & Hrun & Hp & Hq).
    exists w'. split; [done|]. left. done.
Qed.

(** X7. [Resolved] promotes the candidate of a request exactly when the name
    is in scope, the request passes the label checks and the candidate is
    not an alias. In every other case it publishes nothing, creates no
    request and does not ask the counter goroutine for a count. *)
Theorem Resolved_promotes_exactly_when
    (now : Time) (l : loc) (r : DNSRequest.t) (w : World) :
  requests w !! l = Some r ->
  exists w',
    Resolved now (Some l) w = Ok w' /\
    (IsDomainInScope (config (ns w)) (DNSRequest.Name r) = true ->
     passes_checks r ->
     alias_free w (candidate r) (DNSRequest.Domain r) ->
     promoted r (candidate r) w w') /\
    (IsDomainInScope (config (ns w)) (DNSRequest.Name r) = false \/
     ~ passes_checks r \/
     ~ alias_free w (candidate r) (DNSRequest.Domain r) ->
     published w w' = [] /\ requests w' = requests w /\
     counter w' = counter w /\ sent w' = sent w /\ chans w' = chans w).
Proof.
  intros Hr.
  destruct (Resolved_cases now l r w Hr)
    as (w' & Hrun & [(Hs & Hc & Ha & Hp & _)|[(Hs & Hc & Ha & _ & Hw)|(Hno & Hw)]]);
    exists w'; (split; [exact Hrun|]).
  - split; [done|]. intros [Hout|[Hnc|Hna]]; [congruence|done|done].
  - subst w'. split; [done|]. intros _. rewrite published_same by done. done.
  - subst w'. split.
    + intros Hs Hc _. destruct Hno; [congruence|done].
    + intros _. rewrite published_same by done. done.
Qed.

Lemma Resolved_promotes_exactly_when_witness :
  (exists w',
     Resolved zeroTime (Some 0) (demo_with_graph "www.bar.example.com") = Ok w' /\
     promoted (demo_request "www.bar.example.com" "example.com" "dns") "bar.example.com"
              (demo_with_graph "www.bar.example.com") w') /\
  (exists w',
     Resolved zeroTime (Some 0) (demo_with_graph "www.foo.example.com") = Ok w' /\
     published (demo_with_graph "www.foo.example.com") w' = []).
Proof.
  split.
  - destruct (Resolved_promotes_exactly_when zeroTime 0
                (demo_request "www.bar.example.com" "example.com" "dns")
                (demo_with_graph "www.bar.example.com"))
      as (w' & Hrun & Hyes & _); [vm_compute; reflexivity|].
    exists w'. split; [exact Hrun|]. apply Hyes.
    + reflexivity.
    + vm_compute. repeat split; (lia || discriminate).
    + vm_compute. reflexivity.
  - destruct (Resolved_promotes_exactly_when zeroTime 0
                (demo_request "www.foo.example.com" "example.com" "dns")
                (demo_with_graph "www.foo.example.com"))
      as (w' & Hrun & _ & Hno); [vm_compute; reflexivity|].
    exists w'. split; [exact Hrun|]. apply Hno.
    right. right. vm_compute. discriminate.
Defined.

(** X8. The graph is asked about a name at most once per resolved name, and
    about the candidate, not the resolved name: [Resolved] makes one query,
    with the identifier of the enumeration, the candidate and the domain of
    the request, when a graph is registered, the name is in scope and the
    request passes the label checks; in every other case it makes none. *)
Theorem Resolved_queries_graph_once
    (now : Time) (l : loc) (r : DNSRequest.t) (w : World) :
  requests w !! l = Some r ->
  exists w',
    Resolved now (Some l) w = Ok w' /\
    (IsDomainInScope (config (ns w)) (DNSRequest.Name r) = true ->
     passes_checks r ->
     is_Some (graph (ns w)) ->
     queries w' = queries w ++ [alias_query w r]) /\
    (IsDomainInScope (config (ns w)) (DNSRequest.Name r) = false \/
     ~ passes_checks r \/
     graph (ns w) = None ->
     queries w' = queries w).
Proof.
  intros Hr.
  destruct (Resolved_cases now l r w Hr)
    as (w' & Hrun & [(Hs & Hc & Ha & _ & Hq)|[(Hs & Hc & _ & Hg & Hw)|(Hno & Hw)]]);
    exists w'; (split; [exact Hrun|]).
  - split.
    + intros _ _ [g Hg]. by rewrite Hg in Hq.
    + intros [Hout|[Hnc|Hg]]; [congruence|done|]. by rewrite Hg in Hq.
  - subst w'. split; [done|]. intros [Hout|[Hnc|Hnone]]; [congruence|done|].
    rewrite Hnone in Hg. by destruct Hg.
  - subst w'. split; [|done]. intros Hs Hc _. destruct Hno; [congruence|done].
Qed.

Lemma Resolved_queries_graph_once_witness :
  exists w',
    Resolved zeroTime (Some 0) (demo_with_graph "www.foo.example.com") = Ok w' /\
    queries w' = [handlers.mkParams "6ba7b810-9dad-11d1-80b4-00c04fd430c8"
                                    "foo.example.com" "example.com"].
Proof.
  destruct (Resolved_queries_graph_once zeroTime 0
              (demo_request "www.foo.example.com" "example.com" "dns")
              (demo_with_graph "www.foo.example.com"))
    as (w' & Hrun & Hyes & _); [vm_compute; reflexivity|].
  exists w'. split; [exact Hrun|]. rewrite Hyes.
  - reflexivity.
  - reflexivity.
  - vm_compute. repeat split; (lia || discriminate).
  - vm_compute. eauto.
Defined.

(** ** The count of a promotion *)

(** X9. The count published with a promotion is one more than the count the
    counter goroutine holds for the candidate: with no other promotion in
    flight and the candidate seen [k] times so far, [checkSubdomain]
    publishes the count [k + 1], records it for the candidate, and leaves
    the counts of the other subdomains as they are. *)
Theorem promotion_count_is_next
    (l : loc) (r : DNSRequest.t) (w : World) (k : nat) :
  requests w !! l = Some r ->
  passes_checks r ->
  alias_free w (candidate r) (DNSRequest.Domain r) ->
  times (ns w) = [] ->
  subdomains (counter w) !! candidate r = entry k ->
  (Z.of_nat k < int_max)%Z ->
  exists w' p,
    checkSubdomain (Some l) w = Ok w' /\
    published w w'
      = [mkPubReq NewSubdomainTopic [PtrDNSRequest (Some p); Int (Z.of_nat (S k))]] /\
    subdomains (counter w') !! candidate r = entry (S k) /\
    (forall sub, sub ≠ candidate r ->
       subdomains (counter w') !! sub = subdomains (counter w) !! sub) /\
    times (ns w') = [].
Proof.
  intros Hr Hc Ha Hq Hk Hmax.
  rewrite (checkSubdomain_promotion l r w Hr Hc Ha). cbv zeta.
  set (w1 := match graph (ns w) with
             | Some _ => _
             | None => _
             end).
  set (pw := new_request _ w1).
  assert (Hpw : times (ns pw.2) = [] /\ counter pw.2 = counter w /\ ebus pw.2 = ebus w).
  { unfold pw, new_request, w1. simpl. by destruct (graph (ns w)). }
  destruct Hpw as (Hpq & Hpc & Hpb).
  destruct (timesForSubdomain_idle (candidate r) pw.2 Hpq) as (Hn & Hq' & Hm).
  destruct (timesForSubdomain_frame (candidate r) pw.2) as (Fb & _).
  assert (Hcount : (timesForSubdomain (candidate r) pw.2).1 = Z.of_nat (S k)).
  { rewrite Hn, Hpc, Hk. destruct k as [|k]; [done|]. simpl entry. cbv iota.
    rewrite wrap_int_small; unfold int_min, int_max in *; lia. }
  eexists _, pw.1. split; [reflexivity|].
  edestruct (published_bus_Publish NewSubdomainTopic) as [Hpub _];
    [| |rewrite Hpub]; [by rewrite Fb|done|].
  split; [by rewrite Hcount|].
  change (subdomains (counter (timesForSubdomain (candidate r) pw.2).2) !! candidate r
            = entry (S k) /\
          (forall sub, sub ≠ candidate r ->
             subdomains (counter (timesForSubdomain (candidate r) pw.2).2) !! sub
               = subdomains (counter w) !! sub) /\
          times (ns (timesForSubdomain (candidate r) pw.2).2) = []).
  rewrite Hm, Hcount, Hpc. split; [by rewrite lookup_insert_eq|].
  split; [|done]. intros sub Hne. by rewrite lookup_insert_ne.
Qed.

Lemma promotion_count_is_next_witness :
  exists w' p,
    checkSubdomain (Some 0) (demo_resolved "www.foo.example.com") = Ok w' /\
    published (demo_resolved "www.foo.example.com") w'
      = [mkPubReq NewSubdomainTopic [PtrDNSRequest (Some p); Int (Z.of_nat 1)]] /\
    subdomains (counter w') !! "foo.example.com" = entry 1 /\
    (forall sub, sub ≠ "foo.example.com" ->
       subdomains (counter w') !! sub
         = subdomains (counter (demo_resolved "www.foo.example.com")) !! sub) /\
    times (ns w') = [].
Proof.
  apply (promotion_count_is_next 0
           (demo_request "www.foo.example.com" "example.com" "dns")
           (demo_resolved "www.foo.example.com") 0).
  - vm_compute. reflexivity.
  - vm_compute. repeat split; (lia || discriminate).
  - exact I.
  - reflexivity.
  - reflexivity.
  - vm_compute. reflexivity.
Defined.

(** ** What the handlers write in the service *)

Lemma timesForSubdomain_ns (sub : string) (w : World) :
  ns (timesForSubdomain sub w).2
    = set_times (times (ns (timesForSubdomain sub w).2)) (ns w).
Proof.
  unfold timesForSubdomain.
  by destruct (processTimesRequests _ _ _) as [[st q] out].
Qed.

Lemma set_times_same (n : NameService) : set_times (times n) n = n.
Proof. by destruct n. Qed.

Section writes.
Context `{Helpers}.

(** [checkSubdomain] writes the queue of the counter goroutine and no other
    field of the service. *)
Lemma checkSubdomain_ns (req : option loc) (w w' : World) :
  checkSubdomain req w = Ok w' ->
  ns w' = set_times (times (ns w')) (ns w) /\ outputs w' = outputs w.
Proof.
  intros Hrun. destruct req as [l|]; [|discriminate].
  destruct (requests w !! l) as [r|] eqn:Hr;
    [|unfold checkSubdomain, deref in Hrun; by rewrite Hr in Hrun].
  destruct (decide (passes_checks r)) as [Hc|Hc];
    [|rewrite (checkSubdomain_rejects l r w Hr Hc) in Hrun; inversion Hrun; subst;
      by rewrite set_times_same].
  destruct (graph (ns w)) as [g|] eqn:Hg.
  - destruct (handlers.IsCNAMENode g (alias_query w r)) eqn:Hcname.
    + rewrite (checkSubdomain_alias l r w g Hr Hc Hg Hcname) in Hrun.
      inversion Hrun; subst. simpl. by rewrite set_times_same.
    + rewrite (checkSubdomain_promotion l r w Hr Hc) in Hrun
        by (unfold alias_free; by rewrite Hg).
      cbv zeta in Hrun. rewrite Hg in Hrun. inversion Hrun; subst; clear Hrun.
      destruct (timesForSubdomain_frame (candidate r)
                  (new_request {| DNSRequest.Name := candidate r;
                                  DNSRequest.Domain := DNSRequest.Domain r;
                                  DNSRequest.Records := [];
                                  DNSRequest.Tag := DNSRequest.Tag r;
                                  DNSRequest.Source := DNSRequest.Source r |}
                     (set_queries (queries w ++ [alias_query w r]) w)).2) as (_ & _ & Fo & _).
      split; [exact (timesForSubdomain_ns _ _)|exact Fo].
  - rewrite (checkSubdomain_promotion l r w Hr Hc) in Hrun
      by (unfold alias_free; by rewrite Hg).
    cbv zeta in Hrun. rewrite Hg in Hrun. inversion Hrun; subst; clear Hrun.
    destruct (timesForSubdomain_frame (candidate r)
                (new_request {| DNSRequest.Name := candidate r;
                                DNSRequest.Domain := DNSRequest.Domain r;
                                DNSRequest.Records := [];
                                DNSRequest.Tag := DNSRequest.Tag r;
                                DNSRequest.Source := DNSRequest.Source r |} w).2)
      as (_ & _ & Fo & _).
    split; [exact (timesForSubdomain_ns _ _)|exact Fo].
Qed.

(** [Resolved] writes the time stamp and that queue. *)
Lemma Resolved_ns (now : Time) (req : option loc) (w w' : World) :
  Resolved now req w = Ok w' ->
  ns w' = set_times (times (ns w')) (set_active now (ns w)) /\ outputs w' = outputs w.
Proof.
  intros Hrun. unfold Resolved in Hrun.
  destruct (deref req (SetActive now w)) as [r0|]; simpl in Hrun; [|discriminate].
  destruct (IsDomainInScope _ _).
  - by apply checkSubdomain_ns in Hrun.
  - inversion Hrun; subst. split; [|done].
    exact (eq_sym (set_times_same (set_active now (ns w)))).
Qed.

(** [newNameEvent] writes the two name filters and the inbox. *)
Lemma newNameEvent_settings (req : option loc) (w w' : World) :
  newNameEvent req w = Ok w' ->
  config (ns w') = config (ns w) /\ sanityRE (ns w') = sanityRE (ns w) /\
  filter (ns w') = filter (ns w) /\ ebus w' = ebus w /\ outputs w' = outputs w.
Proof.
  intros Hrun. destruct req as [l|]; [|by inversion Hrun].
  destruct (requests w !! l) as [r|] eqn:Hr;
    [|unfold newNameEvent, deref in Hrun; simpl in Hrun; by rewrite Hr in Hrun].
  destruct (decide (DNSRequest.Name r = "")) as [Hn|Hn];
    [rewrite (newNameEvent_empty l r w) in Hrun by auto; by inversion Hrun|].
  destruct (decide (DNSRequest.Domain r = "")) as [Hd|Hd];
    [rewrite (newNameEvent_empty l r w) in Hrun by auto; by inversion Hrun|].
  rewrite (newNameEvent_accepts l r w Hr Hn Hd) in Hrun. cbv zeta in Hrun.
  destruct (TrustedTag _), (bool_decide _); by inversion Hrun; subst.
Qed.

(** [performRequest] writes the time stamp and, in passive mode, records
    the name in the output filter. *)
Lemma performRequest_settings (now : Time) (req : option loc) (w w' : World) :
  performRequest now req w = Ok w' ->
  config (ns w') = config (ns w) /\ sanityRE (ns w') = sanityRE (ns w) /\
  filter (ns w) ⊆ filter (ns w') /\ dnsRequests (ns w') = dnsRequests (ns w).
Proof.
  intros Hrun. unfold performRequest in Hrun. simpl in Hrun.
  destruct (Passive (config (ns w))).
  - destruct (deref req (SetActive now w)) as [r0|]; simpl in Hrun; [|discriminate].
    destruct (negb _ && _); inversion Hrun; subst; simpl;
      (split; [done|]; split; [done|]; split; [|done]);
      apply union_subseteq_r.
  - by inversion Hrun; subst.
Qed.

(** No handler writes the configuration or the sanity expression, and the
    output filter only grows. *)
Lemma handle_settings (e : handled) (w w' : World) :
  handle e w = Ok w' ->
  config (ns w') = config (ns w) /\ sanityRE (ns w') = sanityRE (ns w) /\
  filter (ns w) ⊆ filter (ns w').
Proof.
  destruct e as [req|now req|now]; simpl; intros Hrun.
  - apply newNameEvent_settings in Hrun as (Hc & Hs & Hf & _). by rewrite Hf.
  - apply Resolved_ns in Hrun as [Hn _]. by rewrite Hn.
  - unfold processRequests_turn in Hrun.
    destruct (Next (dnsRequests (ns w))) as [[req q]|]; [|by inversion Hrun].
    apply performRequest_settings in Hrun as (Hc & Hs & Hf & _). done.
Qed.

Lemma handle_all_settings (es : list handled) (w w' : World) :
  handle_all es w = Ok w' ->
  config (ns w') = config (ns w) /\ sanityRE (ns w') = sanityRE (ns w) /\
  filter (ns w) ⊆ filter (ns w').
Proof.
  revert w. induction es as [|e rest IH]; intros w Hrun; simpl in Hrun.
  - by inversion Hrun.
  - apply bind_Ok in Hrun as (w1 & Hone & Hrest).
    apply handle_settings in Hone as (Hc1 & Hs1 & Hf1).
    apply IH in Hrest as (Hc2 & Hs2 & Hf2).
    rewrite Hc2, Hs2, Hc1, Hs1. split; [done|]. split; [done|]. by etrans.
Qed.

(** ** One output per name *)

(** X10. In passive mode a name is sent to the output at most once. Once
    [performRequest] has handled a request, a later request with the same
    name publishes nothing and creates no Output record, whatever the
    service handled in between, and also when the first request was not
    sent to the output because its name failed the sanity expression. *)
Theorem passive_output_at_most_once
    (now now' : Time) (l l' : loc) (r r' : DNSRequest.t) (mid : list handled)
    (w w1 w2 : World) :
  Passive (config (ns w)) = true ->
  requests w !! l = Some r ->
  performRequest now (Some l) w = Ok w1 ->
  handle_all mid w1 = Ok w2 ->
  requests w2 !! l' = Some r' ->
  DNSRequest.Name r' = DNSRequest.Name r ->
  exists w3,
    performRequest now' (Some l') w2 = Ok w3 /\
    published w2 w3 = [] /\
    outputs w3 = outputs w2.
Proof.
  intros Hp Hr Hfirst Hmid Hr' Hname.
  assert (Hseen : DNSRequest.Name r ∈ filter (ns w1)).
  { rewrite (performRequest_passive now l r w Hp Hr) in Hfirst. cbv zeta in Hfirst.
    destruct (negb _ && _); inversion Hfirst; subst; simpl;
      apply elem_of_union; left; by apply elem_of_singleton. }
  destruct (performRequest_settings now (Some l) w w1 Hfirst) as (Hc1 & _).
  destruct (handle_all_settings mid w1 w2 Hmid) as (Hc2 & _ & Hf2).
  assert (Hp2 : Passive (config (ns w2)) = true) by (by rewrite Hc2, Hc1).
  rewrite (performRequest_passive now' l' r' w2 Hp2 Hr'). cbv zeta.
  rewrite Hname. rewrite bool_decide_eq_true_2 by (by apply Hf2). simpl.
  eexists. split; [reflexivity|]. by rewrite published_same.
Qed.

End writes.

Lemma passive_output_at_most_once_witness :
  exists w3,
    @performRequest zeroTime (Some 1)
      (world_after
         (@handle_all spec_helpers [HNewName (Some 1)]
            (world_after (performRequest zeroTime (Some 0) demo_passive_pair)
                         demo_passive_pair))
         demo_passive_pair) = Ok w3 /\
    published
      (world_after
         (@handle_all spec_helpers [HNewName (Some 1)]
            (world_after (performRequest zeroTime (Some 0) demo_passive_pair)
                         demo_passive_pair))
         demo_passive_pair) w3 = [] /\
    outputs w3 =
      outputs
        (world_after
           (@handle_all spec_helpers [HNewName (Some 1)]
              (world_after (performRequest zeroTime (Some 0) demo_passive_pair)
                           demo_passive_pair))
           demo_passive_pair).
Proof.
  apply (@passive_output_at_most_once spec_helpers zeroTime zeroTime 0 1
           (demo_request "x.example.com" "example.com" "scrape")
           (demo_request "x.example.com" "example.com" "cert")
           [HNewName (Some 1)]
           demo_passive_pair
           (world_after (performRequest zeroTime (Some 0) demo_passive_pair)
                        demo_passive_pair)).
  - reflexivity.
  - vm_compute. reflexivity.
  - vm_compute. reflexivity.
  - vm_compute. reflexivity.
  - vm_compute. reflexivity.
  - reflexivity.
Defined.

(** ** The handlers do not panic *)

Section safety.
Context `{Helpers}.

Lemma inbox_valid_grows (q : Queue (option loc)) (h h' : gmap loc DNSRequest.t) :
  (forall l, is_Some (h !! l) -> is_Some (h' !! l)) ->
  Forall (fun req => exists l, req = Some l /\ is_Some (h !! l)) q ->
  Forall (fun req => exists l, req = Some l /\ is_Some (h' !! l)) q.
Proof.
  intros Hgrow Hq. eapply Forall_impl; [exact Hq|].
  intros req (l & -> & Hl). eauto.
Qed.

Lemma event_valid_grows (e : handled) (w w' : World) :
  (forall l, is_Some (requests w !! l) -> is_Some (requests w' !! l)) ->
  event_valid w e -> event_valid w' e.
Proof. intros Hgrow. destruct e as [[l|]|now [l|]|now]; simpl; auto. Qed.

Lemma newNameEvent_safe (l : loc) (w : World) :
  inbox_valid w ->
  is_Some (requests w !! l) ->
  exists w', newNameEvent (Some l) w = Ok w' /\ inbox_valid w' /\
    forall l0, is_Some (requests w !! l0) -> is_Some (requests w' !! l0).
Proof.
  intros Hin [r Hr].
  destruct (decide (DNSRequest.Name r = "")) as [Hn|Hn];
    [rewrite (newNameEvent_empty l r w) by auto; eauto|].
  destruct (decide (DNSRequest.Domain r = "")) as [Hd|Hd];
    [rewrite (newNameEvent_empty l r w) by auto; eauto|].
  rewrite (newNameEvent_accepts l r w Hr Hn Hd). cbv zeta.
  set (r' := with_Domain _ _).
  assert (Hgrow : forall l0, is_Some (requests w !! l0) ->
                    is_Some (<[l := r']> (requests w) !! l0)).
  { intros l0 Hl0. destruct (decide (l = l0)) as [->|Hne].
    - rewrite lookup_insert_eq. eauto.
    - by rewrite lookup_insert_ne. }
  assert (Hold : Forall (fun req => exists l0, req = Some l0 /\
                           is_Some (<[l := r']> (requests w) !! l0))
                        (dnsRequests (ns w))).
  { by apply (inbox_valid_grows _ (requests w)). }
  assert (Hnew : Forall (fun req => exists l0, req = Some l0 /\
                           is_Some (<[l := r']> (requests w) !! l0))
                        (dnsRequests (ns w) ++ [Some l])).
  { apply Forall_app. split; [done|]. apply Forall_singleton.
    exists l. split; [done|]. rewrite lookup_insert_eq. eauto. }
  destruct (TrustedTag _), (bool_decide _);
    (eexists; split; [reflexivity|]; split; [|exact Hgrow]);
    unfold inbox_valid; simpl; assumption.
Qed.

Lemma Resolved_safe (now : Time) (l : loc) (w : World) :
  inbox_valid w ->
  is_Some (requests w !! l) ->
  exists w', Resolved now (Some l) w = Ok w' /\ inbox_valid w' /\
    forall l0, is_Some (requests w !! l0) -> is_Some (requests w' !! l0).
Proof.
  intros Hin [r Hr].
  destruct (Resolved_cases now l r w Hr) as (w' & Hrun & _).
  destruct (Resolved_frame now (Some l) w w' Hrun) as [_ Hkeep].
  destruct (Resolved_ns now (Some l) w w' Hrun) as [Hns _].
  assert (Hgrow : forall l0, is_Some (requests w !! l0) -> is_Some (requests w' !! l0)).
  { intros l0 [r0 Hr0]. rewrite (Hkeep l0 r0 Hr0). eauto. }
  exists w'. split; [done|]. split; [|done].
  unfold inbox_valid. rewrite Hns. simpl.
  by apply (inbox_valid_grows _ (requests w)).
Qed.

Lemma processRequests_turn_safe (now : Time) (w : World) :
  inbox_valid w ->
  exists w', processRequests_turn now w = Ok w' /\ inbox_valid w' /\
    forall l0, is_Some (requests w !! l0) -> is_Some (requests w' !! l0).
Proof.
  intros Hin. unfold processRequests_turn.
  destruct (dnsRequests (ns w)) as [|req q] eqn:Hq; simpl; [eauto|].
  unfold inbox_valid in Hin. rewrite Hq in Hin.
  apply Forall_cons in Hin as [(l & -> & [r Hr]) Hrest].
  set (w1 := set_ns (set_dnsRequests q (ns w)) w).
  assert (Hrun : exists w', performRequest now (Some l) w1 = Ok w').
  { destruct (Passive (config (ns w1))) eqn:Hp.
    - rewrite (performRequest_passive now l r w1 Hp Hr). cbv zeta.
      destruct (negb _ && _); eauto.
    - unfold performRequest. simpl. simpl in Hp. rewrite Hp. eauto. }
  destruct Hrun as [w' Hrun]. exists w'. split; [done|].
  destruct (performRequest_frame now (Some l) w1 w' Hrun) as [_ Hreq].
  destruct (performRequest_settings now (Some l) w1 w' Hrun) as (_ & _ & _ & Hbox).
  split; [|by rewrite Hreq].
  unfold inbox_valid. by rewrite Hbox, Hreq.
Qed.

Lemma handle_safe (e : handled) (w : World) :
  inbox_valid w ->
  event_valid w e ->
  exists w', handle e w = Ok w' /\ inbox_valid w' /\
    forall l0, is_Some (requests w !! l0) -> is_Some (requests w' !! l0).
Proof.
  intros Hin He. destruct e as [[l|]|now [l|]|now]; simpl in *.
  - by apply newNameEvent_safe.
  - eauto.
  - by apply Resolved_safe.
  - done.
  - by apply processRequests_turn_safe.
Qed.

(** X11. The handlers of the service do not panic on a nil pointer, whatever
    order they run in. [performRequest] and [Resolved] read through the
    request pointer without a check; [newNameEvent] checks it and is the one
    that fills the inbox, so every pointer [performRequest] takes from the
    inbox points to a request. When the pointers given to [newNameEvent]
    are nil or valid and those given to [Resolved] are valid, every run of
    the handlers ends without a panic, the inbox holds valid pointers only,
    and no request object is lost. *)
Theorem handlers_do_not_panic (es : list handled) (w : World) :
  inbox_valid w ->
  Forall (event_valid w) es ->
  exists w',
    handle_all es w = Ok w' /\
    inbox_valid w' /\
    forall l, is_Some (requests w !! l) -> is_Some (requests w' !! l).
Proof.
  revert w. induction es as [|e rest IH]; intros w Hin Hes; simpl.
  - eauto.
  - apply Forall_cons in Hes as [He Hrest].
    destruct (handle_safe e w Hin He) as (w1 & Hrun & Hin1 & Hgrow1).
    rewrite Hrun. simpl.
    destruct (IH w1 Hin1) as (w' & Hall & Hin' & Hgrow').
    { eapply Forall_impl; [exact Hrest|]. intros e0. by apply event_valid_grows. }
    exists w'. split; [done|]. split; [done|]. auto.
Qed.

End safety.

Lemma handlers_do_not_panic_witness :
  exists w',
    @handle_all spec_helpers
      [HNewName (Some 0); HNewName None; HRequest zeroTime; HResolved zeroTime (Some 1)]
      demo_spec_example = Ok w' /\
    inbox_valid w' /\
    forall l, is_Some (requests demo_spec_example !! l) -> is_Some (requests w' !! l).
Proof.
  apply (@handlers_do_not_panic spec_helpers
           [HNewName (Some 0); HNewName None; HRequest zeroTime; HResolved zeroTime (Some 1)]
           demo_spec_example).
  - apply Forall_nil_2.
  - repeat apply Forall_cons_2; try apply Forall_nil_2; simpl; try exact I;
      vm_compute; eauto.
Defined.

(** ** The counter goroutine *)

Lemma counter_idle_map (fuel : nat) :
  forall st : timesLoop,
    exists i, processTimesRequests fuel st [] = (mkTimesLoop i (subdomains st), [], []).
Proof.
  induction fuel as [|fuel IH]; intros st; simpl.
  - exists (curIdx st). by destruct st.
  - apply (IH (mkTimesLoop _ (subdomains st))).
Qed.

Lemma counter_idle_polls (k : nat) :
  forall st : timesLoop,
    curIdx st <= amass.maxIdx ->
    processTimesRequests k st []
      = (mkTimesLoop (backoff amass.maxIdx (curIdx st) k) (subdomains st), [], []).
Proof.
  induction k as [|k IH]; intros st Hi.
  - simpl. unfold backoff. rewrite Nat.add_0_r, Nat.min_l by done. by destruct st.
  - simpl. rewrite IH; simpl.
    + do 2 f_equal. f_equal. unfold backoff, amass.maxIdx in *.
      destruct (curIdx st <? 9) eqn:Hlt;
        [apply Nat.ltb_lt in Hlt|apply Nat.ltb_ge in Hlt]; lia.
    + unfold amass.maxIdx in *.
      destruct (curIdx st <? 9) eqn:Hlt; [apply Nat.ltb_lt in Hlt|]; lia.
Qed.

(** X12. Given turns enough, the goroutine of [processTimesRequests] answers
    every request of the queue once, in the order of the queue, and leaves
    the queue empty; and its map then holds, for every subdomain, the number
    of requests made for it so far. *)
Theorem counter_answers_every_request (reqs : Queue timesRequest) :
  forall (fuel : nat) (st : timesLoop),
    length reqs <= fuel ->
    exists st' out,
      processTimesRequests fuel st reqs = (st', [], out) /\
      map fst out = reqs /\
      forall s k,
        subdomains st !! s = entry k ->
        (Z.of_nat (k + times_requested s reqs) <= int_max)%Z ->
        subdomains st' !! s = entry (k + times_requested s reqs).
Proof.
  induction reqs as [|req q IH]; intros fuel st Hfuel.
  - destruct (counter_idle_map fuel st) as [i Hrun].
    eexists _, []. split; [exact Hrun|]. split; [done|].
    intros s k Hk _. simpl. by rewrite Nat.add_0_r.
  - destruct fuel as [|fuel]; [simpl in Hfuel; lia|]. simpl in Hfuel.
    set (n := match subdomains st !! Subdomain req with
              | Some n => wrap_int (n + 1)
              | None => 1%Z
              end).
    destruct (IH fuel (mkTimesLoop 0 (<[Subdomain req := n]> (subdomains st))))
      as (st' & out & Hrun & Hout & Hmap); [lia|].
    exists st', ((req, n) :: out).
    split; [simpl; fold n; by rewrite Hrun|]. split; [simpl; by rewrite Hout|].
    intros s k Hk Hmax. unfold times_requested in *. simpl in Hmax |- *.
    destruct (decide (Subdomain req = s)) as [Heq|Hne].
    + rewrite bool_decide_eq_true_2 in * by done. simpl in Hmax |- *.
      replace (k + S (length (List.filter (fun r => bool_decide (Subdomain r = s)) q)))
        with (S k + length (List.filter (fun r => bool_decide (Subdomain r = s)) q)) by lia.
      apply Hmap; [|unfold int_max in *; lia].
      simpl. rewrite Heq, lookup_insert_eq. unfold n. rewrite Heq, Hk.
      destruct k as [|k]; [done|]. simpl entry. cbv iota.
      rewrite wrap_int_small; [f_equal; lia|unfold int_min, int_max in *; lia].
    + rewrite bool_decide_eq_false_2 in * by done.
      apply Hmap; [|done]. simpl. by rewrite lookup_insert_ne.
Qed.

Lemma counter_answers_every_request_witness :
  exists st' out,
    processTimesRequests 6 (mkTimesLoop 0 ∅) demo_times = (st', [], out) /\
    map fst out = demo_times /\
    forall s k,
      subdomains (mkTimesLoop 0 ∅) !! s = entry k ->
      (Z.of_nat (k + times_requested s demo_times) <= int_max)%Z ->
      subdomains st' !! s = entry (k + times_requested s demo_times).
Proof. apply (counter_answers_every_request demo_times 6 (mkTimesLoop 0 ∅)). simpl. lia. Defined.

(** The same run, computed: after the four requests the map counts three
    for one subdomain and one for the other, and two idle turns have moved
    the index to 2. *)
Example demo_times_final :
  (processTimesRequests 6 (mkTimesLoop 0 ∅) demo_times).1
    = (mkTimesLoop 2 (<["foo.example.com" := 3%Z]> (<["bar.example.com" := 1%Z]> ∅)), []).
Proof. vm_compute. reflexivity. Qed.

(** X13. The goroutine of [processTimesRequests], polling an empty queue, walks
    its table of ten delays and stays at the last entry: [k] polls in a row
    move the index from [i] to the smaller of [i + k] and 9 and leave the
    map as it is. The index is read after the increment, so a poll sleeps
    25 ms at least and 1000 ms at most, and the index read is an index of
    the table. *)
Theorem counter_idle_backoff (st : timesLoop) (k : nat) :
  curIdx st <= amass.maxIdx ->
  processTimesRequests k st []
    = (mkTimesLoop (backoff amass.maxIdx (curIdx st) k) (subdomains st), [], []) /\
  exists ms,
    processTimesRequests_turn false st []
      = CSleep (mkTimesLoop (backoff amass.maxIdx (curIdx st) 1) (subdomains st)) ms /\
    amass.delays !! backoff amass.maxIdx (curIdx st) 1 = Some ms /\
    25 <= ms <= 1000.
Proof.
  intros Hi. split; [by apply counter_idle_polls|].
  unfold processTimesRequests_turn. simpl.
  destruct st as [i m]. simpl in *. unfold amass.maxIdx in Hi.
  do 10 (destruct i as [|i];
         [eexists; split; [reflexivity|]; split; [reflexivity|vm_compute; lia]|]).
  lia.
Qed.

Lemma counter_idle_backoff_witness :
  processTimesRequests 12 (mkTimesLoop 0 ∅) []
    = (mkTimesLoop (backoff amass.maxIdx 0 12) ∅, [], []) /\
  exists ms,
    processTimesRequests_turn false (mkTimesLoop 0 ∅) []
      = CSleep (mkTimesLoop (backoff amass.maxIdx 0 1) ∅) ms /\
    amass.delays !! backoff amass.maxIdx 0 1 = Some ms /\
    25 <= ms <= 1000.
Proof. apply (counter_idle_backoff (mkTimesLoop 0 ∅) 12). vm_compute. lia. Defined.

(** ** The candidate subdomain *)

(** [strings.Split] and [strings.Join] on the separator ".". *)
Lemma append_cons (c : ascii) (s t : string) : String c s +:+ t = String c (s +:+ t).
Proof. reflexivity. Qed.

Lemma append_empty_r (s : string) : s +:+ "" = s.
Proof. induction s as [|c s IH]; [done|]. by rewrite append_cons, IH. Qed.

Lemma append_assoc (s t u : string) : (s +:+ t) +:+ u = s +:+ (t +:+ u).
Proof. induction s as [|c s IH]; [done|]. by rewrite !append_cons, IH. Qed.

Lemma split_go_dot_cons (c : ascii) (cur s : string) :
  gostrings.split_go "." 0 cur (String c s) =
    if bool_decide (c = "."%char)
    then cur :: gostrings.split_go "." 0 "" s
    else gostrings.split_go "." 0 (cur +:+ String c "") s.
Proof.
  change (gostrings.split_go "." 0 cur (String c s))
    with (if String.prefix "." (String c s)
          then cur :: gostrings.split_go "." 0 "" s
          else gostrings.split_go "." 0 (cur +:+ String c "") s).
  assert (Hp : String.prefix "." (String c s) = bool_decide (c = "."%char)).
  { change (String.prefix "." (String c s))
      with (match ascii_dec "." c with
            | left _ => String.prefix "" s
            | right _ => false
            end).
    destruct (ascii_dec "." c); case_bool_decide; try congruence. by destruct s. }
  by rewrite Hp.
Qed.

Lemma split_go_no_dot (s : string) :
  forall cur : string,
    "."%char ∉ list_ascii_of_string s ->
    gostrings.split_go "." 0 cur s = [cur +:+ s].
Proof.
  induction s as [|c s IH]; intros cur Hno.
  - simpl. by rewrite append_empty_r.
  - simpl in Hno. apply not_elem_of_cons in Hno as [Hc Hs].
    rewrite split_go_dot_cons, bool_decide_eq_false_2 by done.
    rewrite IH by done. by rewrite append_assoc.
Qed.

Lemma split_go_dot_label (pre : string) :
  forall cur rest : string,
    "."%char ∉ list_ascii_of_string pre ->
    gostrings.split_go "." 0 cur (pre +:+ String "." rest)
      = (cur +:+ pre) :: gostrings.split_go "." 0 "" rest.
Proof.
  induction pre as [|c pre IH]; intros cur rest Hno.
  - change ("" +:+ String "." rest) with (String "." rest).
    rewrite split_go_dot_cons, bool_decide_eq_true_2 by done.
    by rewrite append_empty_r.
  - simpl in Hno. apply not_elem_of_cons in Hno as [Hc Hs].
    rewrite append_cons, split_go_dot_cons, bool_decide_eq_false_2 by done.
    rewrite IH by done. by rewrite append_assoc.
Qed.

(** A string has no "." or is cut at its first ".". *)
Lemma first_dot (s : string) :
  "."%char ∉ list_ascii_of_string s \/
  exists pre rest,
    ("."%char ∉ list_ascii_of_string pre) /\ s = pre +:+ String "." rest.
Proof.
  induction s as [|c s IH].
  - left. apply not_elem_of_nil.
  - destruct (decide (c = "."%char)) as [->|Hc].
    + right. exists "", s. split; [apply not_elem_of_nil|done].
    + destruct IH as [Hno|(pre & rest & Hno & ->)].
      * left. simpl. by apply not_elem_of_cons.
      * right. exists (String c pre), rest. split; [|done].
        simpl. by apply not_elem_of_cons.
Qed.

Lemma split_go_not_empty (s : string) :
  forall cur : string, exists x rest, gostrings.split_go "." 0 cur s = x :: rest.
Proof.
  intros cur. destruct (first_dot s) as [Hno|(pre & rest & Hno & ->)].
  - rewrite split_go_no_dot by done. eauto.
  - rewrite split_go_dot_label by done. eauto.
Qed.

Lemma Join_cons (x y : string) (rest : list string) (sep : string) :
  gostrings.Join (x :: y :: rest) sep = x +:+ sep +:+ gostrings.Join (y :: rest) sep.
Proof. reflexivity. Qed.

(** Joining the pieces of a string gives the string back. *)
Lemma Join_split_go (s : string) :
  forall cur : string,
    gostrings.Join (gostrings.split_go "." 0 cur s) "." = cur +:+ s.
Proof.
  induction s as [|c s IH]; intros cur.
  - simpl. by rewrite append_empty_r.
  - rewrite split_go_dot_cons. case_bool_decide as Hc.
    + subst c. destruct (split_go_not_empty s "") as (x & rest & Hs).
      specialize (IH ""). rewrite Hs in IH |- *. by rewrite Join_cons, IH.
    + by rewrite IH, append_assoc.
Qed.

Lemma Join_Split (s : string) : gostrings.Join (gostrings.Split s ".") "." = s.
Proof. apply (Join_split_go s ""). Qed.

Lemma Split_label (pre rest : string) :
  "."%char ∉ list_ascii_of_string pre ->
  gostrings.Split (pre +:+ "." +:+ rest) "." = pre :: gostrings.Split rest ".".
Proof. intros Hno. apply (split_go_dot_label pre "" rest Hno). Qed.

(** The candidate of a name with two labels or more is the name from just
    past its first ".". *)
Lemma candidate_after_first_dot (r : DNSRequest.t) :
  2 <= length (gostrings.Split (DNSRequest.Name r) ".") ->
  exists label,
    ("."%char ∉ list_ascii_of_string label) /\
    DNSRequest.Name r = label +:+ "." +:+ candidate r.
Proof.
  intros Hnum. unfold candidate.
  destruct (first_dot (DNSRequest.Name r)) as [Hno|(pre & rest & Hno & Hname)].
  - unfold gostrings.Split in Hnum. rewrite split_go_no_dot in Hnum by done.
    simpl in Hnum. lia.
  - exists pre. split; [done|]. rewrite Hname at 2.
    change (pre +:+ String "." rest) with (pre +:+ "." +:+ rest).
    rewrite Split_label by done. simpl. rewrite drop_0, Join_Split. exact Hname.
Qed.

(** X14. What [checkSubdomain] promotes is the resolved name without its first
    label and the "." after it: whenever it publishes, it publishes one
    request on the new-subdomain topic, and the resolved name is a label
    with no "." in it, a ".", and the name of the published request. *)
Theorem promoted_name_drops_first_label
    (l : loc) (r : DNSRequest.t) (w w' : World) :
  requests w !! l = Some r ->
  checkSubdomain (Some l) w = Ok w' ->
  published w w' ≠ [] ->
  exists label p n sub,
    published w w' = [mkPubReq NewSubdomainTopic [PtrDNSRequest (Some p); Int n]] /\
    requests w' !! p = Some sub /\
    ("."%char ∉ list_ascii_of_string label) /\
    DNSRequest.Name r = label +:+ "." +:+ DNSRequest.Name sub.
Proof.
  intros Hr Hrun Hpub.
  destruct (decide (passes_checks r)) as [Hc|Hc];
    [|rewrite (checkSubdomain_rejects l r w Hr Hc) in Hrun; inversion Hrun; subst;
      by rewrite published_same in Hpub].
  assert (Ha : alias_free w (candidate r) (DNSRequest.Domain r)).
  { unfold alias_free. destruct (graph (ns w)) as [g|] eqn:Hg; [|done].
    fold (alias_query w r).
    destruct (handlers.IsCNAMENode g (alias_query w r)) eqn:Hcname; [|done].
    rewrite (checkSubdomain_alias l r w g Hr Hc Hg Hcname) in Hrun.
    inversion Hrun; subst. by rewrite published_same in Hpub. }
  destruct (checkSubdomain_promotes l r w Hr Hc Ha) as (w1 & p & n & Hrun1 & Hpub1 & Hp & _).
  rewrite Hrun in Hrun1. inversion Hrun1; subst w1.
  destruct (candidate_after_first_dot r) as (label & Hno & Hname); [apply Hc|].
  exists label, p, n. eexists. split; [exact Hpub1|]. split; [exact Hp|].
  split; [exact Hno|exact Hname].
Qed.

Lemma promoted_name_drops_first_label_witness :
  exists label p n sub,
    published (demo_resolved "www.foo.example.com")
              (world_after (checkSubdomain (Some 0) (demo_resolved "www.foo.example.com"))
                           (demo_resolved "www.foo.example.com"))
      = [mkPubReq NewSubdomainTopic [PtrDNSRequest (Some p); Int n]] /\
    requests (world_after (checkSubdomain (Some 0) (demo_resolved "www.foo.example.com"))
                          (demo_resolved "www.foo.example.com")) !! p = Some sub /\
    ("."%char ∉ list_ascii_of_string label) /\
    "www.foo.example.com" = label +:+ "." +:+ DNSRequest.Name sub.
Proof.
  apply (promoted_name_drops_first_label 0
           (demo_request "www.foo.example.com" "example.com" "dns")
           (demo_resolved "www.foo.example.com")).
  - vm_compute. reflexivity.
  - vm_compute. reflexivity.
  - vm_compute. discriminate.
Defined.

(** X15. The root domain itself is promoted: when the resolved name is one
    label in front of the domain of the request, the candidate is that
    domain, and [checkSubdomain] publishes it on the new-subdomain topic
    (unless the first label of the domain is one of the three service
    labels, or the graph has the domain as a CNAME node). *)
Theorem direct_child_promotes_the_domain
    (l : loc) (r : DNSRequest.t) (w : World) (label : string) :
  requests w !! l = Some r ->
  "."%char ∉ list_ascii_of_string label ->
  DNSRequest.Name r = label +:+ "." +:+ DNSRequest.Domain r ->
  hd "" (gostrings.Split (DNSRequest.Domain r) ".") ∉ ["_tcp"; "_udp"; "_tls"] ->
  alias_free w (DNSRequest.Domain r) (DNSRequest.Domain r) ->
  candidate r = DNSRequest.Domain r /\
  exists w', checkSubdomain (Some l) w = Ok w' /\ promoted r (DNSRequest.Domain r) w w'.
Proof.
  intros Hr Hno Hname Hsvc Ha.
  assert (Hlabels : gostrings.Split (DNSRequest.Name r) "."
                    = label :: gostrings.Split (DNSRequest.Domain r) ".").
  { rewrite Hname. by apply Split_label. }
  assert (Hcand : candidate r = DNSRequest.Domain r).
  { unfold candidate. rewrite Hlabels. simpl. rewrite drop_0. apply Join_Split. }
  split; [done|].
  destruct (split_go_not_empty (DNSRequest.Domain r) "") as (x & rest & Hd).
  assert (Hc : passes_checks r).
  { unfold passes_checks. rewrite Hlabels. unfold gostrings.Split in Hsvc |- *.
    rewrite Hd in Hsvc |- *. simpl in Hsvc |- *.
    split; [lia|]. split; [lia|].
    split; [|split]; intros ->; apply Hsvc; set_solver. }
  destruct (checkSubdomain_promoted l r w (DNSRequest.Domain r) Hr Hc Hcand Ha)
    as (w' & Hrun & Hp & _).
  eauto.
Qed.

Lemma direct_child_promotes_the_domain_witness :
  candidate (demo_request "www.example.com" "example.com" "dns") = "example.com" /\
  exists w',
    checkSubdomain (Some 0) (demo_resolved "www.example.com") = Ok w' /\
    promoted (demo_request "www.example.com" "example.com" "dns") "example.com"
             (demo_resolved "www.example.com") w'.
Proof.
  apply (direct_child_promotes_the_domain 0
           (demo_request "www.example.com" "example.com" "dns")
           (demo_resolved "www.example.com") "www").
  - vm_compute. reflexivity.
  - vm_compute. intros Hin. repeat (apply elem_of_cons in Hin as [Hin|Hin]; [discriminate|]).
    by apply elem_of_nil in Hin.
  - reflexivity.
  - vm_compute. intros Hin. repeat (apply elem_of_cons in Hin as [Hin|Hin]; [discriminate|]).
    by apply elem_of_nil in Hin.
  - exact I.
Defined.

(** ** From a new name to the bus *)

Section pipeline.
Context `{Helpers}.

(** The request as [newNameEvent] leaves it. *)
Lemma newNameEvent_forwards (l : loc) (r : DNSRequest.t) (w : World) :
  requests w !! l = Some r ->
  DNSRequest.Name r ≠ "" ->
  DNSRequest.Domain r ≠ "" ->
  normal_name r ∉ class_filter (TrustedTag (DNSRequest.Tag r)) (ns w) ->
  exists wn,
    newNameEvent (Some l) w = Ok wn /\
    ebus wn = ebus w /\ outputs wn = outputs w /\
    requests wn = <[l := with_Domain (ToLower (DNSRequest.Domain r))
                           (with_Name (normal_name r) r)]> (requests w) /\
    dnsRequests (ns wn) = dnsRequests (ns w) ++ [Some l] /\
    config (ns wn) = config (ns w) /\ filter (ns wn) = filter (ns w) /\
    sanityRE (ns wn) = sanityRE (ns w).
Proof.
  intros Hr Hn Hd Hnew. rewrite (newNameEvent_accepts l r w Hr Hn Hd). cbv zeta.
  unfold class_filter in Hnew.
  destruct (TrustedTag (DNSRequest.Tag r)); rewrite bool_decide_eq_false_2 by done;
    eexists; (split; [reflexivity|]); done.
Qed.

(** X16. A new name reaches the bus under its normal form. When [newNameEvent]
    accepts a request and the request loop then takes it from the inbox,
    the request object carries the normalised name and domain, and what is
    published refers to them: in the active mode the same pointer goes to the
    resolve topic; in the passive mode the output filter and the sanity
    expression are applied to the normalised name, and the Output record
    carries the normalised name and domain with the tag and source of the
    request. *)
Theorem new_name_reaches_bus_normalised
    (now : Time) (l : loc) (r : DNSRequest.t) (w : World) :
  requests w !! l = Some r ->
  DNSRequest.Name r ≠ "" ->
  DNSRequest.Domain r ≠ "" ->
  normal_name r ∉ class_filter (TrustedTag (DNSRequest.Tag r)) (ns w) ->
  dnsRequests (ns w) = [] ->
  exists w',
    handle_all [HNewName (Some l); HRequest now] w = Ok w' /\
    dnsRequests (ns w') = [] /\
    requests w' !! l = Some (with_Domain (ToLower (DNSRequest.Domain r))
                               (with_Name (normal_name r) r)) /\
    (Passive (config (ns w)) = false ->
     published w w' = [mkPubReq ResolveNameTopic [PtrDNSRequest (Some l)]]) /\
    (Passive (config (ns w)) = true ->
     (normal_name r ∉ filter (ns w) ->
      sanityRE (ns w) (normal_name r) = true ->
      exists o,
        published w w' = [mkPubReq OutputTopic [PtrOutput (Some o)]] /\
        outputs w' !! o =
          Some {| Output.Timestamp := zeroTime;
                  Output.Name := normal_name r;
                  Output.Domain := ToLower (DNSRequest.Domain r);
                  Output.Addresses := [];
                  Output.Tag := DNSRequest.Tag r;
                  Output.Source := DNSRequest.Source r |}) /\
     (normal_name r ∈ filter (ns w) \/ sanityRE (ns w) (normal_name r) = false ->
      published w w' = [])).
Proof.
  intros Hr Hn Hd Hnew Hbox.
  destruct (newNameEvent_forwards l r w Hr Hn Hd Hnew)
    as (wn & Hrun & Hb & Ho & Hreq & Hq & Hcfg & Hf & Hre).
  rewrite Hbox in Hq. simpl in Hq.
  cbn [handle_all handle]. rewrite Hrun. simpl.
  unfold processRequests_turn. rewrite Hq. simpl.
  set (r' := with_Domain (ToLower (DNSRequest.Domain r)) (with_Name (normal_name r) r))
    in *.
  set (wq := set_ns (set_dnsRequests [] (ns wn)) wn).
  assert (Hr' : requests wq !! l = Some r').
  { unfold wq. simpl. rewrite Hreq. apply lookup_insert_eq. }
  destruct (Passive (config (ns w))) eqn:Hp.
  - assert (Hp' : Passive (config (ns wq)) = true) by (unfold wq; simpl; by rewrite Hcfg).
    rewrite (performRequest_passive now l r' wq Hp' Hr'). cbv zeta.
    change (DNSRequest.Name r') with (normal_name r).
    change (filter (ns wq)) with (filter (ns wn)).
    change (sanityRE (ns wq)) with (sanityRE (ns wn)).
    rewrite Hf, Hre.
    destruct (bool_decide (normal_name r ∈ filter (ns w))) eqn:Hdup; simpl.
    + eexists. split; [reflexivity|]. split; [done|]. split; [done|].
      split; [done|]. intros _. apply bool_decide_eq_true_1 in Hdup. split; [done|].
      intros _. by apply published_same.
    + apply bool_decide_eq_false_1 in Hdup.
      destruct (sanityRE (ns w) (normal_name r)) eqn:Hsane.
      * eexists. split; [reflexivity|]. split; [done|]. split; [done|].
        split; [done|]. intros _. split.
        -- intros _ _. eexists.
           edestruct (published_bus_Publish OutputTopic) as [Hpub _];
             [| |rewrite Hpub]; [exact Hb|done|].
           split; [reflexivity|]. apply lookup_insert_eq.
        -- intros [Hin|Hno]; [done|discriminate].
      * eexists. split; [reflexivity|]. split; [done|]. split; [done|].
        split; [done|]. intros _. split; [done|].
        intros _. by apply published_same.
  - unfold performRequest. simpl. rewrite Hcfg, Hp.
    eexists. split; [reflexivity|]. split; [done|]. split; [done|].
    split; [|done]. intros _.
    edestruct (published_bus_Publish ResolveNameTopic) as [Hpub _];
      [| |rewrite Hpub]; [exact Hb|done|]. reflexivity.
Qed.

End pipeline.

Lemma new_name_reaches_bus_normalised_witness :
  exists w',
    @handle_all spec_helpers [HNewName (Some 0); HRequest zeroTime] demo_wildcard = Ok w' /\
    requests w' !! 0 = Some (demo_request "www.example.com" "example.com" "cert") /\
    published demo_wildcard w' = [mkPubReq ResolveNameTopic [PtrDNSRequest (Some 0)]].
Proof.
  destruct (@new_name_reaches_bus_normalised spec_helpers zeroTime 0
              (demo_request "*.WWW.Example.COM" "Example.COM" "cert") demo_wildcard)
    as (w' & Hrun & _ & Hreq & Hactive & _).
  - vm_compute. reflexivity.
  - discriminate.
  - discriminate.
  - apply not_elem_of_empty.
  - reflexivity.
  - exists w'. split; [exact Hrun|]. split; [exact Hreq|]. by apply Hactive.
Defined.

(** ** Starting the service *)

Section start.
Context `{Helpers}.

Lemma OnStart_subscribes (w : World) :
  OnStart w =
    let eb1 := set_topics (<[NewNameTopic := subscribers (ebus w) NewNameTopic
                                               ++ [Func fn_newNameEvent]]>
                             (topics (ebus w))) (ebus w) in
    Ok (set_ebus
          (set_topics (<[NameResolvedTopic := subscribers eb1 NameResolvedTopic
                                                ++ [Func fn_Resolved]]>
                         (topics eb1)) eb1) w).
Proof. reflexivity. Qed.

Lemma bind_result_Ok (m : result World) : (w' ← m; Ok w') = m.
Proof. by destruct m. Qed.

(** X17. [OnStart] wires the two callbacks of the service to the bus. On a bus
    that has no other subscriber on the two topics and nothing queued, a
    request published on the new-name topic is delivered as one call of
    [newNameEvent] with the published pointer, a request published on the
    resolved topic as one call of [Resolved], and a publish on a topic
    nobody subscribed to is taken from the queue and dropped. *)
Theorem OnStart_wires_the_callbacks (w : World) :
  subscribers (ebus w) NewNameTopic = [] ->
  subscribers (ebus w) NameResolvedTopic = [] ->
  queue (ebus w) = [] ->
  recv_ready (done (ebus w)) = false ->
  exists w1,
    OnStart w = Ok w1 /\
    subscribers (ebus w1) NewNameTopic = [Func fn_newNameEvent] /\
    subscribers (ebus w1) NameResolvedTopic = [Func fn_Resolved] /\
    (forall now req,
       deliver now (bus_Publish NewNameTopic [PtrDNSRequest req] w1)
         = newNameEvent req w1) /\
    (forall now req,
       deliver now (bus_Publish NameResolvedTopic [PtrDNSRequest req] w1)
         = Resolved now req w1) /\
    (forall now topic args,
       topic ≠ "" -> topics (ebus w1) !! topic = None ->
       deliver now (bus_Publish topic args w1) = Ok w1).
Proof.
  intros Hnew Hres Hq Hopen.
  assert (Hres1 : subscribers
            (set_topics (<[NewNameTopic := subscribers (ebus w) NewNameTopic
                                             ++ [Func fn_newNameEvent]]>
                           (topics (ebus w))) (ebus w)) NameResolvedTopic = []).
  { unfold subscribers in *. simpl. by rewrite lookup_insert_ne. }
  remember (<[NameResolvedTopic := [Func fn_Resolved]]>
              (<[NewNameTopic := [Func fn_newNameEvent]]> (topics (ebus w))))
    as t1 eqn:Et1.
  assert (Ht1new : t1 !! NewNameTopic = Some [Func fn_newNameEvent]).
  { rewrite Et1. rewrite lookup_insert_ne by done. apply lookup_insert_eq. }
  assert (Ht1res : t1 !! NameResolvedTopic = Some [Func fn_Resolved]).
  { rewrite Et1. apply lookup_insert_eq. }
  assert (Hstart : OnStart w = Ok (set_ebus (set_topics t1 (ebus w)) w)).
  { rewrite OnStart_subscribes. cbv zeta. rewrite Hres1, Hnew, Et1. reflexivity. }
  exists (set_ebus (set_topics t1 (ebus w)) w). split; [exact Hstart|].
  assert (Hsame : forall p,
            set_ebus (set_queue [] (set_queue (Append [] p) (set_topics t1 (ebus w))))
                     (set_ebus (set_queue (Append [] p) (set_topics t1 (ebus w)))
                               (set_ebus (set_topics t1 (ebus w)) w))
            = set_ebus (set_topics t1 (ebus w)) w).
  { intros p. destruct w as [n eb rq o c ch sn qs]. destruct eb. simpl in *. by subst. }
  split; [unfold subscribers; simpl; by rewrite Ht1new|].
  split; [unfold subscribers; simpl; by rewrite Ht1res|].
  split; [|split].
  - intros now req. unfold deliver, core.processRequests_turn, bus_Publish, Publish.
    simpl. rewrite Hopen, Hq. simpl. rewrite Ht1new. simpl.
    rewrite Hsame. apply bind_result_Ok.
  - intros now req. unfold deliver, core.processRequests_turn, bus_Publish, Publish.
    simpl. rewrite Hopen, Hq. simpl. rewrite Ht1res. simpl.
    rewrite Hsame. apply bind_result_Ok.
  - intros now topic args Ht Hnone.
    unfold deliver, core.processRequests_turn, bus_Publish, Publish.
    rewrite bool_decide_eq_false_2 by done.
    simpl in *. rewrite Hopen, Hq. simpl. rewrite Hnone.
    by rewrite Hsame.
Qed.

End start.

Lemma OnStart_wires_the_callbacks_witness :
  exists w1,
    @OnStart demo_wildcard = Ok w1 /\
    @deliver spec_helpers zeroTime
       (bus_Publish NewNameTopic [PtrDNSRequest (Some 0)] w1)
      = @newNameEvent spec_helpers (Some 0) w1 /\
    @deliver spec_helpers zeroTime
       (bus_Publish OutputTopic [PtrOutput (Some 0)] w1) = Ok w1.
Proof.
  destruct (@OnStart_wires_the_callbacks spec_helpers demo_wildcard)
    as (w1 & Hrun & Hsn & _ & Hnew & _ & Hother);
    [reflexivity|reflexivity|reflexivity|reflexivity|].
  exists w1. split; [exact Hrun|]. split; [apply Hnew|].
  apply Hother; [discriminate|].
  unfold subscribers in Hsn. rewrite OnStart_subscribes in Hrun.
  inversion Hrun; subst w1. vm_compute. reflexivity.
Defined.

End NameServiceMore.

(** * Properties of the web archive connectors *)

Module ArchiveSpec.
Import utils core sources.

Section connectors.
Context `{Crawler}.

(** ** The guard of executeQuery *)

(** The guard is written with one condition in [ArchiveIt] and [Arquivo]
    and with two in [LoCArchive]: the methods agree. *)
Lemma LoCArchive_executeQuery_eq (sn domain : string) (st : State) :
  LoCArchive_executeQuery sn domain st = ArchiveIt_executeQuery sn domain st.
Proof.
  unfold LoCArchive_executeQuery, ArchiveIt_executeQuery.
  by repeat case_bool_decide.
Qed.

Lemma executeQuery_eq (sn domain : string) (st : State) :
  executeQuery sn domain st = ArchiveIt_executeQuery sn domain st.
Proof.
  unfold executeQuery. destruct (kind (svc st)); [done|done|].
  apply LoCArchive_executeQuery_eq.
Qed.

Lemma publish_names_frame (domain : string) (names : list string) :
  forall st : State,
    svc (fold_left (publish_name domain) names st) = svc st /\
    crawled (fold_left (publish_name domain) names st) = crawled st /\
    logged (fold_left (publish_name domain) names st) = logged st.
Proof.
  induction names as [|n names IH]; intros st; [done|]. simpl.
  destruct (IH (publish_name domain st n)) as (-> & -> & ->). done.
Qed.

Lemma crawl_and_publish_frame (sn domain : string) (st : State) :
  svc (crawl_and_publish sn domain st) = svc st /\
  crawled (crawl_and_publish sn domain st) = crawled st ++ [(sn, domain)].
Proof.
  unfold crawl_and_publish. destruct (crawl _ _ _ _ _) as [names|err]; [|done].
  destruct (publish_names_frame domain names
              (mkState (svc st) (ebus st) (requests st) (crawled st ++ [(sn, domain)])
                       (logged st))) as (-> & -> & _).
  done.
Qed.

(** The two ways in which [executeQuery] ends. *)
Lemma executeQuery_cases (sn domain : string) (st : State) :
  (sn ≠ "" /\ domain ≠ "" /\ (sn ∉ filter (svc st)) /\
   executeQuery sn domain st
     = crawl_and_publish sn domain
         (set_svc (set_filter ({[ sn ]} ∪ filter (svc st)) (svc st)) st)) \/
  ((sn = "" \/ domain = "" \/ sn ∈ filter (svc st)) /\
   ebus (executeQuery sn domain st) = ebus st /\
   requests (executeQuery sn domain st) = requests st /\
   crawled (executeQuery sn domain st) = crawled st /\
   logged (executeQuery sn domain st) = logged st /\
   forall s, s ∈ filter (svc (executeQuery sn domain st)) <-> s ∈ filter (svc st)).
Proof.
  rewrite executeQuery_eq. unfold ArchiveIt_executeQuery.
  case_bool_decide as Hsn; [right; auto 10|].
  case_bool_decide as Hd; [right; auto 10|].
  unfold Duplicate. case_bool_decide as Hdup.
  - right. split; [auto|]. simpl. repeat (split; [done|]).
    intros s. rewrite elem_of_union, elem_of_singleton. split; [|auto].
    intros [->|Hs]; done.
  - left. done.
Qed.

Lemma executeQuery_inbox (sn domain : string) (st : State) :
  dnsRequests (svc (executeQuery sn domain st)) = dnsRequests (svc st).
Proof.
  rewrite executeQuery_eq. unfold ArchiveIt_executeQuery.
  repeat case_bool_decide; try done.
  unfold Duplicate. case_bool_decide; [done|].
  destruct (crawl_and_publish_frame sn domain
              (set_svc (set_filter ({[ sn ]} ∪ filter (svc st)) (svc st)) st)) as [Hsvc _].
  by rewrite Hsvc.
Qed.

(** ** One crawl per name *)

Lemma executeQuery_crawled_once (sn domain : string) (st : State) :
  crawled_once st ->
  crawled_once (executeQuery sn domain st) /\
  exists new,
    crawled (executeQuery sn domain st) = crawled st ++ new /\
    Forall (fun c => c = (sn, domain) /\ c.1 ≠ "" /\ c.2 ≠ "") new.
Proof.
  intros [Hnd Hf].
  destruct (executeQuery_cases sn domain st)
    as [(Hsn & Hd & Hnew & ->)|(_ & _ & _ & Hc & _ & Hsame)].
  - destruct (crawl_and_publish_frame sn domain
                (set_svc (set_filter ({[ sn ]} ∪ filter (svc st)) (svc st)) st))
      as [Hsvc Hcr].
    split.
    + unfold crawled_once. rewrite Hsvc, Hcr. simpl. rewrite map_app. simpl. split.
      * apply NoDup_app. split; [done|]. split; [|apply NoDup_singleton].
        intros s Hs ->%list_elem_of_singleton. apply Hnew. by apply Hf.
      * intros s. rewrite elem_of_union, elem_of_singleton, elem_of_app,
          list_elem_of_singleton, Hf. split; intros [Hs|Hs]; auto.
    + exists [(sn, domain)]. split; [by rewrite Hcr|]. by apply Forall_singleton.
  - split.
    + unfold crawled_once. rewrite Hc. split; [done|]. intros s. by rewrite Hsame.
    + exists []. by rewrite Hc, app_nil_r.
Qed.

(** X18. A connector crawls a name at most once, whatever it is asked and in
    whatever order, also when the crawl of the name failed or found
    nothing. Its filter holds the names it crawled and no other name: a
    query with an empty domain does not use the name up. [crawl] is never
    called with an empty name or an empty domain, and only for a name and
    domain that were asked for. This holds for the three connectors. *)
Theorem archives_crawl_each_name_once (qs : list (string * string)) :
  forall st : State,
    crawled_once st ->
    crawled_once (executeQueries qs st) /\
    exists new,
      crawled (executeQueries qs st) = crawled st ++ new /\
      Forall (fun c => c ∈ qs /\ c.1 ≠ "" /\ c.2 ≠ "") new.
Proof.
  induction qs as [|[sn domain] qs IH]; intros st Hst.
  - split; [done|]. exists []. by rewrite app_nil_r.
  - destruct (executeQuery_crawled_once sn domain st Hst) as (Hst1 & new1 & Hc1 & Hnew1).
    destruct (IH _ Hst1) as (Hst2 & new2 & Hc2 & Hnew2).
    split; [exact Hst2|]. exists (new1 ++ new2). split.
    + unfold executeQueries in *. simpl. by rewrite Hc2, Hc1, app_assoc.
    + apply Forall_app. split.
      * eapply Forall_impl; [exact Hnew1|]. intros c (-> & ? & ?).
        split; [apply list_elem_of_here|done].
      * eapply Forall_impl; [exact Hnew2|]. intros c (? & ? & ?).
        split; [by apply list_elem_of_further|done].
Qed.

(** ** What a query publishes *)

Lemma publish_names_spec (domain : string) (names : list string) :
  forall st : State,
    exists ls,
      queue (ebus (fold_left (publish_name domain) names st))
        = queue (ebus st)
            ++ map (fun l => mkPubReq NewNameTopic [PtrDNSRequest (Some l)]) ls /\
      NoDup ls /\
      Forall2 (fun l n =>
                 requests st !! l = None /\
                 requests (fold_left (publish_name domain) names st) !! l
                   = Some {| DNSRequest.Name := cleanName n;
                             DNSRequest.Domain := domain;
                             DNSRequest.Records := [];
                             DNSRequest.Tag := SourceType (svc st);
                             DNSRequest.Source := name (svc st) |}) ls names /\
      forall l r, requests st !! l = Some r ->
                  requests (fold_left (publish_name domain) names st) !! l = Some r.
Proof.
  induction names as [|n names IH]; intros st.
  - exists []. simpl. rewrite app_nil_r. split; [done|]. split; [constructor|].
    split; [constructor|done].
  - simpl. set (l := fresh (dom (requests st))).
    assert (Hl : requests st !! l = None).
    { apply not_elem_of_dom. apply is_fresh. }
    destruct (IH (publish_name domain st n)) as (ls & Hq & Hnd & Hall & Hkeep).
    assert (Hmine : requests (publish_name domain st n) !! l
                    = Some {| DNSRequest.Name := cleanName n;
                              DNSRequest.Domain := domain;
                              DNSRequest.Records := [];
                              DNSRequest.Tag := SourceType (svc st);
                              DNSRequest.Source := name (svc st) |}).
    { unfold publish_name. simpl. apply lookup_insert_eq. }
    assert (Hgrow : forall l0 r, requests st !! l0 = Some r ->
                      requests (publish_name domain st n) !! l0 = Some r).
    { intros l0 r Hr. unfold publish_name. simpl. rewrite lookup_insert_ne; [done|].
      fold l. intros <-. by rewrite Hl in Hr. }
    exists (l :: ls). split; [|split; [|split]].
    + rewrite Hq. unfold publish_name, Publish, Append, ValueOf. simpl.
      by rewrite <- app_assoc.
    + apply NoDup_cons. split; [|done]. intros Hin.
      apply list_elem_of_lookup in Hin as [i Hi].
      destruct (Forall2_lookup_l _ _ _ i l Hall Hi) as (n0 & _ & Hnone0 & _).
      by rewrite Hmine in Hnone0.
    + constructor.
      * split; [done|]. by apply Hkeep.
      * eapply Forall2_impl; [exact Hall|]. intros l0 n0 [Hnone Hsome].
        split; [|exact Hsome].
        destruct (requests st !! l0) as [r|] eqn:Hr; [|done].
        by rewrite (Hgrow l0 r Hr) in Hnone.
    + intros l0 r Hr. by apply Hkeep, Hgrow.
Qed.

(** X19. A query for a new name whose crawl finds [names] publishes one request
    per name found, in the order found, each on the new-name topic and each
    a new request object of its own: its name is the cleaned name, its
    domain the domain of the query, its tag the source type of the
    connector and its source the name of the connector. The requests that
    existed are left as they were. *)
Theorem executeQuery_publishes_found_names
    (sn domain : string) (names : list string) (st : State) :
  sn ≠ "" ->
  domain ≠ "" ->
  sn ∉ filter (svc st) ->
  crawl (length (crawled st)) (baseURL (svc st)) (sources.domain (svc st)) sn domain
    = inl names ->
  exists ls,
    published st (executeQuery sn domain st)
      = map (fun l => mkPubReq NewNameTopic [PtrDNSRequest (Some l)]) ls /\
    NoDup ls /\
    Forall2 (fun l n =>
               requests st !! l = None /\
               requests (executeQuery sn domain st) !! l
                 = Some {| DNSRequest.Name := cleanName n;
                           DNSRequest.Domain := domain;
                           DNSRequest.Records := [];
                           DNSRequest.Tag := SourceType (svc st);
                           DNSRequest.Source := name (svc st) |}) ls names /\
    (forall l r, requests st !! l = Some r ->
                 requests (executeQuery sn domain st) !! l = Some r) /\
    logged (executeQuery sn domain st) = logged st.
Proof.
  intros Hsn Hd Hnew Hcrawl.
  destruct (executeQuery_cases sn domain st)
    as [(_ & _ & _ & ->)|([?|[?|?]] & _)]; [|done|done|done].
  unfold crawl_and_publish. simpl. rewrite Hcrawl.
  set (st1 := mkState _ _ _ _ _).
  destruct (publish_names_spec domain names st1) as (ls & Hq & Hnd & Hall & Hkeep).
  destruct (publish_names_frame domain names st1) as (_ & _ & Hlog).
  exists ls. split; [|split; [done|split; [done|split; [done|done]]]].
  unfold published. rewrite Hq. simpl. by rewrite drop_app_length.
Qed.

(** ** The request loop *)

(** X20. A turn of the request loop crawls exactly when the resolved name is in
    scope, the name and the domain of the request are not empty and the name
    was not crawled before; the crawl is then for the name of the request
    itself and its domain. In every other case the turn publishes nothing
    and writes nothing to the log. *)
Theorem processRequests_crawls_exactly_when
    (l : loc) (q : Queue (option loc)) (r : DNSRequest.t) (st : State) :
  dnsRequests (svc st) = Some l :: q ->
  requests st !! l = Some r ->
  exists st',
    processRequests_turn st = Ok st' /\
    dnsRequests (svc st') = q /\
    (amass.IsDomainInScope (config (svc st)) (DNSRequest.Name r) = true ->
     DNSRequest.Name r ≠ "" -> DNSRequest.Domain r ≠ "" ->
     DNSRequest.Name r ∉ filter (svc st) ->
     crawled st' = crawled st ++ [(DNSRequest.Name r, DNSRequest.Domain r)] /\
     DNSRequest.Name r ∈ filter (svc st')) /\
    (amass.IsDomainInScope (config (svc st)) (DNSRequest.Name r) = false \/
     DNSRequest.Name r = "" \/ DNSRequest.Domain r = "" \/
     DNSRequest.Name r ∈ filter (svc st) ->
     crawled st' = crawled st /\ published st st' = [] /\
     requests st' = requests st /\ logged st' = logged st).
Proof.
  intros Hbox Hr. unfold processRequests_turn. rewrite Hbox. simpl. rewrite Hr. simpl.
  set (st1 := set_svc (set_dnsRequests q (svc st)) st).
  destruct (amass.IsDomainInScope (config (svc st)) (DNSRequest.Name r)) eqn:Hscope.
  - eexists. split; [reflexivity|].
    split; [by rewrite executeQuery_inbox|].
    destruct (executeQuery_cases (DNSRequest.Name r) (DNSRequest.Domain r) st1)
      as [(Hsn & Hd & Hnew & Hrun)|(Hno & Hb & Hreq & Hc & Hlog & Hsame)].
    + destruct (crawl_and_publish_frame (DNSRequest.Name r) (DNSRequest.Domain r)
                  (set_svc (set_filter ({[ DNSRequest.Name r ]} ∪ filter (svc st1))
                                       (svc st1)) st1)) as [Hsvc Hcr].
      rewrite Hrun, Hsvc, Hcr. split.
      * intros _ _ _ _. split; [done|]. simpl.
        apply elem_of_union. left. by apply elem_of_singleton.
      * intros [?|[?|[?|?]]]; done.
    + split.
      * intros _ Hsn Hd Hnew. destruct Hno as [?|[?|?]]; done.
      * intros _. rewrite Hc, Hreq, Hlog. unfold published. rewrite Hb. simpl.
        by rewrite drop_all.
  - eexists. split; [reflexivity|]. split; [done|]. split; [done|].
    intros _. unfold published. simpl. by rewrite drop_all.
Qed.

End connectors.

Lemma executeQuery_publishes_found_names_witness :
  exists ls,
    published demo_after_failure
      (@executeQuery demo_crawler "b.example.com" "example.com" demo_after_failure)
      = map (fun l => mkPubReq NewNameTopic [PtrDNSRequest (Some l)]) ls /\
    NoDup ls /\
    Forall2 (fun l n =>
               requests demo_after_failure !! l = None /\
               requests (@executeQuery demo_crawler "b.example.com" "example.com"
                           demo_after_failure) !! l
                 = Some {| DNSRequest.Name := @cleanName demo_crawler n;
                           DNSRequest.Domain := "example.com";
                           DNSRequest.Records := [];
                           DNSRequest.Tag := SourceType (svc demo_after_failure);
                           DNSRequest.Source := name (svc demo_after_failure) |})
            ls ["www.b.example.com"; "mail.b.example.com"] /\
    (forall l r, requests demo_after_failure !! l = Some r ->
                 requests (@executeQuery demo_crawler "b.example.com" "example.com"
                             demo_after_failure) !! l = Some r) /\
    logged (@executeQuery demo_crawler "b.example.com" "example.com" demo_after_failure)
      = logged demo_after_failure.
Proof.
  apply (@executeQuery_publishes_found_names demo_crawler "b.example.com" "example.com"
           ["www.b.example.com"; "mail.b.example.com"] demo_after_failure).
  - discriminate.
  - discriminate.
  - apply (bool_decide_eq_false_1 _). vm_compute. reflexivity.
  - reflexivity.
Defined.

Lemma processRequests_crawls_exactly_when_witness :
  exists st',
    @processRequests_turn demo_crawler (demo_inbox NewArquivo "www.example.com") = Ok st' /\
    dnsRequests (svc st') = [] /\
    crawled st' = [("www.example.com", "example.com")] /\
    "www.example.com" ∈ filter (svc st').
Proof.
  destruct (@processRequests_crawls_exactly_when demo_crawler 0 []
              (amass.demo_request "www.example.com" "example.com" "dns")
              (demo_inbox NewArquivo "www.example.com"))
    as (st' & Hrun & Hbox & Hyes & _); [reflexivity|vm_compute; reflexivity|].
  exists st'. split; [exact Hrun|]. split; [exact Hbox|].
  apply Hyes; [reflexivity|discriminate|discriminate|].
  apply (bool_decide_eq_false_1 _). vm_compute. reflexivity.
Defined.

Lemma archives_crawl_each_name_once_witness :
  crawled_once (@executeQueries demo_crawler demo_queries
                  (NewState (NewLoCArchive (amass.demo_config false)))) /\
  exists new,
    crawled (@executeQueries demo_crawler demo_queries
               (NewState (NewLoCArchive (amass.demo_config false)))) = [] ++ new /\
    Forall (fun c => c ∈ demo_queries /\ c.1 ≠ "" /\ c.2 ≠ "") new.
Proof.
  apply (@archives_crawl_each_name_once demo_crawler demo_queries
           (NewState (NewLoCArchive (amass.demo_config false)))).
  split; [constructor|]. intros s. simpl. split; intros Hs.
  - by apply not_elem_of_empty in Hs.
  - by apply elem_of_nil in Hs.
Defined.

(** The same run, computed: the failed crawl of the first name is not
    repeated, and the second name is crawled once a domain comes with it. *)
Example demo_queries_crawled :
  crawled (@executeQueries demo_crawler demo_queries
             (NewState (NewArquivo (amass.demo_config false))))
    = [("a.example.com", "example.com"); ("b.example.com", "example.com")] /\
  logged (@executeQueries demo_crawler demo_queries
            (NewState (NewArquivo (amass.demo_config false))))
    = ["Arquivo: timeout"] /\
  map Topic (queue (ebus (@executeQueries demo_crawler demo_queries
                            (NewState (NewArquivo (amass.demo_config false))))))
    = [NewNameTopic; NewNameTopic].
Proof. vm_compute. done. Qed.

End ArchiveSpec.
